(** * An asynchronous HTTP/1.1 GET client over Boost.Asio (client.cpp)

    Shallow embedding of [HTTPResponse], [HTTPRequest], [HTTPClient] and the
    [http_errors] category of client.cpp, and the properties of the request
    pipeline: status-line and header parsing, error propagation, cancellation
    and the shape of the request message.

    Conventions.  [std::string] is [string] (a sequence of bytes), unsigned
    integers are [N], [int] error values are [Z].  The
    [std::map<std::string, std::string>] of the response is the Standard
    Library's ordered map over [String_as_OT], whose order on keys is the
    byte-wise lexicographic one of [std::string::operator<].  The parts of
    the C++ standard library and of Boost.Asio the handlers call
    ([std::istream] extraction, [std::stoul], the reactor) are modelled by
    the definitions of the first sections, each next to the contract it
    follows. *)

From Stdlib Require Import String Ascii List Bool Arith NArith ZArith Lia.
From Stdlib Require Import Sorted Permutation SetoidList.
From Stdlib Require Import OrderedTypeEx FMapList FMapFacts.
Import ListNotations.

Local Open Scope string_scope.
Local Open Scope list_scope.

(** ** Byte strings *)

Definition CR : ascii := "013"%char.
Definition LF : ascii := "010"%char.
Definition CRLF : string := String CR (String LF EmptyString).
Definition CRLFCRLF : string := CRLF ++ CRLF.

(** [std::isspace] in the classic "C" locale, the locale of every stream of
    the program: space, and the controls \t \n \v \f \r. *)
Definition isspace (c : ascii) : bool :=
  let n := N_of_ascii c in
  (n =? 32)%N || ((9 <=? n)%N && (n <=? 13)%N).

Definition isdigit (c : ascii) : bool :=
  let n := N_of_ascii c in (48 <=? n)%N && (n <=? 57)%N.

Definition is_empty (s : string) : bool :=
  match s with EmptyString => true | String _ _ => false end.

Fixpoint take (n : nat) (s : string) : string :=
  match s with
  | EmptyString => EmptyString
  | String c s' =>
      match n with
      | O => EmptyString
      | S n' => String c (take n' s')
      end
  end.

Fixpoint drop (n : nat) (s : string) : string :=
  match s with
  | EmptyString => EmptyString
  | String _ s' =>
      match n with
      | O => s
      | S n' => drop n' s'
      end
  end.

(** [s.find(c)]: the position of the first occurrence of [c], [None] for
    [std::string::npos]. *)
Fixpoint find (c : ascii) (s : string) : option nat :=
  match s with
  | EmptyString => None
  | String a s' =>
      if Ascii.eqb a c then Some 0
      else match find c s' with Some i => Some (S i) | None => None end
  end.

(** [s.substr(pos, count)] and [s.substr(pos)], for [pos <= s.size()]. *)
Definition substr (s : string) (pos count : nat) : string := take count (drop pos s).
Definition substr_from (s : string) (pos : nat) : string := drop pos s.

(** Does [s] contain [d] as a contiguous substring? *)
Fixpoint contains (d s : string) : bool :=
  String.prefix d s ||
  match s with
  | EmptyString => false
  | String _ s' => contains d s'
  end.

(** The longest prefix of characters satisfying [p], and what follows it. *)
Fixpoint span (p : ascii -> bool) (s : string) : string * string :=
  match s with
  | EmptyString => (EmptyString, EmptyString)
  | String c s' =>
      if p c then let (a, b) := span p s' in (String c a, b)
      else (EmptyString, s)
  end.

(** Cut [s] at the first occurrence of [delim]: the text before it and the
    text after it, the delimiter itself dropped; [None] when it is absent. *)
Fixpoint cut (delim : ascii) (s : string) : option (string * string) :=
  match s with
  | EmptyString => None
  | String c s' =>
      if Ascii.eqb c delim then Some (EmptyString, s')
      else match cut delim s' with
           | Some (a, b) => Some (String c a, b)
           | None => None
           end
  end.

(** [size_t] arithmetic: [n - 1] wraps to [SIZE_MAX] at zero. *)
Definition SIZE_MAX : N := 2 ^ 64 - 1.
Definition size_pred (n : N) : N := if (n =? 0)%N then SIZE_MAX else (n - 1)%N.
Definition size (s : string) : N := N.of_nat (String.length s).

(** [std::to_string] of an unsigned value: its decimal digits. *)
Fixpoint to_string_digits (fuel : nat) (n : N) (acc : string) : string :=
  match fuel with
  | O => acc
  | S fuel' =>
      let acc' := String (ascii_of_N (48 + n mod 10)) acc in
      if (n / 10 =? 0)%N then acc' else to_string_digits fuel' (n / 10) acc'
  end.
Definition to_string (n : N) : string :=
  to_string_digits (S (N.to_nat (N.log2 n))) n EmptyString.

(** ** [std::istream] over the response [asio::streambuf]

    A stream is the unread bytes of its buffer and its state flags.  The
    buffer has no source of its own: reading past its last byte is end of
    file.  [badbit] is never set by the operations used. *)
Module istream.

Record t : Type := mk { rdbuf : string; eofbit : bool; failbit : bool }.

(** [std::istream s(&buf)]: a new stream over the bytes of [buf]. *)
Definition open (buf : string) : t := mk buf false false.

Definition good (s : t) : bool := negb (eofbit s) && negb (failbit s).

(** [std::istream::sentry]: fails, setting [failbit], on a stream that is
    not good; otherwise skips white space unless [noskipws], and fails with
    [failbit | eofbit] when that reaches the end of the buffer. *)
Definition sentry (noskipws : bool) (s : t) : bool * t :=
  if negb (good s) then (false, mk (rdbuf s) (eofbit s) true)
  else if noskipws then (true, s)
  else
    let rest := snd (span isspace (rdbuf s)) in
    if is_empty rest then (false, mk rest true true)
    else (true, mk rest false false).

(** [s >> str]: after the sentry, [str] is erased and characters are
    extracted up to the next white space, which stays in the buffer;
    reaching the end of the buffer sets [eofbit]; [failbit] when nothing
    was extracted.  With a failed sentry [str] keeps its value. *)
Definition extract (str : string) (s : t) : string * t :=
  let (ok, s1) := sentry false s in
  if ok then
    let (tok, rest) := span (fun c => negb (isspace c)) (rdbuf s1) in
    (tok, mk rest (is_empty rest) (is_empty tok))
  else (str, s1).

(** [std::getline(s, str, delim)]: no white space is skipped; [str] is
    erased and characters are extracted up to [delim], which is extracted
    and dropped; reaching the end of the buffer sets [eofbit]; [failbit]
    when nothing at all was extracted.  With a failed sentry [str] keeps
    its value. *)
Definition getline (str : string) (delim : ascii) (s : t) : string * t :=
  let (ok, s1) := sentry true s in
  if ok then
    match cut delim (rdbuf s1) with
    | Some (line, rest) => (line, mk rest false false)
    | None => (rdbuf s1, mk EmptyString true (is_empty (rdbuf s1)))
    end
  else (str, s1).

(** [s.get()], the character discarded: one byte is removed; at the end of
    the buffer [failbit | eofbit] are set instead. *)
Definition get (s : t) : t :=
  let (ok, s1) := sentry true s in
  if ok then
    match rdbuf s1 with
    | EmptyString => mk EmptyString true true
    | String _ rest => mk rest false false
    end
  else s1.

End istream.

(** ** [std::stoul]

    [std::stoul(str)] is [strtoul] in base 10 with the two failures turned
    into exceptions: white space is skipped, one sign is accepted, the
    longest run of digits is converted; no digit is [std::invalid_argument],
    a magnitude above [ULONG_MAX] is [std::out_of_range] (both are
    [std::logic_error]); a minus sign negates the value in [unsigned long].
    [unsigned long] has 64 bits (LP64). *)
Module stoul.

Inductive result : Type :=
| value (v : N)
| invalid_argument
| out_of_range.

Definition ULONG_MAX : N := 2 ^ 64 - 1.

Definition digit_value (c : ascii) : N := (N_of_ascii c - 48)%N.

Fixpoint digits (s : string) (acc : N) : N :=
  match s with
  | EmptyString => acc
  | String c s' => digits s' (10 * acc + digit_value c)%N
  end.

Definition unsigned_digits (negative : bool) (s : string) : result :=
  let ds := fst (span isdigit s) in
  if is_empty ds then invalid_argument
  else
    let v := digits ds 0 in
    if (ULONG_MAX <? v)%N then out_of_range
    else value (if negative then ((2 ^ 64 - v) mod 2 ^ 64)%N else v).

Definition stoul (str : string) : result :=
  match snd (span isspace str) with
  | String "-"%char s => unsigned_digits true s
  | String "+"%char s => unsigned_digits false s
  | s => unsigned_digits false s
  end.

Definition throws (r : result) : bool :=
  match r with value _ => false | _ => true end.

End stoul.

(** Conversion of [unsigned long] to [unsigned int] (32 bits). *)
Definition to_unsigned_int (v : N) : N := (v mod 2 ^ 32)%N.

(** ** [boost::system::error_code] and the [http_errors] category *)

Inductive error_category : Type :=
| system_category          (* errno values, asio::error::basic_errors *)
| netdb_category           (* asio::error::netdb_errors, from the resolver *)
| addrinfo_category        (* asio::error::addrinfo_errors *)
| misc_category            (* asio::error::misc_errors *)
| http_errors_category.    (* http_errors::http_errors_category *)

Definition error_category_eqb (a b : error_category) : bool :=
  match a, b with
  | system_category, system_category
  | netdb_category, netdb_category
  | addrinfo_category, addrinfo_category
  | misc_category, misc_category
  | http_errors_category, http_errors_category => true
  | _, _ => false
  end.

Record error_code : Type := mk_error_code { value : Z; category : error_category }.

(** [ec == other]: same value in the same category. *)
Definition error_code_eqb (a b : error_code) : bool :=
  (value a =? value b)%Z && error_category_eqb (category a) (category b).

(** [boost::system::error_code()]: no error. *)
Definition no_error : error_code := mk_error_code 0 system_category.

Module asio_error.
(** [asio::error::operation_aborted] is [ECANCELED] (125) of the system
    category; [asio::error::eof] is 2 of the misc category. *)
Definition operation_aborted : error_code := mk_error_code 125 system_category.
Definition eof : error_code := mk_error_code 2 misc_category.
End asio_error.

Module http_errors.

Inductive http_error_codes : Type := invalid_response.

Definition code_of (e : http_error_codes) : Z :=
  match e with invalid_response => 1 end.

Definition name : string := "http_errors".

Definition message (e : Z) : string :=
  if (e =? code_of invalid_response)%Z then "Server response cannot be parsed."
  else "Unknown error.".

Definition make_error_code (e : http_error_codes) : error_code :=
  mk_error_code (code_of e) http_errors_category.

End http_errors.


(** ** [HTTPResponse] *)

Module StringMap := FMapList.Make String_as_OT.
Module StringMapFacts := FMapFacts.Facts StringMap.
Module StringMapProps := FMapFacts.OrdProperties StringMap.

Record HTTPResponse : Type := mk_HTTPResponse {
  m_status_code : N;
  m_status_message : string;
  m_headers : StringMap.t string;
  m_response_buf : string
}.

(** The constructor does not initialise [m_status_code]: it starts with an
    indeterminate value. *)
Definition HTTPResponse_new (indeterminate : N) : HTTPResponse :=
  mk_HTTPResponse indeterminate "" (StringMap.empty string) "".

Definition get_status_code (resp : HTTPResponse) : N := m_status_code resp.
Definition get_status_message (resp : HTTPResponse) : string := m_status_message resp.
Definition get_headers (resp : HTTPResponse) : StringMap.t string := m_headers resp.
(** [get_response()] is the stream over the response buffer: what can be
    read from it are the bytes of the buffer. *)
Definition get_response (resp : HTTPResponse) : string := m_response_buf resp.

Definition set_status_code (status_code : N) (resp : HTTPResponse) : HTTPResponse :=
  mk_HTTPResponse status_code (m_status_message resp) (m_headers resp) (m_response_buf resp).

Definition set_status_message (status_message : string) (resp : HTTPResponse) : HTTPResponse :=
  mk_HTTPResponse (m_status_code resp) status_message (m_headers resp) (m_response_buf resp).

(** [m_headers[name] = value]. *)
Definition add_header (name value : string) (resp : HTTPResponse) : HTTPResponse :=
  mk_HTTPResponse (m_status_code resp) (m_status_message resp)
    (StringMap.add name value (m_headers resp)) (m_response_buf resp).

Definition set_response_buf (buf : string) (resp : HTTPResponse) : HTTPResponse :=
  mk_HTTPResponse (m_status_code resp) (m_status_message resp) (m_headers resp) buf.

(** ** [HTTPRequest] *)

(** A [Callback] is a function pointer, known by its address; [None] is
    [nullptr]. *)
Definition Callback : Type := nat.

Record HTTPRequest : Type := mk_HTTPRequest {
  m_host : string;
  m_port : N;
  m_uri : string;
  m_id : N;
  m_callback : option Callback;
  m_request_buf : string;
  m_response : HTTPResponse;
  m_was_cancelled : bool;
  m_cancel_mux : bool;                  (* is the mutex held? *)
  m_sock_is_open : bool                 (* m_sock.is_open() *)
}.

Definition DEFAULT_PORT : N := 80.

Definition HTTPRequest_new (id : N) (indeterminate : N) : HTTPRequest :=
  mk_HTTPRequest "" DEFAULT_PORT "" id None "" (HTTPResponse_new indeterminate)
    false false false.

Definition set_host (host : string) (r : HTTPRequest) : HTTPRequest :=
  mk_HTTPRequest host (m_port r) (m_uri r) (m_id r) (m_callback r) (m_request_buf r)
    (m_response r) (m_was_cancelled r) (m_cancel_mux r) (m_sock_is_open r).
Definition set_port (port : N) (r : HTTPRequest) : HTTPRequest :=
  mk_HTTPRequest (m_host r) port (m_uri r) (m_id r) (m_callback r) (m_request_buf r)
    (m_response r) (m_was_cancelled r) (m_cancel_mux r) (m_sock_is_open r).
Definition set_uri (uri : string) (r : HTTPRequest) : HTTPRequest :=
  mk_HTTPRequest (m_host r) (m_port r) uri (m_id r) (m_callback r) (m_request_buf r)
    (m_response r) (m_was_cancelled r) (m_cancel_mux r) (m_sock_is_open r).
Definition set_callback (callback : option Callback) (r : HTTPRequest) : HTTPRequest :=
  mk_HTTPRequest (m_host r) (m_port r) (m_uri r) (m_id r) callback (m_request_buf r)
    (m_response r) (m_was_cancelled r) (m_cancel_mux r) (m_sock_is_open r).

Definition get_host (r : HTTPRequest) : string := m_host r.
Definition get_port (r : HTTPRequest) : N := m_port r.
Definition get_uri (r : HTTPRequest) : string := m_uri r.
Definition get_id (r : HTTPRequest) : N := m_id r.

(** Assignments to the private members. *)
Definition with_request_buf (buf : string) (r : HTTPRequest) : HTTPRequest :=
  mk_HTTPRequest (m_host r) (m_port r) (m_uri r) (m_id r) (m_callback r) buf
    (m_response r) (m_was_cancelled r) (m_cancel_mux r) (m_sock_is_open r).
Definition with_response (resp : HTTPResponse) (r : HTTPRequest) : HTTPRequest :=
  mk_HTTPRequest (m_host r) (m_port r) (m_uri r) (m_id r) (m_callback r) (m_request_buf r)
    resp (m_was_cancelled r) (m_cancel_mux r) (m_sock_is_open r).
Definition with_was_cancelled (b : bool) (r : HTTPRequest) : HTTPRequest :=
  mk_HTTPRequest (m_host r) (m_port r) (m_uri r) (m_id r) (m_callback r) (m_request_buf r)
    (m_response r) b (m_cancel_mux r) (m_sock_is_open r).
Definition with_cancel_mux (held : bool) (r : HTTPRequest) : HTTPRequest :=
  mk_HTTPRequest (m_host r) (m_port r) (m_uri r) (m_id r) (m_callback r) (m_request_buf r)
    (m_response r) (m_was_cancelled r) held (m_sock_is_open r).
Definition with_sock_is_open (b : bool) (r : HTTPRequest) : HTTPRequest :=
  mk_HTTPRequest (m_host r) (m_port r) (m_uri r) (m_id r) (m_callback r) (m_request_buf r)
    (m_response r) (m_was_cancelled r) (m_cancel_mux r) b.

(** ** What a member function does to the outside

    The completion handler an asynchronous operation is started with: each
    lambda of the source calls one member function. *)
Inductive handler : Type :=
| host_name_resolved
| connection_established
| request_sent
| status_line_received
| headers_received
| response_body_received.

(** The asynchronous operations, each with its completion handler. *)
Inductive operation : Type :=
| async_resolve (host service : string) (h : handler)   (* m_resolver.async_resolve *)
| async_connect (h : handler)                           (* asio::async_connect on m_sock *)
| async_write (data : string) (h : handler)             (* asio::async_write on m_sock *)
| async_read_until (delim : string) (h : handler)       (* asio::async_read_until on m_sock *)
| async_read (h : handler).                             (* asio::async_read on m_sock *)

Inductive event : Type :=
| start (op : operation)                                (* an operation handed to the reactor *)
| sock_shutdown_send                                    (* m_sock.shutdown(shutdown_send) *)
| resolver_cancel                                       (* m_resolver.cancel() *)
| sock_cancel                                           (* m_sock.cancel() *)
| cout_error (ec : error_code)                          (* the report of on_finish *)
| callback (f : Callback) (request : HTTPRequest)
           (response : HTTPResponse) (ec : error_code). (* the call of m_callback *)

(** The ways a member function does not return normally. *)
Inductive fault : Type :=
| assertion_failed        (* assert() aborts the process *)
| never_returns           (* a loop that does not end *)
| null_callback           (* a call through a null m_callback *)
| mutex_misuse            (* locking a held mutex, or touching the flag without it *)
| system_error.           (* an exception leaves the handler *)

Inductive outcome (A : Type) : Type :=
| Returns (a : A) (r : HTTPRequest) (out : list event)
| Stuck (why : fault) (out : list event).
Arguments Returns {A} a r out.
Arguments Stuck {A} why out.

(** Member functions: the object before, the result, the object after and
    the events in program order. *)
Definition M (A : Type) : Type := HTTPRequest -> outcome A.

Definition ret {A} (a : A) : M A := fun r => Returns a r [].

Definition bind {A B} (c : M A) (k : A -> M B) : M B :=
  fun r =>
    match c r with
    | Returns a r1 out1 =>
        match k a r1 with
        | Returns b r2 out2 => Returns b r2 (out1 ++ out2)
        | Stuck why out2 => Stuck why (out1 ++ out2)
        end
    | Stuck why out1 => Stuck why out1
    end.

Declare Scope member_scope.
Delimit Scope member_scope with member.
Notation "x <- c ;; k" := (bind c (fun x => k))
  (at level 61, c at next level, right associativity) : member_scope.
Notation "c ;; k" := (bind c (fun _ => k))
  (at level 61, right associativity) : member_scope.
Local Open Scope member_scope.

Definition this : M HTTPRequest := fun r => Returns r r [].
Definition assign (f : HTTPRequest -> HTTPRequest) : M unit := fun r => Returns tt (f r) [].
Definition emit (e : event) : M unit := fun r => Returns tt r [e].
Definition stuck {A} (why : fault) : M A := fun _ => Stuck why [].

(** [assert(cond)]. *)
Definition assert (cond : HTTPRequest -> bool) : M unit :=
  fun r => if cond r then Returns tt r [] else Stuck assertion_failed [].

(** [std::unique_lock<std::mutex> cancel_lock(m_cancel_mux)], and its
    release, by [unlock()] or at the end of the scope. *)
Definition lock_cancel_mux : M unit :=
  fun r => if m_cancel_mux r then Stuck mutex_misuse []
           else Returns tt (with_cancel_mux true r) [].
Definition unlock_cancel_mux : M unit := assign (with_cancel_mux false).

(** Reading and writing [m_was_cancelled], which the mutex guards. *)
Definition read_was_cancelled : M bool :=
  fun r => if m_cancel_mux r then Returns (m_was_cancelled r) r []
           else Stuck mutex_misuse [].
Definition write_was_cancelled (b : bool) : M unit :=
  fun r => if m_cancel_mux r then Returns tt (with_was_cancelled b r) []
           else Stuck mutex_misuse [].

(** [m_sock.shutdown(shutdown_send)], the overload that throws: on a socket
    that is not open it fails with a bad descriptor. *)
Definition shutdown_send : M unit :=
  fun r => if m_sock_is_open r then Returns tt r [sock_shutdown_send]
           else Stuck system_error [].

(** ** The member functions of [HTTPRequest]

    The handlers ignore their second argument (the resolver iterator, the
    number of bytes transferred): it is left out. *)

(** [on_finish]: the report of a non-zero error on [std::cout], then the
    callback. *)
Definition on_finish (ec : error_code) : M unit :=
  (if negb (value ec =? 0)%Z then emit (cout_error ec) else ret tt) ;;
  r <- this ;;
  match m_callback r with
  | Some f => emit (callback f r (m_response r) ec)
  | None => stuck null_callback
  end.

(** The block every step ends with:
    lock; if [m_was_cancelled], unlock and finish with [operation_aborted];
    otherwise start the next operation, the lock being released when the
    function returns. *)
Definition start_unless_cancelled (op : operation) : M unit :=
  lock_cancel_mux ;;
  cancelled <- read_was_cancelled ;;
  if cancelled then
    unlock_cancel_mux ;;
    on_finish asio_error.operation_aborted
  else
    emit (start op) ;;
    unlock_cancel_mux.

Definition execute : M unit :=
  assert (fun r => (0 <? m_port r)%N) ;;
  assert (fun r => (0 <? size (m_host r))%N) ;;
  assert (fun r => (0 <? size (m_uri r))%N) ;;
  assert (fun r => match m_callback r with Some _ => true | None => false end) ;;
  r <- this ;;
  let resolver_query := (m_host r, to_string (m_port r)) in
  start_unless_cancelled
    (async_resolve (fst resolver_query) (snd resolver_query) host_name_resolved).

Definition cancel : M unit :=
  lock_cancel_mux ;;
  write_was_cancelled true ;;
  emit resolver_cancel ;;
  r <- this ;;
  (if m_sock_is_open r then emit sock_cancel else ret tt) ;;
  unlock_cancel_mux.

(** [asio::async_connect(m_sock, iterator, handler)]: the initiating call
    opens the socket for the first endpoint before it hands the connection
    to the reactor, so [m_sock.is_open()] holds from this call on. *)
Definition async_connect_call (h : handler) : M unit :=
  assign (with_sock_is_open true) ;;
  emit (start (async_connect h)).

Definition on_host_name_resolved (ec : error_code) : M unit :=
  if negb (value ec =? 0)%Z then on_finish ec
  else
    lock_cancel_mux ;;
    cancelled <- read_was_cancelled ;;
    if cancelled then
      unlock_cancel_mux ;;
      on_finish asio_error.operation_aborted
    else
      async_connect_call connection_established ;;
      unlock_cancel_mux.

Definition append_request_buf (s : string) : M unit :=
  assign (fun r => with_request_buf (m_request_buf r ++ s) r).

Definition on_connection_established (ec : error_code) : M unit :=
  if negb (value ec =? 0)%Z then on_finish ec
  else
    r <- this ;;
    append_request_buf ("GET " ++ m_uri r ++ " HTTP/1.1" ++ CRLF) ;;
    append_request_buf ("Host: " ++ m_host r ++ CRLF) ;;
    append_request_buf CRLF ;;
    r <- this ;;
    start_unless_cancelled (async_write (m_request_buf r) request_sent).

Definition on_request_sent (ec : error_code) : M unit :=
  if negb (value ec =? 0)%Z then on_finish ec
  else
    shutdown_send ;;
    start_unless_cancelled (async_read_until CRLF status_line_received).

(** A stream over the response buffer reads it in place: [consumed s]
    leaves in [m_response_buf] what the stream [s] has not read. *)
Definition consumed (s : istream.t) : M unit :=
  assign (fun r => with_response (set_response_buf (istream.rdbuf s) (m_response r)) r).

Definition on_status_line_received (ec : error_code) : M unit :=
  if negb (value ec =? 0)%Z then on_finish ec
  else
    r <- this ;;
    let response_stream := istream.open (m_response_buf (m_response r)) in
    let (http_version, response_stream) := istream.extract "" response_stream in
    consumed response_stream ;;
    if negb (http_version =? "HTTP/1.1")%string then
      on_finish (http_errors.make_error_code http_errors.invalid_response)
    else
      let (str_status_code, response_stream) := istream.extract "" response_stream in
      consumed response_stream ;;
      match stoul.stoul str_status_code with
      | stoul.value v =>
          let status_code := to_unsigned_int v in
          let (status_message, response_stream) :=
            istream.getline "" CR response_stream in
          let response_stream := istream.get response_stream in
          consumed response_stream ;;
          assign (fun r => with_response (set_status_code status_code (m_response r)) r) ;;
          assign (fun r => with_response (set_status_message status_message (m_response r)) r) ;;
          start_unless_cancelled (async_read_until CRLFCRLF headers_received)
      | _ =>
          on_finish (http_errors.make_error_code http_errors.invalid_response)
      end.

(** One turn of the [while (true)] of [on_headers_received]: [None] is the
    [break], otherwise the stream, [header] and the response after it. *)
Definition headers_loop_body (response_stream : istream.t) (header : string)
    (resp : HTTPResponse) : istream.t * option string * HTTPResponse :=
  let (header, response_stream) := istream.getline header CR response_stream in
  let response_stream := istream.get response_stream in
  if (header =? "")%string then (response_stream, None, resp)
  else
    match find ":"%char header with
    | Some separator_pos =>
        let header_name := substr header 0 separator_pos in
        let header_value :=
          if (N.of_nat separator_pos <? size_pred (size header))%N
          then substr_from header (separator_pos + 1)
          else "" in
        (response_stream, Some header, add_header header_name header_value resp)
    | None => (response_stream, Some header, resp)
    end.

(** The loop, run for at most [turns] turns: [None] when it has not reached
    its [break] by then. *)
Fixpoint headers_loop (turns : nat) (response_stream : istream.t) (header : string)
    (resp : HTTPResponse) : option (istream.t * HTTPResponse) :=
  match turns with
  | O => None
  | S turns' =>
      match headers_loop_body response_stream header resp with
      | (response_stream', None, resp') => Some (response_stream', resp')
      | (response_stream', Some header', resp') =>
          headers_loop turns' response_stream' header' resp'
      end
  end.

(** A loop over a buffer of [n] bytes that has not ended after [n + 2]
    turns never ends ([headers_loop_never_ends]). *)
Definition enough_turns (buf : string) : nat := S (S (String.length buf)).

Definition on_headers_received (ec : error_code) : M unit :=
  if negb (value ec =? 0)%Z then on_finish ec
  else
    r <- this ;;
    let buf := m_response_buf (m_response r) in
    match headers_loop (enough_turns buf) (istream.open buf) "" (m_response r) with
    | None => stuck never_returns
    | Some (response_stream, resp) =>
        assign (with_response resp) ;;
        consumed response_stream ;;
        start_unless_cancelled (async_read response_body_received)
    end.

Definition on_response_body_received (ec : error_code) : M unit :=
  if error_code_eqb ec asio_error.eof then on_finish no_error
  else on_finish ec.

(** ** [HTTPClient] *)

Module HTTPClient.
(** [create_request(id)]: a new request on the client's [io_service]. *)
Definition create_request (id : N) (indeterminate : N) : HTTPRequest :=
  HTTPRequest_new id indeterminate.
End HTTPClient.

(** ** The reactor and a server that answers and closes

    The [io_service] is outside the program.  What follows is the contract
    of the five operations against a peer that resolves, accepts the
    connection, takes the request, sends [incoming] and closes:
    - [async_read_until] completes at once when the buffer already holds the
      delimiter; otherwise it reads until the buffer holds it, and what it
      has read may go beyond the delimiter, here by [overread] bytes more
      than needed; a peer that closes first gives [asio::error::eof];
    - [async_read] reads until the peer closes and reports
      [asio::error::eof]. *)

Record network : Type := mk_network {
  incoming : string;          (* what the server has still to send *)
  overread : list nat;        (* one amount for each read that waits for data *)
  outgoing : string           (* what the client has written *)
}.

(** The least number of bytes of [incoming] after which [buf] holds
    [delim]. *)
Fixpoint bytes_needed (delim buf incoming : string) : option nat :=
  if contains delim buf then Some 0
  else
    match incoming with
    | EmptyString => None
    | String c rest =>
        match bytes_needed delim (buf ++ String c EmptyString) rest with
        | Some n => Some (S n)
        | None => None
        end
    end.

Definition read_until (delim buf : string) (net : network)
    : error_code * string * network :=
  match bytes_needed delim buf (incoming net) with
  | Some O => (no_error, buf, net)
  | Some need =>
      let k := need + hd 0 (overread net) in
      (no_error, (buf ++ take k (incoming net))%string,
       mk_network (drop k (incoming net)) (tl (overread net)) (outgoing net))
  | None =>
      (asio_error.eof, (buf ++ incoming net)%string,
       mk_network "" (tl (overread net)) (outgoing net))
  end.

Definition read_all (buf : string) (net : network) : error_code * string * network :=
  (asio_error.eof, (buf ++ incoming net)%string,
   mk_network "" (overread net) (outgoing net)).

(** The lambda given to each operation. *)
Definition invoke (h : handler) (ec : error_code) : M unit :=
  match h with
  | host_name_resolved => on_host_name_resolved ec
  | connection_established => on_connection_established ec
  | request_sent => on_request_sent ec
  | status_line_received => on_status_line_received ec
  | headers_received => on_headers_received ec
  | response_body_received => on_response_body_received ec
  end.

Definition received (buf : string) (r : HTTPRequest) : HTTPRequest :=
  with_response (set_response_buf buf (m_response r)) r.

(** The completion of one operation: the network and the request after it,
    the handler to call and its error code. *)
Definition complete (op : operation) (net : network) (r : HTTPRequest)
    : network * HTTPRequest * handler * error_code :=
  match op with
  | async_resolve _ _ h => (net, r, h, no_error)
  | async_connect h => (net, with_sock_is_open true r, h, no_error)
  | async_write data h =>
      (mk_network (incoming net) (overread net) (outgoing net ++ data), r, h, no_error)
  | async_read_until delim h =>
      let '(ec, buf, net') := read_until delim (m_response_buf (m_response r)) net in
      (net', received buf r, h, ec)
  | async_read h =>
      let '(ec, buf, net') := read_all (m_response_buf (m_response r)) net in
      (net', received buf r, h, ec)
  end.

Fixpoint started (out : list event) : list operation :=
  match out with
  | [] => []
  | start op :: out' => op :: started out'
  | _ :: out' => started out'
  end.

(** The event loop: as long as the last call has started an operation,
    complete it and call its handler; at most [steps] times. *)
Fixpoint run (steps : nat) (net : network) (log : list event) (o : outcome unit)
    : network * outcome unit :=
  match o with
  | Stuck why out => (net, Stuck why (log ++ out))
  | Returns a r out =>
      match steps, started out with
      | S steps', op :: _ =>
          let '(net', r', h, ec) := complete op net r in
          run steps' net' (log ++ out) (invoke h ec r')
      | _, _ => (net, Returns a r (log ++ out))
      end
  end.

(** ** What the outside sees *)

Definition events {A} (o : outcome A) : list event :=
  match o with Returns _ _ out => out | Stuck _ out => out end.

(** The error codes the callback was called with, in order. *)
Fixpoint callback_errors (out : list event) : list error_code :=
  match out with
  | [] => []
  | callback _ _ _ ec :: out' => ec :: callback_errors out'
  | _ :: out' => callback_errors out'
  end.

(** What a callback can read of the response through its accessors: the
    status, the message, the headers in the order of the map's iteration and
    the unread bytes of the body. *)
Record response_view : Type := mk_view {
  view_status_code : N;
  view_status_message : string;
  view_headers : list (string * string);
  view_body : string
}.

Definition view (resp : HTTPResponse) : response_view :=
  mk_view (get_status_code resp) (get_status_message resp)
    (StringMap.elements (get_headers resp)) (get_response resp).

Fixpoint callback_calls (out : list event) : list (response_view * error_code) :=
  match out with
  | [] => []
  | callback _ _ resp ec :: out' => (view resp, ec) :: callback_calls out'
  | _ :: out' => callback_calls out'
  end.

(** ** The scenarios of the specification *)

Definition configured (id indeterminate : N) (host : string) (port : N) (uri : string)
    (f : Callback) : HTTPRequest :=
  set_callback (Some f) (set_port port (set_uri uri (set_host host
    (HTTPClient.create_request id indeterminate)))).

Definition reply_200_hello : string :=
  "HTTP/1.1 200 OK" ++ CRLF ++ "Content-Length: 5" ++ CRLF ++ CRLF ++ "hello".

Definition reply_200_no_body : string :=
  "HTTP/1.1 200 OK" ++ CRLF ++ "Content-Type: text/html" ++ CRLF ++ CRLF.

Definition round_trip (r : HTTPRequest) (reply : string) (overread : list nat)
    : network * outcome unit :=
  run 6 (mk_network reply overread "") [] (execute r).

(** ** Vocabulary of the statements *)

(** A request between two calls of its member functions: the callback is
    set and nobody holds the mutex. *)
Definition ready (f : Callback) (r : HTTPRequest) : Prop :=
  m_callback r = Some f /\ m_cancel_mux r = false.

(** The preconditions of [execute]. *)
Definition preconditions (r : HTTPRequest) : Prop :=
  (0 < m_port r)%N /\ m_host r <> "" /\ m_uri r <> "" /\ m_callback r <> None.

(** What [on_finish ec] does on request [r] with callback [f]. *)
Definition finish_events (f : Callback) (r : HTTPRequest) (ec : error_code) : list event :=
  (if negb (value ec =? 0)%Z then [cout_error ec] else []) ++
  [callback f r (m_response r) ec].

(** The call returns, has started no operation and has called the callback
    exactly once, with [ec]. *)
Definition finishes_with (ec : error_code) (o : outcome unit) : Prop :=
  exists r' out,
    o = Returns tt r' out /\ started out = [] /\ callback_errors out = [ec].

(** The white-space separated words of a text, in order: the tokens of the
    status line as the specification counts them. *)
Fixpoint words_from (current : string) (s : string) : list string :=
  match s with
  | EmptyString => if is_empty current then [] else [current]
  | String c s' =>
      if isspace c then
        if is_empty current then words_from "" s'
        else current :: words_from "" s'
      else words_from (current ++ String c "") s'
  end.
Definition words (s : string) : list string := words_from "" s.

(** The first and second word, [""] standing for a missing one. *)
Definition word (i : nat) (s : string) : string := nth i (words s) "".






(** A header line: not empty, and without a carriage return. *)
Definition is_header_line (line : string) : bool :=
  negb (is_empty line) &&
  match find CR line with Some _ => false | None => true end.

(** A header block: the lines, each ended by CR LF, and the empty line. *)
Fixpoint header_block (lines : list string) : string :=
  match lines with
  | [] => CRLF
  | line :: lines' => line ++ CRLF ++ header_block lines'
  end.

(** The specification's reading of a header line: split at its first
    colon, the name is what comes before it and the value what comes after
    it; [None] for a line without colon. *)
Definition split_header (line : string) : option (string * string) := cut ":"%char line.

Definition header_name (line : string) : option string :=
  match split_header line with Some (name, _) => Some name | None => None end.

(** The lines recorded one after the other, a line without colon skipped. *)
Definition record_line (resp : HTTPResponse) (line : string) : HTTPResponse :=
  match split_header line with
  | Some (name, value) => add_header name value resp
  | None => resp
  end.
Definition record_lines (lines : list string) (resp : HTTPResponse) : HTTPResponse :=
  fold_left record_line lines resp.

(** The value of the last of the lines named [name]. *)
Fixpoint last_value (name : string) (lines : list string) : option string :=
  match lines with
  | [] => None
  | line :: lines' =>
      match last_value name lines' with
      | Some v => Some v
      | None =>
          match split_header line with
          | Some (n, v) => if (n =? name)%string then Some v else None
          | None => None
          end
      end
  end.

(** The names of the lines that have one. *)
Fixpoint header_names (lines : list string) : list string :=
  match lines with
  | [] => []
  | line :: lines' =>
      match header_name line with
      | Some n => n :: header_names lines'
      | None => header_names lines'
      end
  end.

Definition returned {A} (o : outcome A) : bool :=
  match o with Returns _ _ _ => true | Stuck _ _ => false end.

(** The request message for [host] and [uri]. *)
Definition request_message (host uri : string) : string :=
  "GET " ++ uri ++ " HTTP/1.1" ++ CRLF ++ "Host: " ++ host ++ CRLF ++ CRLF.

(** What [get_headers] shows after the header step, when it returns. *)
Definition headers_after (ec : error_code) (r : HTTPRequest)
    : option (list (string * string)) :=
  match on_headers_received ec r with
  | Returns _ r' _ => Some (StringMap.elements (get_headers (m_response r')))
  | Stuck _ _ => None
  end.

(** The requests and header lines of the examples. *)
Definition example_request : HTTPRequest :=
  configured 1 0 "example.test" 80 "/" 7.
Definition cancelled_example : HTTPRequest := with_was_cancelled true example_request.
Definition two_custom_lines : list string := ["X-Custom: a"; "X-Custom: b"].
Definition three_lines : list string := ["Server: x"; "malformed"; "Empty:"].
Definition lines_B_then_A : list string := ["B: 1"; "A: 2"].
Definition lines_A_then_B : list string := ["A: 2"; "B: 1"].

Definition nonspace (c : ascii) : bool := negb (isspace c).

Definition invalid_response_error : error_code :=
  http_errors.make_error_code http_errors.invalid_response.

(** Case analysis on the amounts read beyond a delimiter.  A reply of fewer
    than 44 bytes is read whole by any amount above 43: the first 44 values
    of an amount stand for all of them. *)
Ltac settle := vm_compute; repeat split; reflexivity.
Ltac each_amount e tac := do 44 (destruct e as [|e]; [tac|]); tac.
Ltac each_overread os tac :=
  let e := fresh "amount" in
  destruct os as [|e os]; [settle | each_amount e tac].

(** ** Vocabulary of the pipeline properties *)

(** The handler each operation is started with. *)
Definition handler_of (op : operation) : handler :=
  match op with
  | async_resolve _ _ h => h
  | async_connect h => h
  | async_write _ h => h
  | async_read_until _ h => h
  | async_read h => h
  end.

(** The handler of the step that follows, in the order of the source. *)
Definition next_handler (h : handler) : option handler :=
  match h with
  | host_name_resolved => Some connection_established
  | connection_established => Some request_sent
  | request_sent => Some status_line_received
  | status_line_received => Some headers_received
  | headers_received => Some response_body_received
  | response_body_received => None
  end.

(** How many completions are still to come when [h] is called. *)
Definition steps_left (h : handler) : nat :=
  match h with
  | host_name_resolved => 5
  | connection_established => 4
  | request_sent => 3
  | status_line_received => 2
  | headers_received => 1
  | response_body_received => 0
  end.

(** The handlers that run on a connected socket. *)
Definition after_connect (h : handler) : bool :=
  match h with host_name_resolved => false | _ => true end.

(** What no member function but the setters and [cancel] touches; and the
    socket, which stays open once it is. *)
Definition same_configuration (r r' : HTTPRequest) : Prop :=
  m_host r' = m_host r /\ m_port r' = m_port r /\ m_uri r' = m_uri r /\
  m_id r' = m_id r /\ m_callback r' = m_callback r /\
  m_was_cancelled r' = m_was_cancelled r /\
  (m_sock_is_open r = true -> m_sock_is_open r' = true).

(** The one call that opens the socket: the resolve handler, when it starts
    the connection. *)
Definition opens_socket (h : handler) (out : list event) : bool :=
  match h, started out with
  | host_name_resolved, _ :: _ => true
  | _, _ => false
  end.

(** The operation each handler is the completion of. *)
Definition completes (h : handler) (op : operation) : Prop :=
  match h, op with
  | host_name_resolved, async_resolve _ _ h' => h' = h
  | connection_established, async_connect h' => h' = h
  | request_sent, async_write _ h' => h' = h
  | status_line_received, async_read_until delim h' => h' = h /\ delim = CRLF
  | headers_received, async_read_until delim h' => h' = h /\ delim = CRLFCRLF
  | response_body_received, async_read h' => h' = h
  | _, _ => False
  end.

(** The events of a call that goes on: one operation started, the one
    handler [h] completes, and no callback. *)
Definition goes_on_to (h : handler) (out : list event) : Prop :=
  exists op, started out = [op] /\ completes h op /\ callback_errors out = [].

(** The events of a call that finishes request [r'] for callback [f]: no
    operation started, and one call of the callback, on [r'] and its
    response. *)
Definition finishes (f : Callback) (r' : HTTPRequest) (out : list event) : Prop :=
  started out = [] /\
  exists ec, callback_errors out = [ec] /\ In (callback f r' (m_response r') ec) out.

(** A header map that has every name of another. *)
Definition keeps_names (before after : StringMap.t string) : Prop :=
  forall name, StringMap.In name before -> StringMap.In name after.

Definition all_digits (s : string) : bool :=
  negb (is_empty s) && is_empty (snd (span isdigit s)).

(** A text that ends a word: empty, or begun by white space. *)
Definition ends_word (s : string) : bool :=
  match s with
  | EmptyString => true
  | String c _ => isspace c
  end.

Definition no_CR (s : string) : bool :=
  match find CR s with Some _ => false | None => true end.

(** A status line: HTTP/1.1, a space, the digits of the code and the rest of
    the line, which has no carriage return. *)
Definition status_line (code rest_of_line : string) : string :=
  "HTTP/1.1 " ++ code ++ rest_of_line ++ CRLF.

(** The header map after the lines: each line with a colon assigned in
    turn. *)
Definition header_map (lines : list string) (m : StringMap.t string) : StringMap.t string :=
  fold_left
    (fun m line =>
       match split_header line with
       | Some (name, value) => StringMap.add name value m
       | None => m
       end)
    lines m.

(** What the response and the stream keep through the turns of the loop. *)
Definition loop_keeps (s : istream.t) (resp : HTTPResponse) (s' : istream.t)
    (resp' : HTTPResponse) : Prop :=
  m_status_code resp' = m_status_code resp /\
  m_status_message resp' = m_status_message resp /\
  m_response_buf resp' = m_response_buf resp /\
  keeps_names (m_headers resp) (m_headers resp') /\
  exists consumed, istream.rdbuf s = (consumed ++ istream.rdbuf s')%string.

(** The bytes of a line [name] ended by a carriage return alone, and the
    empty line. *)
Definition bare_CR_block (name : string) : string := name ++ String CR CRLFCRLF.

(** ** Standard output and the callback of the demonstration

    [std::cout] as the text written to it and its [failbit].  Every
    insertion begins with a sentry, which fails on a stream that is not
    good: nothing is then written.  [os << sb], for a stream buffer [sb],
    moves the characters of [sb] to the stream and sets [failbit] when there
    was none to move. *)
Module ostream.

Record t : Type := mk { written : string; failbit : bool }.

Definition good (os : t) : bool := negb (failbit os).

(** [os << text], and [os << n] with [text] the digits of [n]. *)
Definition insert (text : string) (os : t) : t :=
  if good os then mk (written os ++ text) false else os.

(** [os << sb]: the stream, and what is left in the buffer. *)
Definition insert_streambuf (sb : string) (os : t) : t * string :=
  if good os then
    if is_empty sb then (mk (written os) true, sb)
    else (mk (written os ++ sb) false, EmptyString)
  else (os, sb).

(** [os << std::endl]. *)
Definition endl (os : t) : t := insert (String LF EmptyString) os.

End ostream.

(** The digits of an [int]. *)
Definition to_string_int (v : Z) : string :=
  if (v <? 0)%Z then "-" ++ to_string (Z.to_N (- v)) else to_string (Z.to_N v).

(** [ec.message()]: the message of the category of [ec] for its value;
    [library] gives the messages of the categories of Boost. *)
Definition message_of (library : error_code -> string) (ec : error_code) : string :=
  match category ec with
  | http_errors_category => http_errors.message (value ec)
  | _ => library ec
  end.

(** What [on_finish] writes for a non-zero error code. *)
Definition on_finish_report (library : error_code -> string) (ec : error_code)
    (cout : ostream.t) : ostream.t :=
  let cout := ostream.insert ("Error occured." ++ String LF "Error code: ") cout in
  let cout := ostream.insert (to_string_int (value ec)) cout in
  let cout := ostream.insert (String LF "Message: ") cout in
  let cout := ostream.insert (message_of library ec) cout in
  ostream.endl cout.

Module Demo.

(** [handler], the callback [main] gives to its request: the stream after
    the call, and the response, whose buffer the first branch empties. *)
Definition handler (library : error_code -> string) (request : HTTPRequest)
    (response : HTTPResponse) (ec : error_code) (cout : ostream.t)
    : ostream.t * HTTPResponse :=
  if (value ec =? 0)%Z then
    let cout := ostream.insert "Request #" cout in
    let cout := ostream.insert (to_string (get_id request)) cout in
    let cout := ostream.insert " has completed. Response: " cout in
    let (cout, rest) := ostream.insert_streambuf (m_response_buf response) cout in
    (cout, set_response_buf rest response)
  else if error_code_eqb ec asio_error.operation_aborted then
    let cout := ostream.insert "Request #" cout in
    let cout := ostream.insert (to_string (get_id request)) cout in
    let cout := ostream.insert " has been cancelled by the user." cout in
    (ostream.endl cout, response)
  else
    let cout := ostream.insert "Request #" cout in
    let cout := ostream.insert (to_string (get_id request)) cout in
    let cout := ostream.insert "failed. Error code = " cout in
    let cout := ostream.insert (to_string_int (value ec)) cout in
    let cout := ostream.insert ". Error message = " cout in
    let cout := ostream.insert (message_of library ec) cout in
    (ostream.endl cout, response).

End Demo.

(** Standard output after the events of a request whose callback is
    [handler]: the reports of [on_finish] and the calls of the callback, in
    order. *)
Fixpoint console (library : error_code -> string) (out : list event) (cout : ostream.t)
    : ostream.t :=
  match out with
  | [] => cout
  | cout_error ec :: out' => console library out' (on_finish_report library ec cout)
  | callback _ request response ec :: out' =>
      console library out' (fst (Demo.handler library request response ec cout))
  | _ :: out' => console library out' cout
  end.

(** Events that neither write nor call back. *)
Definition quiet (out : list event) : bool :=
  forallb (fun e => match e with cout_error _ | callback _ _ _ _ => false | _ => true end) out.

(** What a request that fails adds to standard output while the stream is
    good. *)
Definition failure_text (library : error_code -> string) (id : N) (ec : error_code) : string :=
  "Error occured." ++ String LF "Error code: " ++ to_string_int (value ec) ++
  String LF "Message: " ++ message_of library ec ++ String LF "Request #" ++ to_string id ++
  (if error_code_eqb ec asio_error.operation_aborted
   then " has been cancelled by the user."
   else "failed. Error code = " ++ to_string_int (value ec) ++
        ". Error message = " ++ message_of library ec) ++
  String LF "".

(** ** Strings *)

Lemma append_empty_r (s : string) : (s ++ "")%string = s.
Proof. induction s; simpl; congruence. Qed.

Lemma append_assoc (a b c : string) : ((a ++ b) ++ c)%string = (a ++ (b ++ c))%string.
Proof. induction a; simpl; congruence. Qed.

Lemma length_append (a b : string) :
  String.length (a ++ b) = String.length a + String.length b.
Proof. induction a; simpl; congruence. Qed.

Lemma drop_0 (s : string) : drop 0 s = s.
Proof. destruct s; reflexivity. Qed.

(** ** The steps, one call at a time *)

Lemma handler_eq_dec (a b : handler) : {a = b} + {a <> b}.
Proof. decide equality. Defined.

Section Steps.

Variable f : Callback.

Lemma unlock_after_lock (r : HTTPRequest) :
  m_cancel_mux r = false -> with_cancel_mux false (with_cancel_mux true r) = r.
Proof. destruct r; simpl; intros ->; reflexivity. Qed.

Lemma on_finish_ready (r : HTTPRequest) (ec : error_code) :
  m_callback r = Some f ->
  on_finish ec r = Returns tt r (finish_events f r ec).
Proof.
  intros Hf. unfold on_finish, finish_events, bind, this, emit, ret.
  destruct (negb (value ec =? 0)%Z); simpl; rewrite Hf; reflexivity.
Qed.

Lemma start_unless_cancelled_ready (r : HTTPRequest) (op : operation) :
  ready f r ->
  start_unless_cancelled op r =
    if m_was_cancelled r
    then Returns tt r (finish_events f r asio_error.operation_aborted)
    else Returns tt r [start op].
Proof.
  intros [Hf Hm].
  unfold start_unless_cancelled, bind, lock_cancel_mux, read_was_cancelled,
    unlock_cancel_mux, assign, emit.
  rewrite Hm; simpl.
  destruct (m_was_cancelled r) eqn:Hc; simpl.
  - rewrite (unlock_after_lock r Hm), (on_finish_ready r _ Hf). reflexivity.
  - rewrite (unlock_after_lock r Hm). reflexivity.
Qed.

Lemma unlock_after_open (r : HTTPRequest) :
  m_cancel_mux r = false ->
  with_cancel_mux false (with_sock_is_open true (with_cancel_mux true r))
  = with_sock_is_open true r.
Proof. destruct r; simpl; intros ->; reflexivity. Qed.

(** The resolve handler after a successful resolution: the call of
    [asio::async_connect] leaves the socket open. *)
Lemma on_host_name_resolved_ready (r : HTTPRequest) (ec : error_code) :
  ready f r -> value ec = 0%Z ->
  on_host_name_resolved ec r =
    if m_was_cancelled r
    then Returns tt r (finish_events f r asio_error.operation_aborted)
    else Returns tt (with_sock_is_open true r)
           [start (async_connect connection_established)].
Proof.
  intros [Hf Hm] Hec. unfold on_host_name_resolved.
  replace (negb (value ec =? 0)%Z) with false by (rewrite Hec; reflexivity).
  unfold bind, lock_cancel_mux, read_was_cancelled, unlock_cancel_mux,
    async_connect_call, assign, emit.
  rewrite Hm; simpl.
  destruct (m_was_cancelled r) eqn:Hc; simpl.
  - rewrite (unlock_after_lock r Hm), (on_finish_ready r _ Hf). reflexivity.
  - rewrite (unlock_after_open r Hm). reflexivity.
Qed.

Lemma ready_with_sock_is_open (r : HTTPRequest) (b : bool) :
  ready f r -> ready f (with_sock_is_open b r).
Proof. intros [? ?]; split; assumption. Qed.

Lemma ready_with_response (r : HTTPRequest) (resp : HTTPResponse) :
  ready f r -> ready f (with_response resp r).
Proof. intros [? ?]; split; assumption. Qed.

Lemma ready_with_request_buf (r : HTTPRequest) (buf : string) :
  ready f r -> ready f (with_request_buf buf r).
Proof. intros [? ?]; split; assumption. Qed.

Lemma finish_events_started (r : HTTPRequest) (ec : error_code) :
  started (finish_events f r ec) = [].
Proof. unfold finish_events. destruct (negb _); reflexivity. Qed.

Lemma finish_events_errors (r : HTTPRequest) (ec : error_code) :
  callback_errors (finish_events f r ec) = [ec].
Proof. unfold finish_events. destruct (negb _); reflexivity. Qed.

Lemma finishes_with_finish_events (r : HTTPRequest) (ec : error_code) :
  finishes_with ec (Returns tt r (finish_events f r ec)).
Proof.
  exists r, (finish_events f r ec).
  auto using finish_events_started, finish_events_errors.
Qed.

Lemma nonzero_test (ec : error_code) :
  value ec <> 0%Z -> negb (value ec =? 0)%Z = true.
Proof. intros H. apply negb_true_iff, Z.eqb_neq, H. Qed.

Lemma zero_test (ec : error_code) :
  value ec = 0%Z -> negb (value ec =? 0)%Z = false.
Proof. intros ->. reflexivity. Qed.

(** A failed completion goes to [on_finish] with the same error code, in
    each of the five handlers that test [ec.value() != 0]. *)
Lemma failed_completion (h : handler) (r : HTTPRequest) (ec : error_code) :
  h <> response_body_received ->
  value ec <> 0%Z ->
  invoke h ec r = on_finish ec r.
Proof.
  intros Hh Hec. apply nonzero_test in Hec.
  destruct h; simpl;
    [ unfold on_host_name_resolved | unfold on_connection_established
    | unfold on_request_sent | unfold on_status_line_received
    | unfold on_headers_received | congruence ];
    rewrite Hec; reflexivity.
Qed.

Lemma eof_test (ec : error_code) :
  error_code_eqb ec asio_error.eof = true <-> ec = asio_error.eof.
Proof.
  destruct ec as [v c]. unfold error_code_eqb, asio_error.eof; simpl. split.
  - intros H. apply andb_true_iff in H as [Hv Hc].
    apply Z.eqb_eq in Hv. destruct c; try discriminate. subst. reflexivity.
  - intros H. injection H as -> ->. reflexivity.
Qed.

End Steps.

Lemma nonempty_size (s : string) : (0 <? size s)%N = true <-> s <> "".
Proof.
  unfold size. destruct s; simpl.
  - split; [discriminate|congruence].
  - split; [discriminate|reflexivity].
Qed.

Lemma execute_asserts (r : HTTPRequest) :
  (0 <? m_port r)%N = true -> (0 <? size (m_host r))%N = true ->
  (0 <? size (m_uri r))%N = true -> m_callback r <> None ->
  execute r =
    start_unless_cancelled
      (async_resolve (m_host r) (to_string (m_port r)) host_name_resolved) r.
Proof.
  intros Hp Hh Hu Hc. unfold execute, bind, assert, this.
  rewrite Hp, Hh, Hu. destruct (m_callback r); [|congruence]. simpl.
  destruct (start_unless_cancelled _ r); reflexivity.
Qed.

Lemma execute_assert_fails (r : HTTPRequest) :
  (0 <? m_port r)%N = false \/ (0 <? size (m_host r))%N = false \/
  (0 <? size (m_uri r))%N = false \/ m_callback r = None ->
  execute r = Stuck assertion_failed [].
Proof.
  intros H. unfold execute, bind, assert.
  destruct (0 <? m_port r)%N; [|reflexivity].
  destruct (0 <? size (m_host r))%N; [|reflexivity].
  destruct (0 <? size (m_uri r))%N; [|reflexivity].
  destruct (m_callback r); [|reflexivity].
  destruct H as [H|[H|[H|H]]]; discriminate.
Qed.

Lemma preconditions_asserts (r : HTTPRequest) :
  preconditions r <->
  (0 <? m_port r)%N = true /\ (0 <? size (m_host r))%N = true /\
  (0 <? size (m_uri r))%N = true /\ m_callback r <> None.
Proof.
  unfold preconditions. rewrite N.ltb_lt, !nonempty_size. tauto.
Qed.

Lemma cancel_ready (r : HTTPRequest) :
  m_cancel_mux r = false ->
  cancel r =
    Returns tt (with_was_cancelled true r)
      (resolver_cancel :: if m_sock_is_open r then [sock_cancel] else []).
Proof.
  intros Hm. unfold cancel, bind, lock_cancel_mux, write_was_cancelled, emit, this,
    unlock_cancel_mux, assign, ret.
  rewrite Hm. simpl.
  destruct r as [h p u i c b resp wc mx so]; simpl in *. subst mx.
  destruct so; reflexivity.
Qed.

Lemma on_connection_established_unfold (r : HTTPRequest) (ec : error_code) :
  value ec = 0%Z ->
  let message :=
    (((m_request_buf r ++ ("GET " ++ m_uri r ++ " HTTP/1.1" ++ CRLF))
        ++ ("Host: " ++ m_host r ++ CRLF)) ++ CRLF)%string in
  on_connection_established ec r =
    start_unless_cancelled (async_write message request_sent)
      (with_request_buf message r).
Proof.
  intros Hec. cbv zeta. unfold on_connection_established.
  rewrite (zero_test ec Hec).
  unfold bind, this, append_request_buf, assign. simpl.
  destruct (start_unless_cancelled _ _); reflexivity.
Qed.

Lemma on_request_sent_unfold (r : HTTPRequest) (ec : error_code) :
  value ec = 0%Z -> m_sock_is_open r = true ->
  on_request_sent ec r =
    match start_unless_cancelled (async_read_until CRLF status_line_received) r with
    | Returns a r' out => Returns a r' (sock_shutdown_send :: out)
    | Stuck why out => Stuck why (sock_shutdown_send :: out)
    end.
Proof.
  intros Hec Hopen. unfold on_request_sent. rewrite (zero_test ec Hec).
  unfold bind, shutdown_send. rewrite Hopen. reflexivity.
Qed.

Lemma on_headers_received_unfold (r : HTTPRequest) (ec : error_code) :
  value ec = 0%Z ->
  let buf := m_response_buf (m_response r) in
  on_headers_received ec r =
    match headers_loop (enough_turns buf) (istream.open buf) "" (m_response r) with
    | None => Stuck never_returns []
    | Some (response_stream, resp) =>
        start_unless_cancelled (async_read response_body_received)
          (with_response (set_response_buf (istream.rdbuf response_stream) resp) r)
    end.
Proof.
  intros Hec. cbv zeta. unfold on_headers_received. rewrite (zero_test ec Hec).
  unfold bind at 1, this at 1.
  destruct (headers_loop _ _ _ _) as [[s resp]|]; [|reflexivity].
  unfold bind, assign, consumed. simpl.
  destruct (start_unless_cancelled _ _); reflexivity.
Qed.


(** ** The status line: [operator>>] reads the words of the buffer *)

Section StatusLine.

Lemma words_from_span (s current : string) :
  words_from current s =
    let (a, b) := span nonspace s in
    if is_empty (current ++ a) then words_from "" b
    else (current ++ a)%string :: words_from "" b.
Proof.
  revert current. induction s as [|c s IH]; intros current; simpl.
  - rewrite append_empty_r. destruct (is_empty current); reflexivity.
  - unfold nonspace at 1. destruct (isspace c) eqn:Hc; simpl.
    + rewrite append_empty_r, Hc. destruct (is_empty current); reflexivity.
    + rewrite IH. destruct (span nonspace s) as [a b].
      rewrite append_assoc. reflexivity.
Qed.

Lemma words_skip_spaces (s : string) :
  words s = words (snd (span isspace s)).
Proof.
  unfold words. induction s as [|c s IH]; simpl; [reflexivity|].
  destruct (isspace c) eqn:Hc.
  - destruct (span isspace s) as [a b]. simpl in *. exact IH.
  - simpl. rewrite Hc. reflexivity.
Qed.

Lemma span_isspace_stops (s : string) (c : ascii) (rest : string) :
  snd (span isspace s) = String c rest -> isspace c = false.
Proof.
  induction s as [|a s IH]; simpl; [discriminate|].
  destruct (isspace a) eqn:Ha.
  - destruct (span isspace s) as [x y]. simpl in *. exact IH.
  - simpl. intros H. injection H as -> _. exact Ha.
Qed.

(** On a good stream [>>] yields the first word of the buffer and leaves
    the other words; without a word it fails and the string keeps its
    value. *)
Lemma extract_good (str : string) (s : istream.t) :
  istream.good s = true ->
  match words (istream.rdbuf s) with
  | [] =>
      fst (istream.extract str s) = str /\
      istream.good (snd (istream.extract str s)) = false
  | w :: ws =>
      fst (istream.extract str s) = w /\
      words (istream.rdbuf (snd (istream.extract str s))) = ws /\
      (istream.good (snd (istream.extract str s)) = false -> ws = [])
  end.
Proof.
  intros Hgood. unfold istream.extract, istream.sentry. rewrite Hgood. simpl.
  rewrite (words_skip_spaces (istream.rdbuf s)).
  destruct (snd (span isspace (istream.rdbuf s))) as [|c rest] eqn:Hskip; simpl.
  - split; reflexivity.
  - pose proof (span_isspace_stops _ _ _ Hskip) as Hc.
    unfold words at 1.
    rewrite (words_from_span (String c rest) ""). simpl.
    fold nonspace. unfold nonspace at 1 3. rewrite Hc. simpl.
    destruct (span nonspace rest) as [a b] eqn:Hspan. simpl.
    repeat split.
    destruct b; simpl; [reflexivity|discriminate].
Qed.

Lemma extract_not_good (str : string) (s : istream.t) :
  istream.good s = false ->
  fst (istream.extract str s) = str /\
  istream.good (snd (istream.extract str s)) = false.
Proof.
  intros Hgood. unfold istream.extract, istream.sentry. rewrite Hgood. simpl.
  split; [reflexivity|]. unfold istream.good. simpl. apply andb_false_r.
Qed.

(** The two extractions of [on_status_line_received] yield the first and
    the second word of the buffer. *)
Lemma status_line_tokens (buf : string) :
  let s1 := snd (istream.extract "" (istream.open buf)) in
  fst (istream.extract "" (istream.open buf)) = word 0 buf /\
  fst (istream.extract "" s1) = word 1 buf.
Proof.
  simpl. unfold word.
  pose proof (extract_good "" (istream.open buf) eq_refl) as H1. simpl in H1.
  destruct (words buf) as [|w ws] eqn:Hw.
  - destruct H1 as [Hv Hbad]. split; [exact Hv|].
    apply (extract_not_good "") in Hbad. apply Hbad.
  - destruct H1 as [Hv [Hws Hbad]]. split; [exact Hv|]. simpl.
    destruct (istream.good (snd (istream.extract "" (istream.open buf)))) eqn:Hg.
    + pose proof (extract_good "" _ Hg) as H2. rewrite Hws in H2.
      destruct ws as [|w2 ws2]; simpl; apply H2.
    + rewrite (Hbad eq_refl). simpl.
      apply (extract_not_good "") in Hg. apply Hg.
Qed.

(** [on_status_line_received] after a successful read, its branches laid
    out: the request after each extraction and the call it ends with. *)
Lemma on_status_line_received_unfold (r : HTTPRequest) (ec : error_code) :
  value ec = 0%Z ->
  let buf := m_response_buf (m_response r) in
  let e1 := istream.extract "" (istream.open buf) in
  let e2 := istream.extract "" (snd e1) in
  let r1 := with_response (set_response_buf (istream.rdbuf (snd e1)) (m_response r)) r in
  let r2 := with_response (set_response_buf (istream.rdbuf (snd e2)) (m_response r1)) r1 in
  on_status_line_received ec r =
    if negb (fst e1 =? "HTTP/1.1")%string then
      on_finish (http_errors.make_error_code http_errors.invalid_response) r1
    else
      match stoul.stoul (fst e2) with
      | stoul.value v =>
          let g := istream.getline "" CR (snd e2) in
          let s3 := istream.get (snd g) in
          start_unless_cancelled (async_read_until CRLFCRLF headers_received)
            (with_response
               (set_status_message (fst g)
                  (set_status_code (to_unsigned_int v)
                     (set_response_buf (istream.rdbuf s3) (m_response r2)))) r2)
      | _ => on_finish (http_errors.make_error_code http_errors.invalid_response) r2
      end.
Proof.
  intros Hec. simpl. unfold on_status_line_received. rewrite (zero_test ec Hec).
  unfold bind at 1. unfold this at 1.
  destruct (istream.extract "" (istream.open (m_response_buf (m_response r)))) as [v s1] eqn:E1.
  simpl fst; simpl snd.
  unfold bind at 1, consumed at 1, assign at 1.
  destruct (negb (v =? "HTTP/1.1")%string) eqn:Hv.
  - destruct (on_finish _ _); reflexivity.
  - destruct (istream.extract "" s1) as [c s2] eqn:E2. simpl fst; simpl snd.
    unfold bind at 1, consumed at 1, assign at 1.
    destruct (stoul.stoul c) eqn:Hc.
    + destruct (istream.getline "" CR s2) as [m s3] eqn:E3. simpl fst; simpl snd.
      unfold bind, consumed, assign. simpl.
      destruct (start_unless_cancelled _ _); reflexivity.
    + destruct (on_finish _ _); reflexivity.
    + destruct (on_finish _ _); reflexivity.
Qed.

End StatusLine.

Section StatusLineCases.

Variable f : Callback.

Lemma status_line_rejected (r : HTTPRequest) (ec : error_code) :
  ready f r -> value ec = 0%Z ->
  word 0 (m_response_buf (m_response r)) <> "HTTP/1.1" \/
  stoul.throws (stoul.stoul (word 1 (m_response_buf (m_response r)))) = true ->
  finishes_with invalid_response_error (on_status_line_received ec r).
Proof.
  intros Hready Hec Hbad.
  rewrite (on_status_line_received_unfold r ec Hec). cbv zeta.
  destruct (status_line_tokens (m_response_buf (m_response r))) as [H0 H1].
  cbv zeta in H1. rewrite H0, H1.
  destruct (word 0 (m_response_buf (m_response r)) =? "HTTP/1.1")%string eqn:Hv; simpl.
  - apply String.eqb_eq in Hv.
    destruct Hbad as [Hbad|Hbad]; [contradiction|].
    destruct (stoul.stoul (word 1 (m_response_buf (m_response r))));
      [discriminate| |];
      (rewrite (on_finish_ready f);
       [apply finishes_with_finish_events | apply Hready]).
  - rewrite (on_finish_ready f); [apply finishes_with_finish_events | apply Hready].
Qed.

Lemma status_line_accepted (r : HTTPRequest) (ec : error_code) (v : N) :
  ready f r -> value ec = 0%Z ->
  word 0 (m_response_buf (m_response r)) = "HTTP/1.1" ->
  stoul.stoul (word 1 (m_response_buf (m_response r))) = stoul.value v ->
  exists r',
    ready f r' /\ m_was_cancelled r' = m_was_cancelled r /\
    get_status_code (m_response r') = to_unsigned_int v /\
    on_status_line_received ec r =
      start_unless_cancelled (async_read_until CRLFCRLF headers_received) r'.
Proof.
  intros Hready Hec Hv Hc.
  rewrite (on_status_line_received_unfold r ec Hec). cbv zeta.
  destruct (status_line_tokens (m_response_buf (m_response r))) as [H0 H1].
  cbv zeta in H1. rewrite H0, H1, Hv, Hc. simpl negb. cbv iota.
  eexists. split; [|split; [|split; [|reflexivity]]].
  - destruct Hready. split; assumption.
  - reflexivity.
  - reflexivity.
Qed.

End StatusLineCases.

(** *** What [std::stoul] refuses *)








(** ** The header block *)

Lemma cut_line (delim : ascii) (line rest : string) :
  find delim line = None ->
  cut delim (line ++ String delim rest) = Some (line, rest).
Proof.
  induction line as [|c line IH]; simpl.
  - rewrite Ascii.eqb_refl. reflexivity.
  - destruct (Ascii.eqb c delim); [discriminate|].
    destruct (find delim line); [discriminate|].
    intros _. rewrite IH; reflexivity.
Qed.

Lemma find_cut (delim : ascii) (s : string) :
  match find delim s with
  | Some p => cut delim s = Some (take p s, drop (S p) s) /\ p < String.length s
  | None => cut delim s = None
  end.
Proof.
  induction s as [|c s IH]; simpl; [reflexivity|].
  destruct (Ascii.eqb c delim).
  - rewrite drop_0. split; [reflexivity|lia].
  - destruct (find delim s) as [p|].
    + destruct IH as [-> Hp]. split; [reflexivity|lia].
    + rewrite IH. reflexivity.
Qed.

Lemma drop_all (s : string) : drop (String.length s) s = "".
Proof. induction s; simpl; congruence. Qed.

(** The test on [separator_pos] changes nothing: the value is what follows
    the colon in both branches. *)
Lemma header_value_guard (header : string) (separator_pos : nat) :
  separator_pos < String.length header ->
  (if (N.of_nat separator_pos <? size_pred (size header))%N
   then substr_from header (separator_pos + 1) else "")
  = drop (S separator_pos) header.
Proof.
  intros Hp. unfold substr_from, size_pred, size.
  destruct (N.of_nat (String.length header) =? 0)%N eqn:H0.
  - apply N.eqb_eq in H0. lia.
  - destruct (N.of_nat separator_pos <? N.of_nat (String.length header) - 1)%N eqn:Hlt.
    + rewrite Nat.add_1_r. reflexivity.
    + apply N.ltb_ge in Hlt.
      assert (S separator_pos = String.length header) as -> by lia.
      symmetry. apply drop_all.
Qed.

Lemma headers_loop_body_record (s : istream.t) (s' : istream.t) (line header : string)
    (resp : HTTPResponse) :
  istream.getline header CR s = (line, s') ->
  line <> "" ->
  headers_loop_body s header resp = (istream.get s', Some line, record_line resp line).
Proof.
  intros Hg Hne. unfold headers_loop_body. rewrite Hg.
  destruct (line =? "")%string eqn:He; [apply String.eqb_eq in He; contradiction|].
  unfold record_line, split_header.
  pose proof (find_cut ":"%char line) as Hfc.
  destruct (find ":"%char line) as [p|].
  - destruct Hfc as [-> Hp]. rewrite (header_value_guard line p Hp).
    unfold substr. rewrite drop_0. reflexivity.
  - rewrite Hfc. reflexivity.
Qed.

Lemma is_header_line_inv (line : string) :
  is_header_line line = true -> line <> "" /\ find CR line = None.
Proof.
  unfold is_header_line. intros H. apply andb_true_iff in H as [H1 H2]. split.
  - intros ->. discriminate.
  - destruct (find CR line); [discriminate|reflexivity].
Qed.

Lemma headers_loop_body_line (line rest header : string) (resp : HTTPResponse) :
  is_header_line line = true ->
  headers_loop_body (istream.open (line ++ CRLF ++ rest)) header resp =
    (istream.open rest, Some line, record_line resp line).
Proof.
  intros Hl. apply is_header_line_inv in Hl as [Hne Hcr].
  rewrite (headers_loop_body_record _ (istream.open (String LF rest)) line).
  - reflexivity.
  - unfold istream.getline. simpl. unfold CRLF. simpl.
    rewrite (cut_line CR line _ Hcr). reflexivity.
  - exact Hne.
Qed.

Lemma headers_loop_body_empty_line (rest header : string) (resp : HTTPResponse) :
  headers_loop_body (istream.open (CRLF ++ rest)) header resp =
    (istream.open rest, None, resp).
Proof. reflexivity. Qed.

(** The loop over a block of header lines records them in order, stops at
    the empty line and leaves what follows it in the buffer. *)
Lemma headers_loop_block (lines : list string) (rest header : string)
    (resp : HTTPResponse) :
  forallb is_header_line lines = true ->
  headers_loop (S (length lines)) (istream.open (header_block lines ++ rest)) header resp
    = Some (istream.open rest, record_lines lines resp).
Proof.
  revert header resp. induction lines as [|line lines IH]; intros header resp Hl.
  - reflexivity.
  - simpl in Hl. apply andb_true_iff in Hl as [Hline Hl].
    change (headers_loop (S (length (line :: lines))) ?s header resp)
      with (match headers_loop_body s header resp with
            | (s', None, resp') => Some (s', resp')
            | (s', Some h', resp') => headers_loop (S (length lines)) s' h' resp'
            end).
    change (header_block (line :: lines))
      with (line ++ CRLF ++ header_block lines)%string.
    rewrite !append_assoc.
    rewrite (headers_loop_body_line line _ header resp Hline).
    apply IH, Hl.
Qed.

Lemma headers_loop_more_turns (n : nat) (s : istream.t) (header : string)
    (resp : HTTPResponse) (x : istream.t * HTTPResponse) :
  headers_loop n s header resp = Some x ->
  forall m, n <= m -> headers_loop m s header resp = Some x.
Proof.
  revert s header resp. induction n as [|n IH]; intros s header resp H m Hm.
  - discriminate.
  - destruct m as [|m]; [lia|]. simpl in *.
    destruct (headers_loop_body s header resp) as [[s' [h'|]] resp'].
    + apply IH; [exact H|lia].
    + exact H.
Qed.

Lemma header_block_length (lines : list string) :
  length lines <= String.length (header_block lines).
Proof.
  induction lines as [|l lines IH]; simpl; [lia|].
  rewrite length_append. simpl. lia.
Qed.

(** *** The loop ends within [enough_turns], or never *)

Lemma headers_loop_body_continues (s : istream.t) (header : string) (resp : HTTPResponse) :
  match headers_loop_body s header resp with
  | (_, None, _) => True
  | (_, Some header', _) => header' <> ""
  end.
Proof.
  unfold headers_loop_body.
  destruct (istream.getline header CR s) as [h s1].
  destruct (h =? "")%string eqn:Hh; [exact I|].
  apply String.eqb_neq in Hh. destruct (find ":"%char h); exact Hh.
Qed.

Lemma good_failbit (buf : string) (eof : bool) :
  istream.good (istream.mk buf eof true) = false.
Proof. unfold istream.good. simpl. apply andb_false_r. Qed.

Lemma getline_not_good (str : string) (delim : ascii) (s : istream.t) :
  istream.good s = false ->
  istream.getline str delim s =
    (str, istream.mk (istream.rdbuf s) (istream.eofbit s) true).
Proof. intros Hg. unfold istream.getline, istream.sentry. rewrite Hg. reflexivity. Qed.

Lemma get_not_good (s : istream.t) :
  istream.good s = false ->
  istream.get s = istream.mk (istream.rdbuf s) (istream.eofbit s) true.
Proof. intros Hg. unfold istream.get, istream.sentry. rewrite Hg. reflexivity. Qed.

Lemma headers_loop_body_failed (s : istream.t) (header : string) (resp : HTTPResponse) :
  istream.good s = false -> header <> "" ->
  exists s' resp',
    headers_loop_body s header resp = (s', Some header, resp') /\
    istream.good s' = false.
Proof.
  intros Hg Hh. unfold headers_loop_body.
  rewrite (getline_not_good header CR s Hg), get_not_good by apply good_failbit.
  apply String.eqb_neq in Hh. rewrite Hh.
  destruct (find ":"%char header); eexists; eexists; (split; [reflexivity|]);
    apply good_failbit.
Qed.

Lemma headers_loop_failed (n : nat) (s : istream.t) (header : string) (resp : HTTPResponse) :
  istream.good s = false -> header <> "" ->
  headers_loop n s header resp = None.
Proof.
  revert s resp. induction n as [|n IH]; intros s resp Hg Hh; [reflexivity|].
  simpl. destruct (headers_loop_body_failed s header resp Hg Hh) as (s' & resp' & -> & Hg').
  apply IH; assumption.
Qed.

Lemma cut_shorter (delim : ascii) (s a b : string) :
  cut delim s = Some (a, b) -> String.length b < String.length s.
Proof.
  revert a b. induction s as [|c s IH]; intros a b; simpl; [discriminate|].
  destruct (Ascii.eqb c delim).
  - intros H. injection H as _ <-. lia.
  - destruct (cut delim s) as [[a' b']|]; [|discriminate].
    intros H. injection H as _ <-. specialize (IH _ _ eq_refl). lia.
Qed.

Lemma headers_loop_body_consumes (s : istream.t) (header : string) (resp : HTTPResponse) :
  istream.good s = true ->
  match headers_loop_body s header resp with
  | (s', _, _) =>
      istream.good s' = true ->
      String.length (istream.rdbuf s') < String.length (istream.rdbuf s)
  end.
Proof.
  intros Hg. unfold headers_loop_body, istream.getline, istream.sentry.
  rewrite Hg. simpl.
  destruct (cut CR (istream.rdbuf s)) as [[line rest]|] eqn:Hcut.
  - apply cut_shorter in Hcut.
    assert (Hget : istream.good (istream.get (istream.mk rest false false)) = true ->
                   String.length (istream.rdbuf (istream.get (istream.mk rest false false)))
                   < String.length (istream.rdbuf s)).
    { unfold istream.get, istream.sentry. simpl.
      destruct rest; simpl; [discriminate|]. simpl in Hcut. lia. }
    destruct (line =? "")%string; [exact Hget|].
    destruct (find ":"%char line); exact Hget.
  - assert (Hget : istream.good
                     (istream.get (istream.mk "" true (is_empty (istream.rdbuf s)))) = true ->
                   False).
    { unfold istream.get, istream.sentry, istream.good. simpl. discriminate. }
    destruct (istream.rdbuf s =? "")%string; [intros H; destruct (Hget H)|].
    destruct (find ":"%char (istream.rdbuf s)); intros H; destruct (Hget H).
Qed.

Lemma headers_loop_never_ends_from (n : nat) (s : istream.t) (header : string)
    (resp : HTTPResponse) :
  istream.good s = true ->
  String.length (istream.rdbuf s) < n ->
  headers_loop n s header resp = None ->
  forall m, headers_loop m s header resp = None.
Proof.
  revert s header resp. induction n as [|n IH]; intros s header resp Hg Hlen Hnone m.
  - lia.
  - destruct m as [|m]; [reflexivity|]. simpl in *.
    pose proof (headers_loop_body_continues s header resp) as Hcont.
    pose proof (headers_loop_body_consumes s header resp Hg) as Hcons.
    destruct (headers_loop_body s header resp) as [[s' [h'|]] resp']; [|discriminate].
    destruct (istream.good s') eqn:Hg'.
    + apply (IH s' h' resp' Hg'); [specialize (Hcons eq_refl); lia|exact Hnone].
    + apply headers_loop_failed; assumption.
Qed.

(** [enough_turns] is enough: a loop it does not see the end of has none. *)
Lemma headers_loop_never_ends (buf header : string) (resp : HTTPResponse) :
  headers_loop (enough_turns buf) (istream.open buf) header resp = None ->
  forall n, headers_loop n (istream.open buf) header resp = None.
Proof.
  apply headers_loop_never_ends_from; [reflexivity|].
  unfold enough_turns. simpl. lia.
Qed.

Lemma headers_loop_enough_turns (lines : list string) (rest header : string)
    (resp : HTTPResponse) :
  forallb is_header_line lines = true ->
  headers_loop (enough_turns (header_block lines ++ rest))
    (istream.open (header_block lines ++ rest)) header resp
    = Some (istream.open rest, record_lines lines resp).
Proof.
  intros Hl.
  apply (headers_loop_more_turns (S (length lines))).
  - apply headers_loop_block, Hl.
  - unfold enough_turns. rewrite length_append.
    pose proof (header_block_length lines). lia.
Qed.

Lemma on_headers_received_block (r : HTTPRequest) (ec : error_code)
    (lines : list string) (rest : string) :
  value ec = 0%Z ->
  m_response_buf (m_response r) = (header_block lines ++ rest)%string ->
  forallb is_header_line lines = true ->
  on_headers_received ec r =
    start_unless_cancelled (async_read response_body_received)
      (with_response (set_response_buf rest (record_lines lines (m_response r))) r).
Proof.
  intros Hec Hbuf Hl. rewrite (on_headers_received_unfold r ec Hec). cbv zeta.
  rewrite Hbuf, (headers_loop_enough_turns lines rest "" (m_response r) Hl).
  reflexivity.
Qed.

(** *** The map after the lines *)

Lemma find_add_header (name value key : string) (resp : HTTPResponse) :
  StringMap.find key (m_headers (add_header name value resp)) =
    if (name =? key)%string then Some value else StringMap.find key (m_headers resp).
Proof.
  simpl. rewrite StringMapFacts.add_o.
  destruct (String_as_OT.eq_dec name key) as [He|He]; unfold String_as_OT.eq in He.
  - subst. rewrite String.eqb_refl. reflexivity.
  - apply String.eqb_neq in He. rewrite He. reflexivity.
Qed.

Lemma find_record_lines (lines : list string) (resp : HTTPResponse) (key : string) :
  StringMap.find key (m_headers (record_lines lines resp)) =
    match last_value key lines with
    | Some v => Some v
    | None => StringMap.find key (m_headers resp)
    end.
Proof.
  revert resp. induction lines as [|line lines IH]; intros resp; [reflexivity|].
  unfold record_lines in *. simpl. rewrite IH.
  destruct (last_value key lines); [reflexivity|].
  unfold record_line. destruct (split_header line) as [[n v]|]; [|reflexivity].
  rewrite find_add_header. destruct (n =? key)%string; reflexivity.
Qed.

Lemma last_value_In (key : string) (lines : list string) (v : string) :
  last_value key lines = Some v ->
  exists line, In line lines /\ split_header line = Some (key, v).
Proof.
  induction lines as [|line lines IH]; simpl; [discriminate|].
  destruct (last_value key lines) as [v'|].
  - intros H. destruct (IH H) as (l & Hin & Hs). exists l. auto.
  - destruct (split_header line) as [[n w]|] eqn:Hs; [|discriminate].
    destruct (n =? key)%string eqn:Hn; [|discriminate].
    apply String.eqb_eq in Hn. subst n. intros H. injection H as ->.
    exists line. auto.
Qed.

Lemma header_names_In (lines : list string) (line name : string) :
  In line lines -> header_name line = Some name -> In name (header_names lines).
Proof.
  induction lines as [|l lines IH]; simpl; [contradiction|].
  intros [->|Hin] Hn.
  - rewrite Hn. left. reflexivity.
  - destruct (header_name l); [right|]; apply IH; assumption.
Qed.

Lemma last_value_defined (key : string) (lines : list string) (line : string) :
  In line lines -> header_name line = Some key ->
  last_value key lines <> None.
Proof.
  induction lines as [|l lines IH]; simpl; [contradiction|].
  intros Hin Hn. destruct (last_value key lines) as [v|] eqn:Hlast; [discriminate|].
  destruct Hin as [->|Hin]; [|destruct (IH Hin Hn eq_refl)].
  unfold header_name in Hn. destruct (split_header line) as [[n v]|]; [|discriminate].
  injection Hn as ->. rewrite String.eqb_refl. discriminate.
Qed.

Lemma In_last_value (key : string) (lines : list string) (line v : string) :
  NoDup (header_names lines) ->
  In line lines -> split_header line = Some (key, v) ->
  last_value key lines = Some v.
Proof.
  induction lines as [|l lines IH]; simpl; [contradiction|].
  intros Hnd Hin Hs.
  assert (Hname : header_name line = Some key) by (unfold header_name; rewrite Hs; reflexivity).
  destruct Hin as [->|Hin].
  - rewrite Hname in Hnd. apply NoDup_cons_iff in Hnd as [Hnotin _].
    destruct (last_value key lines) as [v'|] eqn:Hlast.
    + exfalso. apply Hnotin. apply last_value_In in Hlast as (l' & Hin' & Hs').
      apply (header_names_In lines l'); [exact Hin'|].
      unfold header_name. rewrite Hs'. reflexivity.
    + rewrite Hs, String.eqb_refl. reflexivity.
  - assert (Hnd' : NoDup (header_names lines)).
    { destruct (header_name l); [apply NoDup_cons_iff in Hnd; apply Hnd|exact Hnd]. }
    rewrite (IH Hnd' Hin Hs). reflexivity.
Qed.

Lemma header_names_Permutation (lines lines' : list string) :
  Permutation lines lines' -> Permutation (header_names lines) (header_names lines').
Proof.
  induction 1 as [|x l l' _ IH|x y l|l l' l'' _ IH1 _ IH2]; simpl.
  - constructor.
  - destruct (header_name x); [constructor|]; exact IH.
  - destruct (header_name x), (header_name y);
      try apply Permutation_refl. apply perm_swap.
  - eapply Permutation_trans; eassumption.
Qed.

(** Lines with distinct names can come in any order: the last value of a name
    is the same. *)
Lemma last_value_Permutation (key : string) (lines lines' : list string) :
  NoDup (header_names lines) -> Permutation lines lines' ->
  last_value key lines = last_value key lines'.
Proof.
  intros Hnd Hperm.
  assert (Hnd' : NoDup (header_names lines')).
  { eapply Permutation_NoDup; [apply header_names_Permutation, Hperm|exact Hnd]. }
  destruct (last_value key lines) as [v|] eqn:H1.
  - apply last_value_In in H1 as (l & Hin & Hs). symmetry.
    apply (In_last_value key lines' l v Hnd'); [|exact Hs].
    eapply Permutation_in; eassumption.
  - destruct (last_value key lines') as [v'|] eqn:H2; [|reflexivity].
    apply last_value_In in H2 as (l & Hin & Hs).
    rewrite <- H1.
    apply (In_last_value key lines l v' Hnd); [|exact Hs].
    eapply Permutation_in; [apply Permutation_sym|]; eassumption.
Qed.

(** *** The order of the map *)

Lemma elements_keys_sorted (m : StringMap.t string) :
  StronglySorted String_as_OT.lt (map fst (StringMap.elements m)).
Proof.
  apply Sorted_StronglySorted.
  - intros x y z. apply String_as_OT.lt_trans.
  - pose proof (StringMap.elements_3 m) as Hs.
    induction Hs as [|p l Hs IH Hhd]; simpl; constructor.
    + exact IH.
    + destruct Hhd; simpl; constructor. assumption.
Qed.

Lemma elements_extensional (m m' : StringMap.t string) :
  (forall key, StringMap.find key m = StringMap.find key m') ->
  StringMap.elements m = StringMap.elements m'.
Proof.
  intros Heq.
  pose proof (StringMapProps.elements_Equal_eqlistA (m:=m) (m':=m') Heq) as Hl.
  induction Hl as [|p p' l l' Hkv Hl IH]; [reflexivity|].
  destruct p as [k v], p' as [k' v'], Hkv as [Hk Hv].
  simpl in Hk, Hv. unfold String_as_OT.eq in Hk.
  subst k' v'. rewrite IH. reflexivity.
Qed.

Lemma is_header_line_Permutation (lines lines' : list string) :
  Permutation lines lines' ->
  forallb is_header_line lines = true -> forallb is_header_line lines' = true.
Proof.
  intros Hperm Hl. apply forallb_forall. intros line Hin.
  apply (proj1 (forallb_forall _ _) Hl).
  eapply Permutation_in; [apply Permutation_sym|]; eassumption.
Qed.

Lemma headers_after_block (f : Callback) (r : HTTPRequest) (ec : error_code)
    (lines : list string) (rest : string) :
  ready f r -> value ec = 0%Z ->
  forallb is_header_line lines = true ->
  headers_after ec (received (header_block lines ++ rest) r) =
    Some (StringMap.elements
            (m_headers (record_lines lines
               (set_response_buf (header_block lines ++ rest) (m_response r))))).
Proof.
  intros Hready Hec Hl. unfold headers_after.
  rewrite (on_headers_received_block
             (received (header_block lines ++ rest) r) ec lines rest Hec eq_refl Hl).
  rewrite (start_unless_cancelled_ready f);
    [|apply ready_with_response, ready_with_response, Hready].
  match goal with |- context [if ?c then _ else _] => destruct c end; reflexivity.
Qed.

(** *** Outside the header lines *)

(** A carriage return that no line feed follows: the loop drops the byte
    after it, runs past the empty line and, with more bytes in the buffer,
    never ends. *)
Lemma bare_carriage_return_never_returns :
  let buf := ("A" ++ String CR (CRLF ++ CRLF) ++ "X")%string in
  contains CRLFCRLF buf = true /\
  on_headers_received no_error (received buf example_request) = Stuck never_returns [] /\
  forall turns,
    headers_loop turns (istream.open buf) "" (m_response (received buf example_request))
    = None.
Proof.
  repeat split.
  apply headers_loop_never_ends. reflexivity.
Qed.

(** ** A cancelled request starts nothing *)

Lemma on_finish_starts_nothing (ec : error_code) (r : HTTPRequest) :
  started (events (on_finish ec r)) = [].
Proof.
  unfold on_finish, bind, this, emit, ret, stuck.
  destruct (negb (value ec =? 0)%Z); simpl; destruct (m_callback r); reflexivity.
Qed.

Lemma start_unless_cancelled_starts_nothing (op : operation) (r : HTTPRequest) :
  m_was_cancelled r = true ->
  started (events (start_unless_cancelled op r)) = [].
Proof.
  intros Hflag.
  unfold start_unless_cancelled, bind, lock_cancel_mux, read_was_cancelled,
    unlock_cancel_mux, assign.
  destruct (m_cancel_mux r); [reflexivity|]. simpl. rewrite Hflag. simpl.
  pose proof (on_finish_starts_nothing asio_error.operation_aborted
                (with_cancel_mux false (with_cancel_mux true r))) as Hfin.
  destruct (on_finish _ _); simpl in *; exact Hfin.
Qed.

Lemma on_host_name_resolved_starts_nothing (ec : error_code) (r : HTTPRequest) :
  value ec = 0%Z -> m_was_cancelled r = true ->
  started (events (on_host_name_resolved ec r)) = [].
Proof.
  intros Hec Hflag. unfold on_host_name_resolved. rewrite (zero_test ec Hec).
  unfold bind, lock_cancel_mux, read_was_cancelled, unlock_cancel_mux, assign.
  destruct (m_cancel_mux r); [reflexivity|]. simpl. rewrite Hflag. simpl.
  pose proof (on_finish_starts_nothing asio_error.operation_aborted
                (with_cancel_mux false (with_cancel_mux true r))) as Hfin.
  destruct (on_finish _ _); simpl in *; exact Hfin.
Qed.

Lemma value_zero_or_not (ec : error_code) : value ec = 0%Z \/ value ec <> 0%Z.
Proof. destruct (Z.eq_dec (value ec) 0); auto. Qed.

Lemma invoke_cancelled_starts_nothing (h : handler) (ec : error_code) (r : HTTPRequest) :
  m_was_cancelled r = true ->
  started (events (invoke h ec r)) = [].
Proof.
  intros Hflag.
  destruct (handler_eq_dec h response_body_received) as [->|Hbody].
  { simpl. unfold on_response_body_received.
    destruct (error_code_eqb ec asio_error.eof); apply on_finish_starts_nothing. }
  destruct (value_zero_or_not ec) as [Hec|Hec].
  2:{ rewrite (failed_completion h r ec Hbody Hec). apply on_finish_starts_nothing. }
  destruct h; simpl; try congruence.
  - apply on_host_name_resolved_starts_nothing; assumption.
  - rewrite (on_connection_established_unfold r ec Hec).
    apply start_unless_cancelled_starts_nothing, Hflag.
  - unfold on_request_sent. rewrite (zero_test ec Hec).
    unfold bind, shutdown_send. destruct (m_sock_is_open r); [|reflexivity].
    pose proof (start_unless_cancelled_starts_nothing
                  (async_read_until CRLF status_line_received) r Hflag) as Hs.
    destruct (start_unless_cancelled _ r); simpl in *; exact Hs.
  - rewrite (on_status_line_received_unfold r ec Hec). cbv zeta.
    destruct (negb _); [apply on_finish_starts_nothing|].
    destruct (stoul.stoul _);
      [apply start_unless_cancelled_starts_nothing, Hflag
      |apply on_finish_starts_nothing|apply on_finish_starts_nothing].
  - rewrite (on_headers_received_unfold r ec Hec). cbv zeta.
    destruct (headers_loop _ _ _ _) as [[s resp]|]; [|reflexivity].
    apply start_unless_cancelled_starts_nothing, Hflag.
Qed.

Lemma execute_cancelled_starts_nothing (r : HTTPRequest) :
  m_was_cancelled r = true ->
  started (events (execute r)) = [].
Proof.
  intros Hflag.
  destruct (0 <? m_port r)%N eqn:Hp;
    [|rewrite execute_assert_fails; auto].
  destruct (0 <? size (m_host r))%N eqn:Hh;
    [|rewrite execute_assert_fails; auto].
  destruct (0 <? size (m_uri r))%N eqn:Hu;
    [|rewrite execute_assert_fails; auto].
  destruct (m_callback r) eqn:Hc;
    [|rewrite execute_assert_fails; auto].
  rewrite (execute_asserts r Hp Hh Hu); [|congruence].
  apply start_unless_cancelled_starts_nothing, Hflag.
Qed.

(** ** The pipeline from [execute] on *)

Lemma request_message_composed (host uri : string) :
  ((("" ++ ("GET " ++ uri ++ " HTTP/1.1" ++ CRLF)) ++ ("Host: " ++ host ++ CRLF)) ++ CRLF)%string
  = request_message host uri.
Proof.
  unfold request_message. simpl. rewrite !append_assoc. simpl.
  rewrite !append_assoc. reflexivity.
Qed.

Lemma run_step (n : nat) (net : network) (log : list event) (r : HTTPRequest)
    (op : operation) :
  run (S n) net log (Returns tt r [start op]) =
    let '(net', r', h, ec) := complete op net r in
    run n net' (log ++ [start op]) (invoke h ec r').
Proof. reflexivity. Qed.

Lemma run_stop (net : network) (log : list event) (r : HTTPRequest) (out : list event) :
  run 0 net log (Returns tt r out) = (net, Returns tt r (log ++ out)).
Proof. reflexivity. Qed.

Lemma first_three_steps (id indeterminate : N) (host : string) (port : N) (uri : string)
    (f : Callback) (net : network) :
  host <> "" -> uri <> "" -> (0 < port)%N ->
  let r := configured id indeterminate host port uri f in
  run 3 net [] (execute r) =
    (mk_network (incoming net) (overread net) (outgoing net ++ request_message host uri),
     Returns tt
       (with_sock_is_open true (with_request_buf (request_message host uri) r))
       [start (async_resolve host (to_string port) host_name_resolved);
        start (async_connect connection_established);
        start (async_write (request_message host uri) request_sent);
        sock_shutdown_send;
        start (async_read_until CRLF status_line_received)]).
Proof.
  intros Hhost Huri Hport r.
  assert (Hready : ready f r) by (split; reflexivity).
  assert (Hflag : m_was_cancelled r = false) by reflexivity.
  assert (Hbuf : m_request_buf r = "") by reflexivity.
  assert (Hh : m_host r = host) by reflexivity.
  assert (Hu : m_uri r = uri) by reflexivity.
  assert (Hp : m_port r = port) by reflexivity.
  clearbody r.
  rewrite execute_asserts;
    [| rewrite Hp; apply N.ltb_lt; exact Hport
     | rewrite Hh; apply nonempty_size; exact Hhost
     | rewrite Hu; apply nonempty_size; exact Huri
     | destruct Hready as [-> _]; discriminate ].
  rewrite (start_unless_cancelled_ready f r _ Hready), Hflag, Hh, Hp.
  rewrite run_step.
  cbn [complete invoke app].
  rewrite (on_host_name_resolved_ready f r _ Hready) by reflexivity. rewrite Hflag.
  rewrite run_step.
  cbn [complete invoke app].
  change (with_sock_is_open true (with_sock_is_open true r)) with (with_sock_is_open true r).
  rewrite on_connection_established_unfold by reflexivity. cbv zeta.
  replace (m_request_buf (with_sock_is_open true r)) with "" by (symmetry; exact Hbuf).
  replace (m_uri (with_sock_is_open true r)) with uri by (symmetry; exact Hu).
  replace (m_host (with_sock_is_open true r)) with host by (symmetry; exact Hh).
  rewrite request_message_composed.
  rewrite (start_unless_cancelled_ready f);
    [|apply ready_with_request_buf; destruct Hready; split; assumption].
  replace (m_was_cancelled (with_request_buf (request_message host uri)
                              (with_sock_is_open true r))) with false
    by (symmetry; exact Hflag).
  rewrite run_step.
  cbn [complete invoke app].
  rewrite on_request_sent_unfold by reflexivity.
  rewrite (start_unless_cancelled_ready f);
    [|apply ready_with_request_buf; destruct Hready; split; assumption].
  replace (m_was_cancelled (with_request_buf (request_message host uri)
                              (with_sock_is_open true r))) with false
    by (symmetry; exact Hflag).
  rewrite run_stop. cbn [app].
  destruct r; reflexivity.
Qed.

(** ** The properties of the specification *)

(** C4 (as amended).  In the five handlers that test [ec.value() != 0]
    (resolve, connect, write, status line, headers) a completion with a
    non-zero error code goes straight to [on_finish]: the request is left as
    it was, no operation is started, and the callback receives that very
    error code.  The body handler does the same for every non-zero error
    code other than [asio::error::eof]. *)
Theorem error_reaches_callback_unchanged
    (f : Callback) (h : handler) (r : HTTPRequest) (ec : error_code) :
  ready f r ->
  value ec <> 0%Z ->
  (h = response_body_received -> ec <> asio_error.eof) ->
  invoke h ec r = Returns tt r [cout_error ec; callback f r (m_response r) ec].
Proof.
  intros [Hf Hm] Hec Hbody.
  assert (Hfin : on_finish ec r =
                 Returns tt r [cout_error ec; callback f r (m_response r) ec]).
  { rewrite (on_finish_ready f r ec Hf). unfold finish_events.
    rewrite (nonzero_test ec Hec). reflexivity. }
  destruct (handler_eq_dec h response_body_received) as [->|Hh].
  - simpl. unfold on_response_body_received.
    destruct (error_code_eqb ec asio_error.eof) eqn:Heof.
    + apply eof_test in Heof. exfalso. apply Hbody; [reflexivity|exact Heof].
    + exact Hfin.
  - rewrite (failed_completion h r ec Hh Hec). exact Hfin.
Qed.

Lemma error_reaches_callback_unchanged_witness :
  invoke host_name_resolved (mk_error_code 1 netdb_category) example_request =
    Returns tt example_request
      [cout_error (mk_error_code 1 netdb_category);
       callback 7 example_request (m_response example_request)
         (mk_error_code 1 netdb_category)].
Proof.
  apply (error_reaches_callback_unchanged 7 host_name_resolved example_request
           (mk_error_code 1 netdb_category)).
  - split; reflexivity.
  - discriminate.
  - discriminate.
Defined.

(** C4, as stated, fails in the body handler: a completion with the
    non-zero error code [asio::error::eof] calls the callback with the zero
    error code. *)
Lemma eof_reaches_callback_as_success :
  value asio_error.eof <> 0%Z /\
  callback_errors (events (invoke response_body_received asio_error.eof example_request))
    = [no_error] /\
  no_error <> asio_error.eof.
Proof. repeat split; discriminate. Qed.

(** C5.  In the body handler a completion with [asio::error::eof] finishes
    the request with the zero error code, nothing being reported; any other
    error code finishes it with that error code.  Either way the response is
    left as it is, so that the body the callback reads is what the buffer
    has accumulated, possibly nothing. *)
Theorem end_of_stream_is_success (f : Callback) (r : HTTPRequest) (ec : error_code) :
  ready f r ->
  (ec = asio_error.eof ->
   on_response_body_received ec r =
     Returns tt r [callback f r (m_response r) no_error]) /\
  (ec <> asio_error.eof ->
   on_response_body_received ec r = Returns tt r (finish_events f r ec)) /\
  (forall r' out f' req resp ec',
     on_response_body_received ec r = Returns tt r' out ->
     In (callback f' req resp ec') out ->
     get_response resp = m_response_buf (m_response r)).
Proof.
  intros [Hf Hm]. unfold on_response_body_received.
  destruct (error_code_eqb ec asio_error.eof) eqn:Heof.
  - apply eof_test in Heof. subst ec.
    rewrite (on_finish_ready f r _ Hf). repeat split.
    + congruence.
    + intros r' out f' req resp ec' H Hin. injection H as <- <-.
      simpl in Hin. destruct Hin as [Hin|[]]. injection Hin as _ _ <- _. reflexivity.
  - rewrite (on_finish_ready f r _ Hf). repeat split.
    + intros ->. discriminate.
    + intros r' out f' req resp ec' H Hin. injection H as <- <-.
      unfold finish_events in Hin. apply in_app_or in Hin as [Hin|Hin].
      * destruct (negb (value ec =? 0)%Z); simpl in Hin; [|contradiction].
        destruct Hin as [Hin|[]]. discriminate.
      * destruct Hin as [Hin|[]]. injection Hin as _ _ <- _. reflexivity.
Qed.

Lemma end_of_stream_is_success_witness :
  on_response_body_received asio_error.eof example_request =
    Returns tt example_request
      [callback 7 example_request (m_response example_request) no_error].
Proof.
  apply (end_of_stream_is_success 7 example_request asio_error.eof).
  - split; reflexivity.
  - reflexivity.
Defined.

(** C1 (as amended).  Request for host example.test, port 80, path /; the
    server sends HTTP/1.1 200 OK, Content-Length: 5, the empty line and
    hello, then closes.  However the reply is cut into reads, the request
    completes with one call of the callback: no error, status 200, status
    message [" OK"] and header value [" 5"], each with the space that
    precedes it on the wire, and body hello. *)
Theorem scenario_200_hello (overread : list nat) (id indeterminate : N) (f : Callback) :
  let '(net, o) :=
    round_trip (configured id indeterminate "example.test" 80 "/" f)
      reply_200_hello overread in
  returned o = true /\
  outgoing net = request_message "example.test" "/" /\
  callback_calls (events o) =
    [(mk_view 200 " OK" [("Content-Length", " 5")] "hello", no_error)].
Proof.
  each_overread overread ltac:(idtac; each_overread overread settle).
Qed.

(** C1, as stated, fails: the callback does not see the status message OK
    and the header value 5. *)
Lemma scenario_200_hello_not_trimmed :
  callback_calls (events (snd (round_trip example_request reply_200_hello [])))
  <> [(mk_view 200 "OK" [("Content-Length", "5")] "hello", no_error)].
Proof. vm_compute. discriminate. Qed.




(** C3.  [cancel()] sets the flag while it holds the mutex, asks the
    resolver, and the socket when it is open, to cancel, and calls no
    callback.  With the flag set, no call of [execute] or of a handler
    starts an operation, whatever its error code; and every step that comes
    to its test of the flag finishes the request with [operation_aborted]:
    [execute], and each handler called with a zero error code (for the
    status line, once the line is accepted; for the headers, once the loop
    has ended). *)
Theorem cancelled_request_starts_nothing (f : Callback) (r : HTTPRequest) :
  ready f r ->
  (cancel r =
     Returns tt (with_was_cancelled true r)
       (resolver_cancel :: if m_sock_is_open r then [sock_cancel] else [])) /\
  callback_errors (events (cancel r)) = [] /\
  (m_was_cancelled r = true ->
   let aborted := asio_error.operation_aborted in
   started (events (execute r)) = [] /\
   (forall h ec, started (events (invoke h ec r)) = []) /\
   (preconditions r -> finishes_with aborted (execute r)) /\
   (forall ec, value ec = 0%Z ->
      finishes_with aborted (on_host_name_resolved ec r)) /\
   (forall ec, value ec = 0%Z ->
      finishes_with aborted (on_connection_established ec r)) /\
   (forall ec, value ec = 0%Z -> m_sock_is_open r = true ->
      finishes_with aborted (on_request_sent ec r)) /\
   (forall ec v, value ec = 0%Z ->
      word 0 (m_response_buf (m_response r)) = "HTTP/1.1" ->
      stoul.stoul (word 1 (m_response_buf (m_response r))) = stoul.value v ->
      finishes_with aborted (on_status_line_received ec r)) /\
   (forall ec, value ec = 0%Z ->
      headers_loop (enough_turns (m_response_buf (m_response r)))
        (istream.open (m_response_buf (m_response r))) "" (m_response r) <> None ->
      finishes_with aborted (on_headers_received ec r))).
Proof.
  intros Hready.
  assert (Hcancel := cancel_ready r (proj2 Hready)).
  split; [exact Hcancel|]. split.
  { rewrite Hcancel. simpl. destruct (m_sock_is_open r); reflexivity. }
  intros Hflag aborted.
  assert (Hstep : forall op r', ready f r' -> m_was_cancelled r' = true ->
                    finishes_with aborted (start_unless_cancelled op r')).
  { intros op r' Hr' Hc. rewrite (start_unless_cancelled_ready f r' op Hr'), Hc.
    apply finishes_with_finish_events. }
  split; [apply execute_cancelled_starts_nothing, Hflag|].
  split; [intros h ec; apply invoke_cancelled_starts_nothing, Hflag|].
  repeat split.
  - intros Hpre. apply preconditions_asserts in Hpre as (Hp & Hh & Hu & Hc).
    rewrite (execute_asserts r Hp Hh Hu Hc). apply Hstep; assumption.
  - intros ec Hec. rewrite (on_host_name_resolved_ready f r ec Hready Hec), Hflag.
    apply finishes_with_finish_events.
  - intros ec Hec. rewrite (on_connection_established_unfold r ec Hec). cbv zeta.
    apply Hstep; [apply ready_with_request_buf|]; assumption.
  - intros ec Hec Hopen. rewrite (on_request_sent_unfold r ec Hec Hopen).
    rewrite (start_unless_cancelled_ready f r _ Hready), Hflag.
    exists r, (sock_shutdown_send :: finish_events f r aborted).
    repeat split; reflexivity.
  - intros ec v Hec Hv Hc.
    destruct (status_line_accepted f r ec v Hready Hec Hv Hc)
      as (r2 & Hready2 & Hflag2 & _ & ->).
    apply Hstep; congruence.
  - intros ec Hec Hloop. rewrite (on_headers_received_unfold r ec Hec). cbv zeta.
    destruct (headers_loop _ _ _ _) as [[s resp]|]; [|congruence].
    apply Hstep; [apply ready_with_response|]; assumption.
Qed.

Lemma cancelled_request_starts_nothing_witness :
  cancel example_request = Returns tt cancelled_example [resolver_cancel] /\
  finishes_with asio_error.operation_aborted (execute cancelled_example) /\
  finishes_with asio_error.operation_aborted
    (on_host_name_resolved no_error cancelled_example).
Proof.
  assert (Hready : ready 7 example_request) by (split; reflexivity).
  assert (Hready' : ready 7 cancelled_example) by (split; reflexivity).
  destruct (cancelled_request_starts_nothing 7 example_request Hready) as (Hcancel & _).
  destruct (cancelled_request_starts_nothing 7 cancelled_example Hready')
    as (_ & _ & Hsteps).
  destruct (Hsteps eq_refl) as (_ & _ & Hexecute & Hresolved & _).
  split; [exact Hcancel|]. split.
  - apply Hexecute. repeat split; try discriminate; reflexivity.
  - apply Hresolved. reflexivity.
Defined.

(** The scenario of C5: a reply that ends with its header block.  The
    request completes without error, with an empty body. *)
Lemma scenario_empty_body (overread : list nat) (id indeterminate : N) (f : Callback) :
  let '(net, o) :=
    round_trip (configured id indeterminate "example.test" 80 "/" f)
      reply_200_no_body overread in
  returned o = true /\
  callback_calls (events o) =
    [(mk_view 200 " OK" [("Content-Type", " text/html")] "", no_error)].
Proof.
  each_overread overread ltac:(idtac; each_overread overread settle).
Qed.

(** C6.  For every sequence of header lines followed by the empty line, the
    headers of the response after [on_headers_received] map each name to
    the value of the last line with that name, and hold the name of every
    line that has a colon; names that occur on no line keep what they
    had. *)
Theorem last_header_line_wins (f : Callback) (r : HTTPRequest) (ec : error_code)
    (lines : list string) (rest : string) :
  ready f r -> value ec = 0%Z ->
  forallb is_header_line lines = true ->
  m_response_buf (m_response r) = (header_block lines ++ rest)%string ->
  exists r' out,
    on_headers_received ec r = Returns tt r' out /\
    (forall name v,
       last_value name lines = Some v ->
       StringMap.find name (get_headers (m_response r')) = Some v) /\
    (forall line name,
       In line lines -> header_name line = Some name ->
       StringMap.In name (get_headers (m_response r'))) /\
    (forall name,
       last_value name lines = None ->
       StringMap.find name (get_headers (m_response r')) =
       StringMap.find name (get_headers (m_response r))).
Proof.
  intros Hready Hec Hlines Hbuf.
  rewrite (on_headers_received_block r ec lines rest Hec Hbuf Hlines).
  set (r' := with_response (set_response_buf rest (record_lines lines (m_response r))) r).
  assert (Hready' : ready f r') by (apply ready_with_response, Hready).
  assert (Hfind : forall name,
            StringMap.find name (get_headers (m_response r')) =
            match last_value name lines with
            | Some v => Some v
            | None => StringMap.find name (get_headers (m_response r))
            end).
  { intros name. apply (find_record_lines lines (m_response r) name). }
  rewrite (start_unless_cancelled_ready f r' _ Hready').
  exists r'.
  exists (if m_was_cancelled r'
          then finish_events f r' asio_error.operation_aborted
          else [start (async_read response_body_received)]).
  split; [destruct (m_was_cancelled r'); reflexivity|].
  repeat split.
  - intros name v Hlast. rewrite Hfind, Hlast. reflexivity.
  - intros line name Hin Hname. apply StringMapFacts.in_find_iff.
    rewrite Hfind.
    pose proof (last_value_defined name lines line Hin Hname) as Hdef.
    destruct (last_value name lines); [discriminate|congruence].
  - intros name Hlast. rewrite Hfind, Hlast. reflexivity.
Qed.

Lemma last_header_line_wins_witness :
  exists r' out,
    on_headers_received no_error
      (received (header_block two_custom_lines) example_request) = Returns tt r' out /\
    StringMap.find "X-Custom" (get_headers (m_response r')) = Some " b".
Proof.
  destruct (last_header_line_wins 7
              (received (header_block two_custom_lines) example_request)
              no_error two_custom_lines "")
    as (r' & out & Hrun & Hlast & _).
  - split; reflexivity.
  - reflexivity.
  - reflexivity.
  - reflexivity.
  - exists r', out. split; [exact Hrun|]. apply Hlast. reflexivity.
Defined.

(** C7.  For header lines followed by the empty line and by anything,
    [on_headers_received] records each line that has a colon under the text
    before its first colon, with the text after it as value (nothing, when
    the colon ends the line), passes over the lines without colon, stops at
    the empty line, whatever follows it staying in the buffer, and goes on
    to the next step without error. *)
Theorem header_lines_split_at_first_colon (f : Callback) (r : HTTPRequest)
    (ec : error_code) (lines : list string) (rest : string) :
  ready f r -> value ec = 0%Z ->
  forallb is_header_line lines = true ->
  m_response_buf (m_response r) = (header_block lines ++ rest)%string ->
  let r' := with_response (set_response_buf rest (record_lines lines (m_response r))) r in
  on_headers_received ec r =
    (if m_was_cancelled r
     then Returns tt r' (finish_events f r' asio_error.operation_aborted)
     else Returns tt r' [start (async_read response_body_received)]) /\
  (forall name value resp,
     find ":"%char name = None ->
     record_line resp (name ++ String ":"%char value) = add_header name value resp) /\
  (forall name resp,
     find ":"%char name = None ->
     record_line resp (name ++ ":") = add_header name "" resp) /\
  (forall line resp, find ":"%char line = None -> record_line resp line = resp).
Proof.
  intros Hready Hec Hlines Hbuf r'. repeat split.
  - rewrite (on_headers_received_block r ec lines rest Hec Hbuf Hlines). fold r'.
    rewrite (start_unless_cancelled_ready f r'); [reflexivity|].
    apply ready_with_response, Hready.
  - intros name value resp Hname. unfold record_line, split_header.
    rewrite (cut_line ":"%char name value Hname). reflexivity.
  - intros name resp Hname. unfold record_line, split_header.
    rewrite (cut_line ":"%char name "" Hname). reflexivity.
  - intros line resp Hline. unfold record_line, split_header.
    pose proof (find_cut ":"%char line) as Hcut. rewrite Hline in Hcut.
    rewrite Hcut. reflexivity.
Qed.

Lemma header_lines_split_at_first_colon_witness :
  callback_errors
    (events (on_headers_received no_error
       (received (header_block three_lines ++ "Beyond: y" ++ CRLF) example_request)))
    = [] /\
  headers_after no_error
    (received (header_block three_lines ++ "Beyond: y" ++ CRLF) example_request)
    = Some [("Empty", ""); ("Server", " x")].
Proof.
  pose proof (header_lines_split_at_first_colon 7
                (received (header_block three_lines ++ "Beyond: y" ++ CRLF) example_request)
                no_error three_lines ("Beyond: y" ++ CRLF)
                (conj eq_refl eq_refl) eq_refl eq_refl eq_refl) as H.
  destruct H as (Hrun & _). unfold headers_after. rewrite Hrun. split; reflexivity.
Defined.

(** C8.  For every non-empty host and path and every positive port, the
    first three steps of a new request write exactly
    GET path HTTP/1.1, Host: host and the empty line, each ended by CR LF,
    and nothing else; for every host and path, that is the message
    [on_connection_established] composes in an empty [m_request_buf]; and
    the handler of the completed write shuts down the sending side of the
    socket before it starts the read of the status line. *)
Theorem request_message_and_half_close (id indeterminate : N) (host : string) (port : N)
    (uri : string) (f : Callback) (net : network) :
  host <> "" -> uri <> "" -> (0 < port)%N ->
  let r := configured id indeterminate host port uri f in
  let message :=
    ("GET " ++ uri ++ " HTTP/1.1" ++ CRLF ++ "Host: " ++ host ++ CRLF ++ CRLF)%string in
  let '(net', o) := run 3 net [] (execute r) in
  outgoing net' = (outgoing net ++ message)%string /\
  events o =
    [start (async_resolve host (to_string port) host_name_resolved);
     start (async_connect connection_established);
     start (async_write message request_sent);
     sock_shutdown_send;
     start (async_read_until CRLF status_line_received)] /\
  (forall r2 ec,
     ready f r2 -> value ec = 0%Z -> m_request_buf r2 = "" ->
     m_was_cancelled r2 = false ->
     let message2 :=
       ("GET " ++ m_uri r2 ++ " HTTP/1.1" ++ CRLF ++
        "Host: " ++ m_host r2 ++ CRLF ++ CRLF)%string in
     on_connection_established ec r2 =
       Returns tt (with_request_buf message2 r2)
         [start (async_write message2 request_sent)]) /\
  (forall r2 ec,
     ready f r2 -> value ec = 0%Z -> m_sock_is_open r2 = true ->
     m_was_cancelled r2 = false ->
     on_request_sent ec r2 =
       Returns tt r2
         [sock_shutdown_send; start (async_read_until CRLF status_line_received)]).
Proof.
  intros Hhost Huri Hport r message.
  unfold r. rewrite (first_three_steps id indeterminate host port uri f net Hhost Huri Hport).
  split; [reflexivity|]. split; [reflexivity|]. split.
  - intros r2 ec Hready Hec Hbuf Hflag; cbv zeta.
    rewrite (on_connection_established_unfold r2 ec Hec). cbv zeta.
    rewrite Hbuf, request_message_composed.
    rewrite (start_unless_cancelled_ready f);
      [|apply ready_with_request_buf, Hready].
    change (m_was_cancelled (with_request_buf (request_message (m_host r2) (m_uri r2)) r2))
      with (m_was_cancelled r2).
    rewrite Hflag. reflexivity.
  - intros r2 ec Hready Hec Hopen Hflag.
    rewrite (on_request_sent_unfold r2 ec Hec Hopen).
    rewrite (start_unless_cancelled_ready f r2 _ Hready), Hflag. reflexivity.
Qed.

Lemma request_message_and_half_close_witness :
  outgoing (fst (run 3 (mk_network "" [] "") [] (execute example_request))) =
    ("GET / HTTP/1.1" ++ CRLF ++ "Host: example.test" ++ CRLF ++ CRLF)%string.
Proof.
  pose proof (request_message_and_half_close 1 0 "example.test" 80 "/" 7
                (mk_network "" [] "")) as H.
  cbv zeta in H. fold example_request in H.
  destruct (run 3 (mk_network "" [] "") [] (execute example_request)) as [net' o].
  apply H.
  - discriminate.
  - discriminate.
  - reflexivity.
Defined.

(** C9.  [execute] asserts, before anything else, that the port is
    positive, the host and the path are not empty and the callback is not
    null.  When these hold no assertion fails, and [execute] goes on to its
    test of the flag; when one does not hold, [execute] stops at the failed
    assertion: no operation is started, nothing is reported and the
    callback is not called. *)
Theorem execute_asserts_preconditions (r : HTTPRequest) :
  (preconditions r ->
   execute r =
     start_unless_cancelled
       (async_resolve (m_host r) (to_string (m_port r)) host_name_resolved) r) /\
  (preconditions r -> forall out, execute r <> Stuck assertion_failed out) /\
  (~ preconditions r -> execute r = Stuck assertion_failed []).
Proof.
  assert (Hgo : preconditions r ->
                execute r =
                  start_unless_cancelled
                    (async_resolve (m_host r) (to_string (m_port r)) host_name_resolved) r).
  { intros Hpre. apply preconditions_asserts in Hpre as (Hp & Hh & Hu & Hc).
    apply execute_asserts; assumption. }
  split; [exact Hgo|]. split.
  - intros Hpre out. rewrite (Hgo Hpre).
    unfold start_unless_cancelled, bind, lock_cancel_mux, read_was_cancelled,
      unlock_cancel_mux, assign, emit.
    destruct (m_cancel_mux r); [discriminate|]. simpl.
    destruct (m_was_cancelled r); simpl; [|discriminate].
    destruct (on_finish _ _) eqn:Hfin; [discriminate|].
    unfold on_finish, bind, this, emit, stuck, ret in Hfin. simpl in Hfin.
    destruct (m_callback r); simpl in Hfin; [discriminate|].
    injection Hfin as <- <-. discriminate.
  - intros Hpre. apply execute_assert_fails.
    destruct (0 <? m_port r)%N eqn:Hp; [|auto].
    destruct (0 <? size (m_host r))%N eqn:Hh; [|auto].
    destruct (0 <? size (m_uri r))%N eqn:Hu; [|auto].
    destruct (m_callback r) eqn:Hc; [|auto].
    exfalso. apply Hpre. apply preconditions_asserts.
    rewrite Hc. repeat split; try assumption. discriminate.
Qed.

Lemma execute_asserts_preconditions_witness :
  execute example_request =
    start_unless_cancelled
      (async_resolve "example.test" "80" host_name_resolved) example_request /\
  execute (set_host "" example_request) = Stuck assertion_failed [].
Proof.
  split.
  - apply (execute_asserts_preconditions example_request).
    repeat split; try discriminate; reflexivity.
  - apply (execute_asserts_preconditions (set_host "" example_request)).
    intros (_ & Hhost & _). apply Hhost. reflexivity.
Defined.

(** C10 (as amended).  After the header step [get_headers] shows the
    headers in strictly increasing order of their names, bytes compared
    lexicographically, whatever the order of the lines; and two blocks with
    the same lines in different orders show the same headers, provided no
    name occurs on two lines. *)
Theorem headers_sorted_by_name (f : Callback) (r : HTTPRequest) (ec : error_code)
    (lines : list string) (rest : string) :
  ready f r -> value ec = 0%Z ->
  forallb is_header_line lines = true ->
  exists headers,
    headers_after ec (received (header_block lines ++ rest) r) = Some headers /\
    StronglySorted String_as_OT.lt (map fst headers) /\
    (forall lines' rest',
       Permutation lines lines' -> NoDup (header_names lines) ->
       headers_after ec (received (header_block lines' ++ rest') r) = Some headers).
Proof.
  intros Hready Hec Hl. eexists. split; [|split].
  - apply (headers_after_block f r ec lines rest Hready Hec Hl).
  - apply elements_keys_sorted.
  - intros lines' rest' Hperm Hnodup.
    rewrite (headers_after_block f r ec lines' rest' Hready Hec
               (is_header_line_Permutation lines lines' Hperm Hl)).
    f_equal. apply elements_extensional. intros key.
    rewrite !find_record_lines.
    rewrite (last_value_Permutation key lines lines' Hnodup Hperm). reflexivity.
Qed.

Lemma headers_sorted_by_name_witness :
  headers_after no_error (received (header_block lines_B_then_A) example_request)
    = Some [("A", " 2"); ("B", " 1")] /\
  headers_after no_error (received (header_block lines_A_then_B) example_request)
    = Some [("A", " 2"); ("B", " 1")].
Proof.
  destruct (headers_sorted_by_name 7 example_request no_error lines_B_then_A ""
              (conj eq_refl eq_refl) eq_refl eq_refl)
    as (headers & Hrun & _ & Horder).
  assert (Hshown : Some headers = Some [("A", " 2"); ("B", " 1")]).
  { rewrite <- Hrun. reflexivity. }
  split.
  - rewrite <- Hshown, <- Hrun. reflexivity.
  - rewrite <- Hshown. apply (Horder lines_A_then_B "").
    + apply perm_swap.
    + repeat constructor; simpl; intuition discriminate.
Defined.

(** C10, as stated, fails for a name that occurs on two lines: which of the
    two lines came last shows in the value. *)
Lemma order_of_repeated_name_is_observable :
  Permutation ["X: a"; "X: b"] ["X: b"; "X: a"] /\
  headers_after no_error (received (header_block ["X: a"; "X: b"]) example_request)
  <> headers_after no_error (received (header_block ["X: b"; "X: a"]) example_request).
Proof.
  split; [apply perm_swap|]. vm_compute. discriminate.
Qed.

(** ** One call of a handler *)

Lemma same_configuration_refl (r : HTTPRequest) : same_configuration r r.
Proof. repeat split. intros H. exact H. Qed.

Lemma same_configuration_assigned (r r' : HTTPRequest) :
  m_host r' = m_host r -> m_port r' = m_port r -> m_uri r' = m_uri r ->
  m_id r' = m_id r -> m_callback r' = m_callback r ->
  m_was_cancelled r' = m_was_cancelled r ->
  (m_sock_is_open r' = m_sock_is_open r \/ m_sock_is_open r' = true) ->
  same_configuration r r'.
Proof.
  intros H1 H2 H3 H4 H5 H6 H7. repeat split; try assumption.
  intros Hopen. destruct H7 as [H7|H7]; congruence.
Qed.

Lemma same_configuration_trans (a b c : HTTPRequest) :
  same_configuration a b -> same_configuration b c -> same_configuration a c.
Proof.
  unfold same_configuration. intros (?&?&?&?&?&?&?) (?&?&?&?&?&?&?).
  repeat split; try congruence. auto.
Qed.

Lemma finishes_finish_events (f : Callback) (r : HTTPRequest) (ec : error_code) :
  finishes f r (finish_events f r ec).
Proof.
  split; [apply finish_events_started|]. exists ec.
  split; [apply finish_events_errors|].
  unfold finish_events. apply in_or_app. right. left. reflexivity.
Qed.

(** The end of every step: the flag decides between finishing with
    [operation_aborted] and starting the operation. *)
Lemma start_unless_cancelled_outcome (f : Callback) (h : handler) (op : operation)
    (r : HTTPRequest) :
  ready f r -> completes h op ->
  exists out,
    start_unless_cancelled op r = Returns tt r out /\
    (goes_on_to h out \/ finishes f r out).
Proof.
  intros Hready Hop. rewrite (start_unless_cancelled_ready f r op Hready).
  destruct (m_was_cancelled r); eexists; (split; [reflexivity|]).
  - right. apply finishes_finish_events.
  - left. exists op. repeat split. exact Hop.
Qed.

Lemma on_finish_outcome (f : Callback) (ec : error_code) (r : HTTPRequest) :
  ready f r ->
  exists out, on_finish ec r = Returns tt r out /\ finishes f r out.
Proof.
  intros [Hf _]. rewrite (on_finish_ready f r ec Hf).
  eexists. split; [reflexivity|apply finishes_finish_events].
Qed.

(** What a call of a handler can be: it returns, with the configuration as
    it was and the mutex free, having either started the operation of the
    next step or finished the request; or it is the header loop that does
    not end, or the shutdown of a socket that is not open. *)
Lemma invoke_outcome (f : Callback) (h : handler) (ec : error_code) (r : HTTPRequest) :
  ready f r ->
  (exists r' out,
     invoke h ec r = Returns tt r' out /\
     ready f r' /\ same_configuration r r' /\
     ((exists h', next_handler h = Some h' /\ goes_on_to h' out) \/ finishes f r' out)) \/
  (h = headers_received /\ invoke h ec r = Stuck never_returns []) \/
  (h = request_sent /\ m_sock_is_open r = false /\ invoke h ec r = Stuck system_error []).
Proof.
  intros Hready.
  assert (Hfinish : forall ec' r', ready f r' -> same_configuration r r' ->
            forall o, o = on_finish ec' r' ->
            exists r'' out, o = Returns tt r'' out /\ ready f r'' /\
              same_configuration r r'' /\
              ((exists h', next_handler h = Some h' /\ goes_on_to h' out) \/
               finishes f r'' out)).
  { intros ec' r' Hr' Hsame o ->.
    destruct (on_finish_outcome f ec' r' Hr') as (out & -> & Hfin).
    exists r', out. auto. }
  assert (Hgo : forall h' op r', ready f r' -> same_configuration r r' ->
            next_handler h = Some h' -> completes h' op ->
            forall o, o = start_unless_cancelled op r' ->
            exists r'' out, o = Returns tt r'' out /\ ready f r'' /\
              same_configuration r r'' /\
              ((exists h', next_handler h = Some h' /\ goes_on_to h' out) \/
               finishes f r'' out)).
  { intros h' op r' Hr' Hsame Hnext Hop o ->.
    destruct (start_unless_cancelled_outcome f h' op r' Hr' Hop) as (out & -> & [Hout|Hout]).
    - exists r', out. split; [reflexivity|]. split; [exact Hr'|]. split; [exact Hsame|].
      left. exists h'. auto.
    - exists r', out. auto. }
  destruct (handler_eq_dec h response_body_received) as [->|Hbody].
  { left. simpl. unfold on_response_body_received.
    destruct (error_code_eqb ec asio_error.eof);
      eapply Hfinish; eauto using same_configuration_refl. }
  destruct (value_zero_or_not ec) as [Hec|Hec].
  2:{ left. rewrite (failed_completion h r ec Hbody Hec).
      eapply Hfinish; eauto using same_configuration_refl. }
  destruct h; simpl; try congruence.
  - left. rewrite (on_host_name_resolved_ready f r ec Hready Hec).
    destruct (m_was_cancelled r) eqn:Hflag.
    + exists r, (finish_events f r asio_error.operation_aborted).
      split; [reflexivity|]. split; [exact Hready|].
      split; [apply same_configuration_refl|]. right. apply finishes_finish_events.
    + exists (with_sock_is_open true r), [start (async_connect connection_established)].
      split; [reflexivity|]. split; [apply ready_with_sock_is_open, Hready|].
      split; [apply same_configuration_assigned; auto|].
      left. exists connection_established. split; [reflexivity|].
      exists (async_connect connection_established). repeat split.
  - left. rewrite (on_connection_established_unfold r ec Hec). cbv zeta.
    match goal with |- context [start_unless_cancelled ?op ?r'] =>
      apply (Hgo request_sent op r');
        [apply ready_with_request_buf, Hready|apply same_configuration_assigned; auto|reflexivity|reflexivity|reflexivity]
    end.
  - destruct (m_sock_is_open r) eqn:Hopen.
    + left. rewrite (on_request_sent_unfold r ec Hec Hopen).
      destruct (start_unless_cancelled_outcome f status_line_received
                  (async_read_until CRLF status_line_received) r Hready
                  (conj eq_refl eq_refl))
        as (out & -> & Hout).
      exists r, (sock_shutdown_send :: out).
      split; [reflexivity|]. split; [exact Hready|].
      split; [apply same_configuration_refl|].
      destruct Hout as [(op & Hs & Hh & Hc)|(Hs & ec' & Hc & Hin)].
      * left. exists status_line_received. split; [reflexivity|].
        exists op. auto.
      * right. split; [exact Hs|]. exists ec'. split; [exact Hc|right; exact Hin].
    + right. right. repeat split. unfold on_request_sent.
      rewrite (zero_test ec Hec). unfold bind, shutdown_send. rewrite Hopen. reflexivity.
  - left. rewrite (on_status_line_received_unfold r ec Hec). cbv zeta.
    destruct (negb _).
    + eapply Hfinish; [apply ready_with_response, Hready|apply same_configuration_assigned; auto|reflexivity].
    + destruct (stoul.stoul _).
      * match goal with |- context [start_unless_cancelled ?op ?r'] =>
          apply (Hgo headers_received op r');
            [apply ready_with_response, ready_with_response, ready_with_response, Hready
            |apply same_configuration_assigned; auto|reflexivity|split; reflexivity|reflexivity]
        end.
      * eapply Hfinish;
          [apply ready_with_response, ready_with_response, Hready|apply same_configuration_assigned; auto|reflexivity].
      * eapply Hfinish;
          [apply ready_with_response, ready_with_response, Hready|apply same_configuration_assigned; auto|reflexivity].
  - rewrite (on_headers_received_unfold r ec Hec). cbv zeta.
    destruct (headers_loop _ _ _ _) as [[s resp]|].
    + left.
      match goal with |- context [start_unless_cancelled ?op ?r'] =>
        apply (Hgo response_body_received op r');
          [apply ready_with_response, Hready|apply same_configuration_assigned; auto|reflexivity|reflexivity|reflexivity]
      end.
    + right. left. split; reflexivity.
Qed.

Lemma execute_outcome (f : Callback) (r : HTTPRequest) :
  ready f r -> preconditions r ->
  exists out,
    execute r = Returns tt r out /\
    (goes_on_to host_name_resolved out \/ finishes f r out).
Proof.
  intros Hready Hpre. apply preconditions_asserts in Hpre as (Hp & Hh & Hu & Hc).
  rewrite (execute_asserts r Hp Hh Hu Hc).
  apply start_unless_cancelled_outcome; [exact Hready|reflexivity].
Qed.

(** ** The whole run *)

Lemma callback_errors_app (a b : list event) :
  callback_errors (a ++ b) = callback_errors a ++ callback_errors b.
Proof.
  induction a as [|e a IH]; [reflexivity|].
  destruct e; simpl; rewrite IH; reflexivity.
Qed.

Lemma run_finished (n : nat) (net : network) (log : list event) (r : HTTPRequest)
    (out : list event) :
  started out = [] ->
  run n net log (Returns tt r out) = (net, Returns tt r (log ++ out)).
Proof. intros Hs. destruct n; simpl; rewrite ?Hs; reflexivity. Qed.

Lemma run_stuck (n : nat) (net : network) (log : list event) (why : fault)
    (out : list event) :
  run n net log (Stuck why out) = (net, Stuck why (log ++ out)).
Proof. destruct n; reflexivity. Qed.

Lemma run_started (n : nat) (net : network) (log : list event) (r : HTTPRequest)
    (out : list event) (op : operation) (l : list operation) :
  started out = op :: l ->
  run (S n) net log (Returns tt r out) =
    let '(net', r', h, ec) := complete op net r in
    run n net' (log ++ out) (invoke h ec r').
Proof. intros Hs. simpl. rewrite Hs. reflexivity. Qed.

(** The completion of an operation calls the handler the operation was
    started for, on a request that is still ready; the connect opens the
    socket, and no completion closes it. *)
Lemma complete_outcome (f : Callback) (h : handler) (op : operation) (net : network)
    (r : HTTPRequest) :
  completes h op -> ready f r ->
  exists net' r' ec,
    complete op net r = (net', r', h, ec) /\
    ready f r' /\
    (h = connection_established -> m_sock_is_open r' = true) /\
    (m_sock_is_open r = true -> m_sock_is_open r' = true).
Proof.
  intros Hop Hready.
  destruct h, op; simpl in Hop; try contradiction.
  - subst h. exists net, r, no_error.
    repeat split; try apply Hready; auto; discriminate.
  - subst h. exists net, (with_sock_is_open true r), no_error.
    repeat split; try apply Hready; reflexivity.
  - subst h. simpl. eexists _, r, no_error.
    repeat split; try apply Hready; auto; discriminate.
  - destruct Hop as [-> ->]. simpl.
    destruct (read_until _ _ _) as [[ec buf] net'].
    exists net', (received buf r), ec.
    repeat split; try apply Hready; auto; discriminate.
  - destruct Hop as [-> ->]. simpl.
    destruct (read_until _ _ _) as [[ec buf] net'].
    exists net', (received buf r), ec.
    repeat split; try apply Hready; auto; discriminate.
  - subst h. simpl. eexists _, (received _ r), _.
    repeat split; try apply Hready; auto; discriminate.
Qed.

Lemma next_handler_steps_left (h h' : handler) :
  next_handler h = Some h' -> steps_left h = S (steps_left h').
Proof.
  destruct h; simpl; intros H; try discriminate; injection H as <-; reflexivity.
Qed.

Lemma last_handler (h : handler) : steps_left h = 0 -> next_handler h = None.
Proof. destruct h; simpl; intros H; try discriminate; reflexivity. Qed.

(** From the call of a handler on, with as many steps as are left: the run
    ends with one call of the callback, or in the header loop. *)
Lemma run_outcome (f : Callback) (n : nat) :
  forall (h : handler) (ec : error_code) (r : HTTPRequest) (net : network)
         (log : list event),
  ready f r ->
  (steps_left h <= 4 -> m_sock_is_open r = true) ->
  steps_left h <= n ->
  callback_errors log = [] ->
  (exists out,
     snd (run n net log (invoke h ec r)) = Stuck never_returns out /\
     callback_errors out = []) \/
  (exists r' out ec',
     snd (run n net log (invoke h ec r)) = Returns tt r' out /\
     callback_errors out = [ec'] /\
     In (callback f r' (m_response r') ec') out).
Proof.
  induction n as [|n IH]; intros h ec r net log Hready Hopen Hleft Hlog.
  - destruct (invoke_outcome f h ec r Hready)
      as [(r' & out & Hrun & Hready' & Hsame & Hout)|[(Hh & Hrun)|(Hh & Hclosed & Hrun)]].
    + rewrite Hrun. destruct Hout as [(h' & Hnext & _)|(Hs & ec' & Hc & Hin)].
      * rewrite (last_handler h) in Hnext by lia. discriminate.
      * right. rewrite (run_finished 0 net log r' out Hs). simpl.
        exists r', (log ++ out), ec'. rewrite callback_errors_app, Hlog, Hc.
        split; [reflexivity|]. split; [reflexivity|]. apply in_or_app. auto.
    + subst h. simpl in Hleft. lia.
    + subst h. simpl in Hleft. lia.
  - destruct (invoke_outcome f h ec r Hready)
      as [(r' & out & Hrun & Hready' & Hsame & Hout)|[(Hh & Hrun)|(Hh & Hclosed & Hrun)]].
    + rewrite Hrun. destruct Hout as [(h' & Hnext & op & Hs & Hop & Hc)|(Hs & ec' & Hc & Hin)].
      * rewrite (run_started n net log r' out op [] Hs).
        destruct (complete_outcome f h' op net r' Hop Hready')
          as (net' & r'' & ec'' & -> & Hready'' & Hconn & Hkeep).
        pose proof (next_handler_steps_left h h' Hnext) as Hsteps.
        apply IH.
        -- exact Hready''.
        -- intros Hfew.
           destruct (handler_eq_dec h' connection_established) as [Hh'|Hh'];
             [apply Hconn, Hh'|].
           apply Hkeep. destruct Hsame as (_ & _ & _ & _ & _ & _ & Hstays).
           apply Hstays, Hopen.
           destruct h, h'; simpl in *; try discriminate; try lia; congruence.
        -- lia.
        -- rewrite callback_errors_app, Hlog, Hc. reflexivity.
      * right. rewrite (run_finished (S n) net log r' out Hs). simpl.
        exists r', (log ++ out), ec'. rewrite callback_errors_app, Hlog, Hc.
        split; [reflexivity|]. split; [reflexivity|]. apply in_or_app. auto.
    + left. rewrite Hrun, run_stuck. simpl. exists (log ++ []).
      split; [reflexivity|]. rewrite callback_errors_app, Hlog. reflexivity.
    + subst h. rewrite Hopen in Hclosed; [discriminate|simpl; lia].
Qed.



(** The socket after a call that returns: open if the call is the one that
    opens it, otherwise as it was. *)
Lemma invoke_socket (f : Callback) (h : handler) (ec : error_code)
    (r r' : HTTPRequest) (out : list event) :
  ready f r ->
  invoke h ec r = Returns tt r' out ->
  m_sock_is_open r' = if opens_socket h out then true else m_sock_is_open r.
Proof.
  intros Hready Hrun.
  assert (Hfin : forall ec' r1, ready f r1 -> on_finish ec' r1 = Returns tt r' out ->
                   r' = r1 /\ started out = []).
  { intros ec' r1 [Hf _] H. rewrite (on_finish_ready f r1 ec' Hf) in H.
    injection H as <- <-. split; [reflexivity|apply finish_events_started]. }
  assert (Hgo : forall op r1, ready f r1 ->
                  start_unless_cancelled op r1 = Returns tt r' out -> r' = r1).
  { intros op r1 Hr1 H. rewrite (start_unless_cancelled_ready f r1 op Hr1) in H.
    destruct (m_was_cancelled r1); injection H as <- _; reflexivity. }
  destruct (handler_eq_dec h response_body_received) as [->|Hbody].
  { simpl in Hrun. unfold on_response_body_received in Hrun.
    destruct (error_code_eqb ec asio_error.eof);
      apply Hfin in Hrun as [-> _]; try exact Hready; reflexivity. }
  destruct (value_zero_or_not ec) as [Hec|Hec].
  2:{ rewrite (failed_completion h r ec Hbody Hec) in Hrun.
      apply Hfin in Hrun as [-> Hs]; [|exact Hready].
      unfold opens_socket. rewrite Hs. destruct h; reflexivity. }
  destruct h; simpl in Hrun; try congruence.
  - rewrite (on_host_name_resolved_ready f r ec Hready Hec) in Hrun.
    destruct (m_was_cancelled r); injection Hrun as <- <-.
    + unfold opens_socket. rewrite finish_events_started. reflexivity.
    + reflexivity.
  - rewrite (on_connection_established_unfold r ec Hec) in Hrun. cbv zeta in Hrun.
    apply Hgo in Hrun; [subst r'; reflexivity|apply ready_with_request_buf, Hready].
  - destruct (m_sock_is_open r) eqn:Hopen.
    + rewrite (on_request_sent_unfold r ec Hec Hopen) in Hrun.
      rewrite (start_unless_cancelled_ready f r _ Hready) in Hrun.
      destruct (m_was_cancelled r); injection Hrun as <- _; exact Hopen.
    + unfold on_request_sent in Hrun. rewrite (zero_test ec Hec) in Hrun.
      unfold bind, shutdown_send in Hrun. rewrite Hopen in Hrun. discriminate.
  - rewrite (on_status_line_received_unfold r ec Hec) in Hrun. cbv zeta in Hrun.
    destruct (negb _).
    + apply Hfin in Hrun as [-> _]; [reflexivity|apply ready_with_response, Hready].
    + destruct (stoul.stoul _).
      * apply Hgo in Hrun; [subst r'; reflexivity|].
        apply ready_with_response, ready_with_response, ready_with_response, Hready.
      * apply Hfin in Hrun as [-> _]; [reflexivity|].
        apply ready_with_response, ready_with_response, Hready.
      * apply Hfin in Hrun as [-> _]; [reflexivity|].
        apply ready_with_response, ready_with_response, Hready.
  - rewrite (on_headers_received_unfold r ec Hec) in Hrun. cbv zeta in Hrun.
    destruct (headers_loop _ _ _ _) as [[s resp]|]; [|discriminate].
    apply Hgo in Hrun; [subst r'; reflexivity|apply ready_with_response, Hready].
Qed.

(** X2.  A call of a completion handler that returns leaves the mutex free
    and the callback set, and does not touch the host, the port, the path,
    the id, the callback or the cancellation flag.  No handler closes the
    socket, and one call only changes whether it is open: the resolve
    handler, whose call of [asio::async_connect] leaves it open; after every
    other call, and after a resolve handler that starts nothing, the socket
    is as it was. *)
Theorem handler_keeps_configuration (f : Callback) (h : handler) (ec : error_code)
    (r r' : HTTPRequest) (out : list event) :
  ready f r ->
  invoke h ec r = Returns tt r' out ->
  ready f r' /\ same_configuration r r' /\
  m_sock_is_open r' = (if opens_socket h out then true else m_sock_is_open r).
Proof.
  intros Hready Hrun.
  pose proof (invoke_socket f h ec r r' out Hready Hrun) as Hsock.
  destruct (invoke_outcome f h ec r Hready)
    as [(r2 & out2 & Hrun2 & Hready2 & Hsame & _)|[(_ & Hs)|(_ & _ & Hs)]];
    rewrite Hrun in *; try discriminate.
  injection Hrun2 as <- <-. auto.
Qed.

Lemma handler_keeps_configuration_witness :
  ready 7 (with_sock_is_open true example_request) /\
  same_configuration example_request (with_sock_is_open true example_request) /\
  m_sock_is_open (with_sock_is_open true example_request) = true.
Proof.
  apply (handler_keeps_configuration 7 host_name_resolved no_error example_request
           (with_sock_is_open true example_request)
           [start (async_connect connection_established)]).
  - split; reflexivity.
  - reflexivity.
Defined.

(** X3.  From [execute] on a ready request that meets the preconditions,
    with any server reply and any cutting of it into reads, six completions
    or more end the run in one of two ways: the callback has been called
    exactly once, on the request and its response as they are at the end,
    or the header loop does not end and the callback has not been
    called. *)
Theorem run_calls_back_once (f : Callback) (r : HTTPRequest) (net : network) (n : nat) :
  ready f r -> preconditions r -> 6 <= n ->
  (exists out,
     snd (run n net [] (execute r)) = Stuck never_returns out /\
     callback_errors out = []) \/
  (exists r' out ec,
     snd (run n net [] (execute r)) = Returns tt r' out /\
     callback_errors out = [ec] /\
     In (callback f r' (m_response r') ec) out).
Proof.
  intros Hready Hpre Hn.
  destruct (execute_outcome f r Hready Hpre) as (out & -> & Hout).
  destruct Hout as [(op & Hs & Hop & Hc)|(Hs & ec & Hc & Hin)].
  - destruct n as [|n]; [lia|].
    rewrite (run_started n net [] r out op [] Hs).
    destruct (complete_outcome f host_name_resolved op net r Hop Hready)
      as (net' & r' & ec & -> & Hready' & _ & _).
    apply (run_outcome f n host_name_resolved ec r' net' ([] ++ out) Hready').
    + simpl. lia.
    + simpl. lia.
    + exact Hc.
  - right. rewrite (run_finished n net [] r out Hs). simpl.
    exists r, out, ec. auto.
Qed.

Lemma run_calls_back_once_witness :
  (exists out,
     snd (round_trip example_request reply_200_hello []) = Stuck never_returns out /\
     callback_errors out = []) \/
  (exists r' out ec,
     snd (round_trip example_request reply_200_hello []) = Returns tt r' out /\
     callback_errors out = [ec] /\
     In (callback 7 r' (m_response r') ec) out).
Proof.
  apply (run_calls_back_once 7 example_request (mk_network reply_200_hello [] "") 6).
  - split; reflexivity.
  - repeat split; try discriminate; reflexivity.
  - apply le_n.
Defined.

(** ** A well-formed status line *)

Lemma span_whole (p : ascii -> bool) (a : string) :
  is_empty (snd (span p a)) = true -> span p a = (a, "").
Proof.
  induction a as [|c a IH]; simpl; [reflexivity|].
  destruct (p c); [|discriminate].
  destruct (span p a) as [x y]. simpl in *. intros Hy.
  specialize (IH Hy). injection IH as -> ->. reflexivity.
Qed.

Lemma span_append (p : ascii -> bool) (a b : string) :
  is_empty (snd (span p a)) = true ->
  match b with EmptyString => true | String c _ => negb (p c) end = true ->
  span p (a ++ b) = (a, b).
Proof.
  intros Ha Hb. induction a as [|c a IH]; simpl in *.
  - destruct b as [|c b]; [reflexivity|]. simpl.
    apply negb_true_iff in Hb. rewrite Hb. reflexivity.
  - destruct (p c); [|discriminate].
    destruct (span p a) as [x y]. simpl in Ha. rewrite (IH Ha). reflexivity.
Qed.

Lemma span_weaken (p q : ascii -> bool) (a : string) :
  (forall c, p c = true -> q c = true) ->
  is_empty (snd (span p a)) = true -> is_empty (snd (span q a)) = true.
Proof.
  intros Hpq. induction a as [|c a IH]; simpl; [reflexivity|].
  destruct (p c) eqn:Hp; [|discriminate].
  rewrite (Hpq c Hp).
  destruct (span p a) as [x y], (span q a) as [x' y']. simpl in *. exact IH.
Qed.

Lemma isdigit_not_isspace (c : ascii) : isdigit c = true -> isspace c = false.
Proof.
  unfold isdigit, isspace. intros H.
  apply andb_true_iff in H as [H1 H2].
  apply N.leb_le in H1. apply N.leb_le in H2.
  apply orb_false_iff. split.
  - apply N.eqb_neq. lia.
  - apply andb_false_iff. right. apply N.leb_gt. lia.
Qed.

Lemma isdigit_nonspace (c : ascii) : isdigit c = true -> nonspace c = true.
Proof. intros H. unfold nonspace. rewrite (isdigit_not_isspace c H). reflexivity. Qed.

Lemma all_digits_inv (code : string) :
  all_digits code = true ->
  exists c code', code = String c code' /\ isdigit c = true /\
                  is_empty (snd (span isdigit code)) = true.
Proof.
  unfold all_digits. intros H. apply andb_true_iff in H as [Hne Hall].
  destruct code as [|c code']; [discriminate|].
  exists c, code'. split; [reflexivity|]. split; [|exact Hall].
  simpl in Hall. destruct (isdigit c); [reflexivity|discriminate].
Qed.

(** [std::stoul] on a run of digits: the number they write, when it fits
    [unsigned long]. *)
Lemma stoul_digits (code : string) :
  all_digits code = true ->
  stoul.stoul code =
    if (stoul.ULONG_MAX <? stoul.digits code 0)%N then stoul.out_of_range
    else stoul.value (stoul.digits code 0).
Proof.
  intros Hcode.
  destruct (all_digits_inv code Hcode) as (c & code' & -> & Hc & Hall).
  assert (Hgo : stoul.stoul (String c code') =
                stoul.unsigned_digits false (String c code')).
  { unfold stoul.stoul. simpl. rewrite (isdigit_not_isspace c Hc). simpl.
    destruct c as [[] [] [] [] [] [] [] []]; try discriminate Hc; reflexivity. }
  rewrite Hgo. unfold stoul.unsigned_digits.
  rewrite (span_whole isdigit _ Hall). reflexivity.
Qed.

Lemma ends_word_after (tail rest : string) :
  ends_word tail = true ->
  match (tail ++ CRLF ++ rest)%string with
  | EmptyString => true
  | String c _ => negb (nonspace c)
  end = true.
Proof.
  destruct tail as [|c tail]; simpl; [reflexivity|].
  unfold nonspace. intros ->. reflexivity.
Qed.

Lemma extract_version (x : string) :
  istream.extract "" (istream.open ("HTTP/1.1 " ++ x)) =
    ("HTTP/1.1", istream.mk (" " ++ x) false false).
Proof. reflexivity. Qed.

Lemma skip_one_space (c : ascii) (x : string) :
  isspace c = false -> snd (span isspace (" " ++ String c x)) = String c x.
Proof. simpl. intros ->. reflexivity. Qed.

Lemma extract_code (code tail rest : string) :
  all_digits code = true -> ends_word tail = true ->
  istream.extract "" (istream.mk (" " ++ code ++ tail ++ CRLF ++ rest) false false) =
    (code, istream.mk (tail ++ CRLF ++ rest) false false).
Proof.
  intros Hcode Htail.
  destruct (all_digits_inv code Hcode) as (c & code' & -> & Hc & Hall).
  unfold istream.extract, istream.sentry, istream.good.
  cbn [istream.rdbuf istream.eofbit istream.failbit negb andb].
  change (" " ++ String c code' ++ tail ++ CRLF ++ rest)%string
    with (" " ++ String c (code' ++ tail ++ CRLF ++ rest))%string.
  rewrite (skip_one_space c _ (isdigit_not_isspace c Hc)).
  cbn [is_empty istream.rdbuf].
  change (String c (code' ++ tail ++ CRLF ++ rest))
    with (String c code' ++ (tail ++ CRLF ++ rest))%string.
  fold nonspace.
  rewrite (span_append nonspace (String c code') (tail ++ CRLF ++ rest)).
  - destruct tail; reflexivity.
  - apply (span_weaken isdigit nonspace); [apply isdigit_nonspace|exact Hall].
  - apply ends_word_after, Htail.
Qed.

Lemma getline_rest_of_line (tail rest : string) :
  no_CR tail = true ->
  istream.get
    (snd (istream.getline "" CR (istream.mk (tail ++ CRLF ++ rest) false false))) =
    istream.mk rest false false /\
  fst (istream.getline "" CR (istream.mk (tail ++ CRLF ++ rest) false false)) = tail.
Proof.
  unfold no_CR. intros Hcr.
  assert (Hfind : find CR tail = None) by (destruct (find CR tail); [discriminate|reflexivity]).
  unfold istream.getline. simpl. unfold CRLF. simpl.
  rewrite (cut_line CR tail _ Hfind). split; reflexivity.
Qed.

(** [on_status_line_received] on a status line HTTP/1.1, digits, rest of the
    line: the status is the number the digits write, cut to 32 bits, the
    message is the whole rest of the line, what follows the line stays in
    the buffer, and the header read is the next step; digits beyond
    [unsigned long] make the response invalid. *)
Lemma on_status_line_received_line (f : Callback) (r : HTTPRequest) (ec : error_code)
    (code tail rest : string) :
  ready f r -> value ec = 0%Z ->
  all_digits code = true -> ends_word tail = true -> no_CR tail = true ->
  m_response_buf (m_response r) = (status_line code tail ++ rest)%string ->
  if (stoul.digits code 0 <=? stoul.ULONG_MAX)%N then
    on_status_line_received ec r =
      start_unless_cancelled (async_read_until CRLFCRLF headers_received)
        (with_response
           (mk_HTTPResponse (to_unsigned_int (stoul.digits code 0)) tail
              (m_headers (m_response r)) rest) r)
  else
    finishes_with invalid_response_error (on_status_line_received ec r).
Proof.
  intros Hready Hec Hcode Htail Hcr Hbuf.
  assert (Hbuf' : m_response_buf (m_response r) =
                  ("HTTP/1.1 " ++ (code ++ tail ++ CRLF ++ rest))%string).
  { rewrite Hbuf. unfold status_line. simpl. rewrite !append_assoc. reflexivity. }
  destruct (stoul.digits code 0 <=? stoul.ULONG_MAX)%N eqn:Hfit.
  - rewrite (on_status_line_received_unfold r ec Hec). cbv zeta.
    rewrite Hbuf', extract_version. cbn [fst snd].
    change (negb ("HTTP/1.1" =? "HTTP/1.1")%string) with false. cbv iota.
    rewrite (extract_code code tail rest Hcode Htail). cbn [fst snd].
    rewrite (stoul_digits code Hcode).
    apply N.leb_le in Hfit.
    destruct (stoul.ULONG_MAX <? stoul.digits code 0)%N eqn:Hover;
      [apply N.ltb_lt in Hover; lia|].
    destruct (getline_rest_of_line tail rest Hcr) as [-> ->].
    reflexivity.
  - apply (status_line_rejected f r ec Hready Hec). right.
    destruct (status_line_tokens (m_response_buf (m_response r))) as [_ H1].
    cbv zeta in H1. rewrite <- H1, Hbuf', extract_version. cbn [snd].
    rewrite (extract_code code tail rest Hcode Htail). cbn [fst].
    rewrite (stoul_digits code Hcode).
    apply N.leb_gt in Hfit. apply N.ltb_lt in Hfit. rewrite Hfit. reflexivity.
Qed.

(** X4.  On a buffer that begins with a status line made of HTTP/1.1, a
    space, a run of digits and a rest of the line that is empty or begins
    with white space and has no carriage return, the status-line handler
    sets the status code to the number the digits write, cut to 32 bits,
    and the status message to the whole rest of the line, leaves what
    follows the line in the buffer and goes on to the read of the header
    block (or finishes with [operation_aborted] when cancelled); digits
    that write a number above [ULONG_MAX] make the response invalid. *)
Theorem status_line_parsed (f : Callback) (r : HTTPRequest) (ec : error_code)
    (code tail rest : string) :
  ready f r -> value ec = 0%Z ->
  all_digits code = true -> ends_word tail = true -> no_CR tail = true ->
  m_response_buf (m_response r) = (status_line code tail ++ rest)%string ->
  let r' :=
    with_response
      (mk_HTTPResponse (to_unsigned_int (stoul.digits code 0)) tail
         (m_headers (m_response r)) rest) r in
  if (stoul.digits code 0 <=? stoul.ULONG_MAX)%N then
    on_status_line_received ec r =
      Returns tt r'
        (if m_was_cancelled r then finish_events f r' asio_error.operation_aborted
         else [start (async_read_until CRLFCRLF headers_received)])
  else
    finishes_with invalid_response_error (on_status_line_received ec r).
Proof.
  intros Hready Hec Hcode Htail Hcr Hbuf r'.
  pose proof (on_status_line_received_line f r ec code tail rest
                Hready Hec Hcode Htail Hcr Hbuf) as Hline.
  destruct (stoul.digits code 0 <=? stoul.ULONG_MAX)%N; [|exact Hline].
  rewrite Hline. fold r'.
  rewrite (start_unless_cancelled_ready f r'); [|apply ready_with_response, Hready].
  change (m_was_cancelled r') with (m_was_cancelled r).
  destruct (m_was_cancelled r); reflexivity.
Qed.

Lemma status_line_parsed_witness :
  on_status_line_received no_error
    (received (status_line "404" " Not Found" ++ "Server: x") example_request) =
  Returns tt
    (with_response
       (mk_HTTPResponse 404 " Not Found" (StringMap.empty string) "Server: x")
       example_request)
    [start (async_read_until CRLFCRLF headers_received)].
Proof.
  apply (status_line_parsed 7
           (received (status_line "404" " Not Found" ++ "Server: x") example_request)
           no_error "404" " Not Found" "Server: x");
    try reflexivity.
  split; reflexivity.
Defined.

(** ** Replies that end too early *)

Lemma prefix_append (d s x : string) :
  String.prefix d s = true -> String.prefix d (s ++ x) = true.
Proof.
  revert s. induction d as [|a d IH]; intros s;
    [intros _; destruct (s ++ x)%string; reflexivity|].
  destruct s as [|b s]; simpl; [discriminate|].
  destruct (ascii_dec a b); [apply IH|discriminate].
Qed.

Lemma contains_append (d s x : string) :
  contains d s = true -> contains d (s ++ x) = true.
Proof.
  induction s as [|c s IH].
  - simpl. rewrite orb_false_r. intros H.
    destruct d; [destruct x; reflexivity|discriminate H].
  - intros H. change (contains d (String c s))
      with (String.prefix d (String c s) || contains d s) in H.
    change (contains d (String c s ++ x))
      with (String.prefix d (String c s ++ x) || contains d (s ++ x)).
    apply orb_true_iff in H as [H|H]; apply orb_true_iff.
    + left. apply prefix_append, H.
    + right. apply IH, H.
Qed.

(** A delimiter that never comes: the read ends with the end of the
    stream. *)
Lemma bytes_needed_never (d buf incoming : string) :
  contains d (buf ++ incoming) = false -> bytes_needed d buf incoming = None.
Proof.
  revert buf. induction incoming as [|c rest IH]; intros buf H.
  - rewrite append_empty_r in H. simpl. rewrite H. reflexivity.
  - assert (Hbuf : contains d buf = false).
    { destruct (contains d buf) eqn:Hc; [|reflexivity].
      rewrite (contains_append d buf _ Hc) in H. discriminate. }
    change (bytes_needed d buf (String c rest))
      with (if contains d buf then Some 0
            else match bytes_needed d (buf ++ String c "") rest with
                 | Some n => Some (S n) | None => None end).
    rewrite Hbuf, IH; [reflexivity|].
    rewrite append_assoc. exact H.
Qed.

Lemma read_until_never (d buf : string) (net : network) :
  contains d (buf ++ incoming net) = false ->
  read_until d buf net =
    (asio_error.eof, (buf ++ incoming net)%string,
     mk_network "" (tl (overread net)) (outgoing net)).
Proof. intros H. unfold read_until. rewrite (bytes_needed_never d buf _ H). reflexivity. Qed.

Lemma prefix_CRLF_other (c : ascii) (s : string) :
  Ascii.eqb c CR = false -> String.prefix CRLF (String c s) = false.
Proof.
  intros Hc. unfold CRLF. cbn [String.prefix].
  destruct (ascii_dec CR c) as [E|E]; [|reflexivity].
  subst c. rewrite Ascii.eqb_refl in Hc. discriminate.
Qed.

Lemma no_CR_no_CRLF (s : string) : find CR s = None -> contains CRLF s = false.
Proof.
  induction s as [|c s IH]; [reflexivity|].
  simpl find. destruct (Ascii.eqb c CR) eqn:Hc; [discriminate|].
  destruct (find CR s); [discriminate|]. intros _.
  change (contains CRLF (String c s))
    with (String.prefix CRLF (String c s) || contains CRLF s).
  rewrite (IH eq_refl), orb_false_r. apply prefix_CRLF_other, Hc.
Qed.

Lemma no_CR_then_CR (s : string) :
  find CR s = None -> contains CRLF (s ++ String CR "") = false.
Proof.
  induction s as [|c s IH]; [reflexivity|].
  simpl find. destruct (Ascii.eqb c CR) eqn:Hc; [discriminate|].
  destruct (find CR s); [discriminate|]. intros _.
  change (contains CRLF (String c s ++ String CR ""))
    with (String.prefix CRLF (String c (s ++ String CR ""))
          || contains CRLF (s ++ String CR "")).
  rewrite (IH eq_refl), orb_false_r. apply prefix_CRLF_other, Hc.
Qed.

Lemma contains_at_end (d s : string) : contains d (s ++ d) = true.
Proof.
  assert (Hd : String.prefix d d = true).
  { induction d as [|a d IH]; [reflexivity|]. simpl.
    destruct (ascii_dec a a); [exact IH|congruence]. }
  induction s as [|c s IH].
  - simpl. destruct d; simpl in *; [reflexivity|]. rewrite Hd. reflexivity.
  - change (contains d (String c s ++ d))
      with (String.prefix d (String c (s ++ d)) || contains d (s ++ d)).
    rewrite IH. apply orb_true_r.
Qed.

(** The bytes needed for the first CR LF of a text that begins with a line
    without carriage return: the line and the two bytes. *)
Lemma bytes_needed_line (buf line rest : string) :
  find CR buf = None -> find CR line = None ->
  bytes_needed CRLF buf (line ++ CRLF ++ rest) = Some (S (S (String.length line))).
Proof.
  revert buf. induction line as [|c line IH]; intros buf Hbuf Hline.
  - change (bytes_needed CRLF buf ("" ++ CRLF ++ rest))
      with (if contains CRLF buf then Some 0
            else match (if contains CRLF (buf ++ String CR "") then Some 0
                        else match bytes_needed CRLF ((buf ++ String CR "") ++ String LF "") rest with
                             | Some n => Some (S n) | None => None end) with
                 | Some n => Some (S n) | None => None end).
    rewrite (no_CR_no_CRLF buf Hbuf), (no_CR_then_CR buf Hbuf).
    assert (Hfound : contains CRLF ((buf ++ String CR "") ++ String LF "") = true).
    { rewrite append_assoc. apply (contains_at_end CRLF buf). }
    destruct rest; simpl; rewrite Hfound; reflexivity.
  - simpl find in Hline. destruct (Ascii.eqb c CR) eqn:Hc; [discriminate|].
    assert (Hline' : find CR line = None) by (destruct (find CR line); [discriminate|reflexivity]).
    change (bytes_needed CRLF buf (String c line ++ CRLF ++ rest))
      with (if contains CRLF buf then Some 0
            else match bytes_needed CRLF (buf ++ String c "") (line ++ CRLF ++ rest) with
                 | Some n => Some (S n) | None => None end).
    rewrite (no_CR_no_CRLF buf Hbuf), IH; [reflexivity| |exact Hline'].
    clear - Hbuf Hc. induction buf as [|b buf IHb]; simpl.
    + rewrite Hc. reflexivity.
    + simpl in Hbuf. destruct (Ascii.eqb b CR); [discriminate|].
      destruct (find CR buf); [discriminate|]. rewrite (IHb eq_refl). reflexivity.
Qed.

Lemma take_append (x y : string) (k : nat) :
  take (String.length x + k) (x ++ y) = (x ++ take k y)%string.
Proof. induction x as [|c x IH]; simpl; [reflexivity|]. rewrite IH. reflexivity. Qed.

Lemma drop_append (x y : string) (k : nat) :
  drop (String.length x + k) (x ++ y) = drop k y.
Proof.
  induction x as [|c x IH]; simpl; [reflexivity|]. exact IH.
Qed.

Lemma take_drop (k : nat) (s : string) : (take k s ++ drop k s)%string = s.
Proof.
  revert k. induction s as [|c s IH]; intros k; [destruct k; reflexivity|].
  destruct k; simpl; [reflexivity|]. rewrite IH. reflexivity.
Qed.

(** The read of a first line without carriage return: the line, its CR LF
    and as many bytes more as the read goes beyond it. *)
Lemma read_until_line (line rest : string) (amounts : list nat) (sent : string) :
  find CR line = None ->
  read_until CRLF "" (mk_network (line ++ CRLF ++ rest) amounts sent) =
    (no_error, (line ++ CRLF ++ take (hd 0 amounts) rest)%string,
     mk_network (drop (hd 0 amounts) rest) (tl amounts) sent).
Proof.
  intros Hline. unfold read_until. cbn [incoming overread outgoing].
  rewrite (bytes_needed_line "" line rest eq_refl Hline).
  replace (S (S (String.length line)) + hd 0 amounts)
    with (String.length (line ++ CRLF) + hd 0 amounts)
    by (rewrite length_append; simpl; lia).
  rewrite <- (append_assoc line CRLF rest).
  rewrite take_append, drop_append, append_assoc. reflexivity.
Qed.

Lemma callback_calls_app (a b : list event) :
  callback_calls (a ++ b) = callback_calls a ++ callback_calls b.
Proof.
  induction a as [|e a IH]; [reflexivity|].
  destruct e; simpl; rewrite IH; reflexivity.
Qed.

(** [execute] and the first three completions, with more steps to come. *)
Lemma first_three_steps_then (n : nat) (id indeterminate : N) (host : string) (port : N)
    (uri : string) (f : Callback) (net : network) :
  host <> "" -> uri <> "" -> (0 < port)%N ->
  let r := configured id indeterminate host port uri f in
  run (S (S (S n))) net [] (execute r) =
    run n
      (mk_network (incoming net) (overread net) (outgoing net ++ request_message host uri))
      [start (async_resolve host (to_string port) host_name_resolved);
       start (async_connect connection_established);
       start (async_write (request_message host uri) request_sent)]
      (Returns tt
         (with_sock_is_open true (with_request_buf (request_message host uri) r))
         [sock_shutdown_send; start (async_read_until CRLF status_line_received)]).
Proof.
  intros Hhost Huri Hport r.
  assert (Hready : ready f r) by (split; reflexivity).
  assert (Hflag : m_was_cancelled r = false) by reflexivity.
  assert (Hbuf : m_request_buf r = "") by reflexivity.
  assert (Hh : m_host r = host) by reflexivity.
  assert (Hu : m_uri r = uri) by reflexivity.
  assert (Hp : m_port r = port) by reflexivity.
  clearbody r.
  rewrite execute_asserts;
    [| rewrite Hp; apply N.ltb_lt; exact Hport
     | rewrite Hh; apply nonempty_size; exact Hhost
     | rewrite Hu; apply nonempty_size; exact Huri
     | destruct Hready as [-> _]; discriminate ].
  rewrite (start_unless_cancelled_ready f r _ Hready), Hflag, Hh, Hp.
  rewrite run_step.
  cbn [complete invoke app].
  rewrite (on_host_name_resolved_ready f r _ Hready) by reflexivity. rewrite Hflag.
  rewrite run_step.
  cbn [complete invoke app].
  change (with_sock_is_open true (with_sock_is_open true r)) with (with_sock_is_open true r).
  rewrite on_connection_established_unfold by reflexivity. cbv zeta.
  replace (m_request_buf (with_sock_is_open true r)) with "" by (symmetry; exact Hbuf).
  replace (m_uri (with_sock_is_open true r)) with uri by (symmetry; exact Hu).
  replace (m_host (with_sock_is_open true r)) with host by (symmetry; exact Hh).
  rewrite request_message_composed.
  rewrite (start_unless_cancelled_ready f);
    [|apply ready_with_request_buf; destruct Hready; split; assumption].
  replace (m_was_cancelled (with_request_buf (request_message host uri)
                              (with_sock_is_open true r))) with false
    by (symmetry; exact Hflag).
  rewrite run_step.
  cbn [complete invoke app].
  rewrite on_request_sent_unfold by reflexivity.
  rewrite (start_unless_cancelled_ready f);
    [|apply ready_with_request_buf; destruct Hready; split; assumption].
  replace (m_was_cancelled (with_request_buf (request_message host uri)
                              (with_sock_is_open true r))) with false
    by (symmetry; exact Hflag).
  destruct r; reflexivity.
Qed.

Lemma run_step_after_shutdown (n : nat) (net : network) (log : list event)
    (r : HTTPRequest) (op : operation) :
  run (S n) net log (Returns tt r [sock_shutdown_send; start op]) =
    let '(net', r', h, ec) := complete op net r in
    run n net' (log ++ [sock_shutdown_send; start op]) (invoke h ec r').
Proof. reflexivity. Qed.

(** X5.  When the server closes before it has sent a CR LF (it may have
    sent nothing at all), the read of the status line completes with
    [asio::error::eof], which the status-line handler, unlike the body
    handler, passes on as an error: the callback is called once with
    [eof], the response untouched but for the bytes received, which stay
    in the buffer. *)
Theorem reply_without_line_fails (id indeterminate : N) (host : string) (port : N)
    (uri : string) (f : Callback) (reply : string) (amounts : list nat) :
  host <> "" -> uri <> "" -> (0 < port)%N ->
  contains CRLF reply = false ->
  let o := snd (round_trip (configured id indeterminate host port uri f) reply amounts) in
  returned o = true /\
  callback_calls (events o) = [(mk_view indeterminate "" [] reply, asio_error.eof)].
Proof.
  intros Hhost Huri Hport Hreply. cbv zeta. unfold round_trip.
  rewrite (first_three_steps_then 3 id indeterminate host port uri f _ Hhost Huri Hport).
  rewrite run_step_after_shutdown.
  cbn [complete incoming overread outgoing].
  set (r3 := with_sock_is_open true
               (with_request_buf (request_message host uri)
                  (configured id indeterminate host port uri f))).
  change (m_response_buf (m_response r3)) with "".
  rewrite read_until_never by exact Hreply.
  cbn [incoming overread outgoing invoke].
  assert (Hready : ready f (received ("" ++ reply) r3)) by (split; reflexivity).
  rewrite (failed_completion status_line_received _ asio_error.eof)
    by discriminate.
  rewrite (on_finish_ready f _ _ (proj1 Hready)).
  rewrite run_finished by reflexivity.
  split; reflexivity.
Qed.

Lemma reply_without_line_fails_witness :
  callback_calls
    (events (snd (round_trip example_request "HTTP/1.1 200 OK" [])))
  = [(mk_view 0 "" [] "HTTP/1.1 200 OK", asio_error.eof)].
Proof.
  apply (reply_without_line_fails 1 0 "example.test" 80 "/" 7 "HTTP/1.1 200 OK" []).
  - discriminate.
  - discriminate.
  - reflexivity.
  - reflexivity.
Defined.

Lemma find_append_none (c : ascii) (a b : string) :
  find c a = None -> find c b = None -> find c (a ++ b) = None.
Proof.
  intros Ha Hb. induction a as [|x a IH]; [exact Hb|].
  simpl in *. destruct (Ascii.eqb x c); [discriminate|].
  destruct (find c a); [discriminate|]. rewrite (IH eq_refl). reflexivity.
Qed.

Lemma digits_no_CR (code : string) : all_digits code = true -> find CR code = None.
Proof.
  intros Hcode. destruct (all_digits_inv code Hcode) as (c & code' & _ & _ & Hall).
  clear Hcode. induction code as [|x code IH]; [reflexivity|].
  simpl in *. destruct (isdigit x) eqn:Hx; [|discriminate].
  assert (Hcr : Ascii.eqb x CR = false).
  { destruct (Ascii.eqb x CR) eqn:E; [|reflexivity].
    apply Ascii.eqb_eq in E. subst x. discriminate Hx. }
  rewrite Hcr. destruct (span isdigit code) as [a b]. simpl in *.
  rewrite (IH Hall). reflexivity.
Qed.

Lemma status_line_no_CR (code tail : string) :
  all_digits code = true -> no_CR tail = true ->
  find CR ("HTTP/1.1 " ++ code ++ tail) = None.
Proof.
  intros Hcode Htail.
  apply (find_append_none CR "HTTP/1.1 "); [reflexivity|].
  apply find_append_none; [apply digits_no_CR, Hcode|].
  unfold no_CR in Htail. destruct (find CR tail); [discriminate|reflexivity].
Qed.

Lemma status_line_then (code tail rest : string) :
  (status_line code tail ++ rest)%string =
  (("HTTP/1.1 " ++ code ++ tail) ++ CRLF ++ rest)%string.
Proof. unfold status_line. rewrite !append_assoc. reflexivity. Qed.

(** X6.  When the reply has a well-formed status line but no CR LF CR LF
    after it (for instance a reply without header lines, whose status line
    is followed by the empty line and the body), the read of the header
    block runs into the end of the stream: the callback is called once with
    [asio::error::eof] although status code and message are set, no header
    is recorded and all the bytes after the status line stay in the
    buffer. *)
Theorem reply_without_blank_line_fails (id indeterminate : N) (host : string) (port : N)
    (uri : string) (f : Callback) (code tail rest : string) (amounts : list nat) :
  host <> "" -> uri <> "" -> (0 < port)%N ->
  all_digits code = true -> ends_word tail = true -> no_CR tail = true ->
  (stoul.digits code 0 <=? stoul.ULONG_MAX)%N = true ->
  contains CRLFCRLF rest = false ->
  let o := snd (round_trip (configured id indeterminate host port uri f)
                  (status_line code tail ++ rest) amounts) in
  returned o = true /\
  callback_calls (events o) =
    [(mk_view (to_unsigned_int (stoul.digits code 0)) tail [] rest, asio_error.eof)].
Proof.
  intros Hhost Huri Hport Hcode Htail Hcr Hfit Hrest. cbv zeta. unfold round_trip.
  rewrite (first_three_steps_then 3 id indeterminate host port uri f _ Hhost Huri Hport).
  rewrite run_step_after_shutdown.
  cbn [complete incoming overread outgoing].
  set (r3 := with_sock_is_open true
               (with_request_buf (request_message host uri)
                  (configured id indeterminate host port uri f))).
  change (m_response_buf (m_response r3)) with "".
  rewrite status_line_then.
  rewrite (read_until_line _ rest amounts _ (status_line_no_CR code tail Hcode Hcr)).
  cbn [invoke].
  set (e := hd 0 amounts).
  pose proof (on_status_line_received_line f
                (received (("HTTP/1.1 " ++ code ++ tail) ++ CRLF ++ take e rest) r3)
                no_error code tail (take e rest)
                (conj eq_refl eq_refl) eq_refl Hcode Htail Hcr
                (eq_sym (status_line_then code tail (take e rest)))) as Hline.
  rewrite Hfit in Hline. rewrite Hline. clear Hline.
  rewrite (start_unless_cancelled_ready f); [|split; reflexivity].
  cbn [m_was_cancelled with_response received r3 with_sock_is_open with_request_buf
       configured set_callback set_port set_uri set_host HTTPClient.create_request
       HTTPRequest_new].
  rewrite run_step.
  cbn [complete m_response_buf m_response with_response invoke].
  rewrite read_until_never
    by (cbn [incoming]; rewrite take_drop; exact Hrest).
  cbn [incoming overread outgoing].
  rewrite take_drop.
  rewrite (failed_completion headers_received _ asio_error.eof) by discriminate.
  rewrite (on_finish_ready f); [|reflexivity].
  rewrite run_finished by reflexivity.
  split; reflexivity.
Qed.

Lemma reply_without_blank_line_fails_witness :
  callback_calls
    (events (snd (round_trip example_request
                    (status_line "200" " OK" ++ CRLF ++ "hello") [])))
  = [(mk_view 200 " OK" [] (CRLF ++ "hello"), asio_error.eof)].
Proof.
  apply (reply_without_blank_line_fails 1 0 "example.test" 80 "/" 7
           "200" " OK" (CRLF ++ "hello") []);
    try discriminate; reflexivity.
Defined.

(** ** A well-formed reply *)

Lemma record_lines_fields (lines : list string) (resp : HTTPResponse) :
  record_lines lines resp =
    mk_HTTPResponse (m_status_code resp) (m_status_message resp)
      (header_map lines (m_headers resp)) (m_response_buf resp).
Proof.
  revert resp. induction lines as [|line lines IH]; intros resp.
  - destruct resp; reflexivity.
  - unfold record_lines, header_map in *. simpl. rewrite IH.
    unfold record_line. destruct (split_header line) as [[n v]|]; reflexivity.
Qed.

Lemma take_0 (s : string) : take 0 s = "".
Proof. destruct s; reflexivity. Qed.

Lemma take_add (a b : nat) (s : string) :
  take (a + b) s = (take a s ++ take b (drop a s))%string.
Proof.
  revert a. induction s as [|c s IH]; intros a.
  - destruct a, b; reflexivity.
  - destruct a; simpl.
    + destruct b; reflexivity.
    + rewrite IH. reflexivity.
Qed.

Lemma drop_add (a b : nat) (s : string) : drop (a + b) s = drop b (drop a s).
Proof.
  revert a. induction s as [|c s IH]; intros a.
  - destruct a, b; reflexivity.
  - destruct a; simpl; [reflexivity|apply IH].
Qed.

Lemma take_short (k : nat) (x y : string) :
  k <= String.length x -> take k (x ++ y) = take k x.
Proof.
  revert k. induction x as [|c x IH]; intros k Hk; simpl in *.
  - assert (k = 0) as -> by lia. apply take_0.
  - destruct k; [reflexivity|]. simpl. rewrite IH by lia. reflexivity.
Qed.

(** The read that finds its delimiter: the buffer grows by a prefix of what
    was to come, and holds the delimiter. *)
Lemma bytes_needed_some (d buf incoming : string) :
  contains d (buf ++ incoming) = true ->
  exists n, bytes_needed d buf incoming = Some n /\
            contains d (buf ++ take n incoming) = true.
Proof.
  revert buf. induction incoming as [|c rest IH]; intros buf H.
  - rewrite append_empty_r in H. exists 0. simpl. rewrite H.
    rewrite append_empty_r. auto.
  - change (bytes_needed d buf (String c rest))
      with (if contains d buf then Some 0
            else match bytes_needed d (buf ++ String c "") rest with
                 | Some n => Some (S n) | None => None end).
    destruct (contains d buf) eqn:Hbuf.
    + exists 0. rewrite take_0, append_empty_r. auto.
    + replace (buf ++ String c rest)%string with ((buf ++ String c "") ++ rest)%string in H
        by (rewrite append_assoc; reflexivity).
      destruct (IH _ H) as (n & -> & Hn). exists (S n). split; [reflexivity|].
      simpl. rewrite append_assoc in Hn. exact Hn.
Qed.

Lemma read_until_found (d buf : string) (net : network) :
  contains d (buf ++ incoming net) = true ->
  exists k overread',
    read_until d buf net =
      (no_error, (buf ++ take k (incoming net))%string,
       mk_network (drop k (incoming net)) overread' (outgoing net)) /\
    contains d (buf ++ take k (incoming net)) = true.
Proof.
  intros H. destruct (bytes_needed_some d buf _ H) as (n & Hn & Hc).
  unfold read_until. rewrite Hn. destruct n as [|n].
  - exists 0, (overread net). rewrite take_0, append_empty_r, drop_0.
    rewrite take_0, append_empty_r in Hc. destruct net; auto.
  - exists (S n + hd 0 (overread net)), (tl (overread net)). split; [reflexivity|].
    rewrite take_add, <- append_assoc. apply contains_append, Hc.
Qed.

(** *** Where the header block ends *)

Lemma prefix_CRLFCRLF_other (c : ascii) (s : string) :
  Ascii.eqb c CR = false -> String.prefix CRLFCRLF (String c s) = false.
Proof.
  intros Hc. unfold CRLFCRLF, CRLF. cbn [append String.prefix].
  destruct (ascii_dec CR c) as [E|E]; [|reflexivity].
  subst c. rewrite Ascii.eqb_refl in Hc. discriminate.
Qed.

Lemma contains_cons_other (c : ascii) (s : string) :
  Ascii.eqb c CR = false ->
  contains CRLFCRLF (String c s) = contains CRLFCRLF s.
Proof.
  intros Hc. change (contains CRLFCRLF (String c s))
    with (String.prefix CRLFCRLF (String c s) || contains CRLFCRLF s).
  rewrite (prefix_CRLFCRLF_other c s Hc). reflexivity.
Qed.

Lemma take_no_CR (k : nat) (s : string) : find CR s = None -> find CR (take k s) = None.
Proof.
  revert k. induction s as [|c s IH]; intros k H; [destruct k; reflexivity|].
  simpl in H. destruct (Ascii.eqb c CR) eqn:Hc; [discriminate|].
  destruct k; simpl; [reflexivity|]. rewrite Hc.
  rewrite IH; [reflexivity|]. destruct (find CR s); [discriminate|reflexivity].
Qed.

Lemma no_CR_no_CRLFCRLF (s : string) : find CR s = None -> contains CRLFCRLF s = false.
Proof.
  induction s as [|c s IH]; [reflexivity|].
  simpl find. destruct (Ascii.eqb c CR) eqn:Hc; [discriminate|].
  destruct (find CR s); [discriminate|]. intros _.
  rewrite (contains_cons_other c s Hc). apply IH. reflexivity.
Qed.

(** A prefix of a line without carriage return and of what follows it holds
    the delimiter only in what follows. *)
Lemma contains_take_line (k : nat) (line y : string) :
  find CR line = None ->
  contains CRLFCRLF (take k (line ++ y)) =
  contains CRLFCRLF (take (k - String.length line) y).
Proof.
  revert k. induction line as [|c line IH]; intros k H.
  - simpl. rewrite Nat.sub_0_r. reflexivity.
  - simpl in H. destruct (Ascii.eqb c CR) eqn:Hc; [discriminate|].
    assert (H' : find CR line = None) by (destruct (find CR line); [discriminate|reflexivity]).
    destruct k.
    + change (0 - String.length (String c line)) with 0. rewrite !take_0. reflexivity.
    + change (take (S k) (String c line ++ y)) with (String c (take k (line ++ y))).
      change (S k - String.length (String c line)) with (k - String.length line).
      rewrite (contains_cons_other c _ Hc). apply IH, H'.
Qed.

Lemma header_line_first (line : string) :
  is_header_line line = true ->
  exists c rest, line = String c rest /\ Ascii.eqb c CR = false /\ find CR line = None.
Proof.
  intros H. apply is_header_line_inv in H as [Hne Hcr].
  destruct line as [|c rest]; [congruence|].
  exists c, rest. split; [reflexivity|]. split; [|exact Hcr].
  simpl in Hcr. destruct (Ascii.eqb c CR); [discriminate|reflexivity].
Qed.

(** No proper prefix of a block of one header line or more holds CR LF CR
    LF. *)
Lemma header_block_proper_prefix (lines : list string) :
  lines <> [] -> forallb is_header_line lines = true ->
  forall k, k < String.length (header_block lines) ->
  contains CRLFCRLF (take k (header_block lines)) = false.
Proof.
  induction lines as [|line lines IH]; [congruence|].
  intros _ Hl k Hk. simpl in Hl. apply andb_true_iff in Hl as [Hline Hl].
  destruct (header_line_first line Hline) as (c & l' & Hshape & Hc & Hcr).
  change (header_block (line :: lines)) with (line ++ CRLF ++ header_block lines)%string in *.
  rewrite (contains_take_line k line _ Hcr).
  rewrite length_append in Hk.
  remember (k - String.length line) as j eqn:Hj.
  assert (Hjlt : String.length line <= k -> j < String.length (CRLF ++ header_block lines))
    by (intros; lia).
  destruct (Nat.le_gt_cases (String.length line) k) as [Hge|Hlt].
  2:{ assert (j = 0) as -> by lia. rewrite take_0. reflexivity. }
  specialize (Hjlt Hge). clear Hj Hk Hge.
  destruct lines as [|line2 lines'].
  - simpl in Hjlt. simpl.
    destruct j as [|[|[|[|j]]]]; try reflexivity. lia.
  - destruct (header_line_first line2 (proj1 (proj1 (andb_true_iff _ _) Hl)))
      as (c2 & l2 & Hshape2 & Hc2 & _).
    specialize (IH ltac:(discriminate) Hl).
    change (header_block (line2 :: lines'))
      with (line2 ++ CRLF ++ header_block lines')%string in *.
    subst line2.
    destruct j as [|[|j]]; [reflexivity|reflexivity|].
    change (take (S (S j)) (CRLF ++ String c2 l2 ++ CRLF ++ header_block lines'))
      with (String CR (String LF (take j (String c2 l2 ++ CRLF ++ header_block lines')))).
    assert (HLF : Ascii.eqb LF CR = false) by reflexivity.
    change (contains CRLFCRLF (String CR (String LF ?x)))
      with (String.prefix CRLFCRLF (String CR (String LF x))
            || contains CRLFCRLF (String LF x)).
    rewrite (contains_cons_other LF _ HLF).
    rewrite IH by (simpl in Hjlt; simpl; lia).
    rewrite orb_false_r.
    destruct j; [reflexivity|].
    simpl take. unfold CRLFCRLF, CRLF. cbn [append String.prefix].
    destruct (ascii_dec CR CR) as [_|E]; [|congruence].
    destruct (ascii_dec LF LF) as [_|E]; [|congruence].
    destruct (ascii_dec CR c2) as [E|E]; [|reflexivity].
    subst c2. discriminate Hc2.
Qed.

Lemma header_block_ends (lines : list string) :
  exists x, header_block lines = (x ++ CRLF)%string /\
            (lines <> [] -> exists y, x = (y ++ CRLF)%string).
Proof.
  induction lines as [|line lines IH].
  - exists "". split; [reflexivity|congruence].
  - destruct IH as (x & Hx & Hy).
    exists (line ++ CRLF ++ x)%string. split.
    + simpl. rewrite Hx, !append_assoc. reflexivity.
    + intros _. destruct lines as [|l2 ls].
      * exists line. simpl in Hx. 
        assert (x = "") as ->.
        { destruct x as [|a [|b x]]; simpl in Hx; try discriminate; [reflexivity|].
          destruct x; discriminate. }
        reflexivity.
      * destruct (Hy ltac:(discriminate)) as (y & ->).
        exists (line ++ CRLF ++ y)%string. rewrite !append_assoc. reflexivity.
Qed.

Lemma header_block_contains (lines : list string) (body : string) :
  lines <> [] -> contains CRLFCRLF (header_block lines ++ body) = true.
Proof.
  intros Hne. destruct (header_block_ends lines) as (x & Hx & Hy).
  destruct (Hy Hne) as (y & ->). apply contains_append.
  rewrite Hx, append_assoc. apply (contains_at_end CRLFCRLF y).
Qed.

(** A prefix of block and body that holds CR LF CR LF holds the whole
    block. *)
Lemma take_holds_block (lines : list string) (body : string) (k : nat) :
  lines <> [] -> forallb is_header_line lines = true ->
  contains CRLFCRLF (take k (header_block lines ++ body)) = true ->
  exists j,
    take k (header_block lines ++ body) = (header_block lines ++ take j body)%string /\
    drop k (header_block lines ++ body) = drop j body.
Proof.
  intros Hne Hl Hc.
  destruct (Nat.le_gt_cases (String.length (header_block lines)) k) as [Hge|Hlt].
  - exists (k - String.length (header_block lines)).
    replace k with (String.length (header_block lines)
                    + (k - String.length (header_block lines))) at 1 3 by lia.
    rewrite take_append, drop_append. auto.
  - rewrite take_short in Hc by lia.
    rewrite (header_block_proper_prefix lines Hne Hl k Hlt) in Hc. discriminate.
Qed.

Lemma on_response_body_received_eof (r : HTTPRequest) :
  on_response_body_received asio_error.eof r = on_finish no_error r.
Proof. reflexivity. Qed.

Lemma quiet_callback_calls (log : list event) :
  quiet log = true -> callback_calls log = [].
Proof.
  induction log as [|e log IH]; [reflexivity|].
  destruct e; simpl; try discriminate; exact IH.
Qed.

(** The outcome of the pipeline on a well-formed reply: the operations, then
    the one call of the callback. *)
Lemma well_formed_reply_outcome (id indeterminate : N) (host : string) (port : N)
    (uri : string) (f : Callback) (code tail : string) (lines : list string)
    (body : string) (amounts : list nat) :
  host <> "" -> uri <> "" -> (0 < port)%N ->
  all_digits code = true -> ends_word tail = true -> no_CR tail = true ->
  (stoul.digits code 0 <=? stoul.ULONG_MAX)%N = true ->
  lines <> [] -> forallb is_header_line lines = true ->
  exists r' log,
    snd (round_trip (configured id indeterminate host port uri f)
           (status_line code tail ++ header_block lines ++ body) amounts)
    = Returns tt r' (log ++ [callback f r' (m_response r') no_error]) /\
    quiet log = true /\ get_id r' = id /\
    m_response r' =
      mk_HTTPResponse (to_unsigned_int (stoul.digits code 0)) tail
        (header_map lines (StringMap.empty string)) body.
Proof.
  intros Hhost Huri Hport Hcode Htail Hcr Hfit Hne Hlines. unfold round_trip.
  rewrite (first_three_steps_then 3 id indeterminate host port uri f _ Hhost Huri Hport).
  rewrite run_step_after_shutdown.
  cbn [complete incoming overread outgoing].
  set (r3 := with_sock_is_open true
               (with_request_buf (request_message host uri)
                  (configured id indeterminate host port uri f))).
  change (m_response_buf (m_response r3)) with "".
  set (R := (header_block lines ++ body)%string).
  rewrite status_line_then.
  rewrite (read_until_line _ R amounts _ (status_line_no_CR code tail Hcode Hcr)).
  cbn [invoke].
  set (e := hd 0 amounts).
  pose proof (on_status_line_received_line f
                (received (("HTTP/1.1 " ++ code ++ tail) ++ CRLF ++ take e R) r3)
                no_error code tail (take e R)
                (conj eq_refl eq_refl) eq_refl Hcode Htail Hcr
                (eq_sym (status_line_then code tail (take e R)))) as Hline.
  rewrite Hfit in Hline. rewrite Hline. clear Hline.
  rewrite (start_unless_cancelled_ready f); [|split; reflexivity].
  cbn [m_was_cancelled with_response received r3 with_sock_is_open with_request_buf
       configured set_callback set_port set_uri set_host HTTPClient.create_request
       HTTPRequest_new].
  rewrite run_step.
  cbn [complete m_response_buf m_response with_response].
  match goal with |- context [read_until CRLFCRLF (take e R) ?net] =>
    destruct (read_until_found CRLFCRLF (take e R) net) as (k & overread' & Hread & Hfound);
      [cbn [incoming]; rewrite take_drop; apply header_block_contains, Hne|]
  end.
  rewrite Hread. clear Hread.
  cbn [incoming overread outgoing] in *.
  rewrite <- take_add in Hfound. rewrite <- take_add, <- drop_add.
  destruct (take_holds_block lines body (e + k) Hne Hlines Hfound) as (j & Htake & Hdrop).
  fold R in Htake, Hdrop. rewrite Htake, Hdrop. clear Htake Hdrop Hfound.
  cbn [invoke].
  erewrite (on_headers_received_block _ no_error lines (take j body) eq_refl);
    [|reflexivity|exact Hlines].
  rewrite (start_unless_cancelled_ready f); [|split; reflexivity].
  cbn [m_was_cancelled with_response received r3 with_sock_is_open with_request_buf
       configured set_callback set_port set_uri set_host HTTPClient.create_request
       HTTPRequest_new].
  rewrite run_step.
  cbn [complete read_all m_response_buf m_response with_response set_response_buf
       incoming overread outgoing invoke].
  rewrite take_drop.
  rewrite on_response_body_received_eof.
  rewrite (on_finish_ready f); [|reflexivity].
  rewrite run_finished by reflexivity.
  rewrite record_lines_fields.
  eexists. eexists. split; [cbn [snd]; reflexivity|].
  repeat split.
Qed.

(** X7. A well-formed reply is delivered whole. For a request that satisfies
    [execute]'s preconditions and a reply made of a status line with a decimal
    code, at least one header line of the form name, colon, value (none with a
    carriage return), the blank line and any body, and however many bytes each
    read takes past its delimiter, the pipeline returns and calls the callback
    exactly once, with no error and a response holding the parsed code, the
    rest of the status line, the map of the header lines and the whole body. *)
Theorem well_formed_reply_succeeds (id indeterminate : N) (host : string) (port : N)
    (uri : string) (f : Callback) (code tail : string) (lines : list string)
    (body : string) (amounts : list nat) :
  host <> "" -> uri <> "" -> (0 < port)%N ->
  all_digits code = true -> ends_word tail = true -> no_CR tail = true ->
  (stoul.digits code 0 <=? stoul.ULONG_MAX)%N = true ->
  lines <> [] -> forallb is_header_line lines = true ->
  let o := snd (round_trip (configured id indeterminate host port uri f)
                  (status_line code tail ++ header_block lines ++ body) amounts) in
  returned o = true /\
  callback_calls (events o) =
    [(mk_view (to_unsigned_int (stoul.digits code 0)) tail
        (StringMap.elements (header_map lines (StringMap.empty string))) body,
      no_error)].
Proof.
  intros Hhost Huri Hport Hcode Htail Hcr Hfit Hne Hlines. cbv zeta.
  destruct (well_formed_reply_outcome id indeterminate host port uri f code tail lines body
              amounts Hhost Huri Hport Hcode Htail Hcr Hfit Hne Hlines)
    as (r' & log & -> & Hquiet & _ & Hresp).
  cbn [returned events]. rewrite callback_calls_app, (quiet_callback_calls log Hquiet).
  cbn [callback_calls app]. unfold view. rewrite Hresp. split; reflexivity.
Qed.

Lemma well_formed_reply_succeeds_witness :
  callback_calls
    (events (snd (round_trip example_request
                    (status_line "200" " OK" ++
                     header_block ["B: 1"; "A: 2"; "B: 3"] ++ "hello") [3; 2])))
  = [(mk_view 200 " OK" [("A", " 2"); ("B", " 3")] "hello", no_error)].
Proof.
  apply (well_formed_reply_succeeds 1 0 "example.test" 80 "/" 7
           "200" " OK" ["B: 1"; "A: 2"; "B: 3"] "hello" [3; 2]);
    try discriminate; reflexivity.
Defined.

(** ** The header step on any bytes *)

Lemma cut_append (delim : ascii) (s a b : string) :
  cut delim s = Some (a, b) -> s = (a ++ String delim b)%string.
Proof.
  revert a b. induction s as [|c s IH]; intros a b; simpl; [discriminate|].
  destruct (Ascii.eqb c delim) eqn:Hc.
  - apply Ascii.eqb_eq in Hc. subst c. intros H. injection H as <- <-. reflexivity.
  - destruct (cut delim s) as [[a' b']|]; [|discriminate].
    intros H. injection H as <- <-. rewrite (IH a' b' eq_refl). reflexivity.
Qed.

Lemma getline_consumes (str : string) (delim : ascii) (s : istream.t) :
  exists consumed,
    istream.rdbuf s = (consumed ++ istream.rdbuf (snd (istream.getline str delim s)))%string.
Proof.
  unfold istream.getline, istream.sentry.
  destruct (negb (istream.good s)); [exists ""; reflexivity|].
  cbn [fst snd]. destruct (cut delim (istream.rdbuf s)) as [[line rest]|] eqn:Hcut.
  - exists (line ++ String delim "")%string. cbn [snd istream.rdbuf].
    rewrite (cut_append _ _ _ _ Hcut), append_assoc. reflexivity.
  - exists (istream.rdbuf s). cbn [snd istream.rdbuf]. rewrite append_empty_r. reflexivity.
Qed.

Lemma get_consumes (s : istream.t) :
  exists consumed, istream.rdbuf s = (consumed ++ istream.rdbuf (istream.get s))%string.
Proof.
  unfold istream.get, istream.sentry.
  destruct (negb (istream.good s)); [exists ""; reflexivity|].
  cbn [fst snd]. destruct (istream.rdbuf s) as [|c rest].
  - exists "". reflexivity.
  - exists (String c ""). reflexivity.
Qed.

Lemma keeps_names_refl (m : StringMap.t string) : keeps_names m m.
Proof. intros name H. exact H. Qed.

Lemma keeps_names_trans (a b c : StringMap.t string) :
  keeps_names a b -> keeps_names b c -> keeps_names a c.
Proof. intros Hab Hbc name H. apply Hbc, Hab, H. Qed.

Lemma keeps_names_add (name value : string) (m : StringMap.t string) :
  keeps_names m (StringMap.add name value m).
Proof. intros n H. apply StringMapFacts.add_in_iff. right. exact H. Qed.

Lemma headers_loop_body_keeps (s : istream.t) (header : string) (resp : HTTPResponse) :
  match headers_loop_body s header resp with
  | (s', _, resp') => loop_keeps s resp s' resp'
  end.
Proof.
  unfold headers_loop_body.
  pose proof (getline_consumes header CR s) as (c1 & H1).
  destruct (istream.getline header CR s) as [line s1]. cbn [snd] in H1.
  pose proof (get_consumes s1) as (c2 & H2).
  assert (Hbuf : exists consumed,
             istream.rdbuf s = (consumed ++ istream.rdbuf (istream.get s1))%string).
  { exists (c1 ++ c2)%string. rewrite H1, H2 at 1. rewrite append_assoc. reflexivity. }
  destruct (line =? "")%string.
  - repeat split; [apply keeps_names_refl|exact Hbuf].
  - destruct (find ":"%char line).
    + repeat split; [apply keeps_names_add|exact Hbuf].
    + repeat split; [apply keeps_names_refl|exact Hbuf].
Qed.

Lemma headers_loop_keeps (turns : nat) (s : istream.t) (header : string)
    (resp : HTTPResponse) (s' : istream.t) (resp' : HTTPResponse) :
  headers_loop turns s header resp = Some (s', resp') ->
  loop_keeps s resp s' resp'.
Proof.
  revert s header resp. induction turns as [|turns IH]; intros s header resp; [discriminate|].
  simpl. pose proof (headers_loop_body_keeps s header resp) as Hbody.
  destruct (headers_loop_body s header resp) as [[s1 [h1|]] resp1].
  - intros Hloop. apply IH in Hloop.
    destruct Hbody as (Hc & Hm & Hb & Hn & c1 & Hs).
    destruct Hloop as (Hc' & Hm' & Hb' & Hn' & c2 & Hs').
    repeat split; try congruence.
    + eapply keeps_names_trans; eassumption.
    + exists (c1 ++ c2)%string. rewrite Hs, Hs' at 1. rewrite append_assoc. reflexivity.
  - intros H. injection H as <- <-. exact Hbody.
Qed.

(** X8. The header step on any buffer. Called with a zero error code, the
    header handler either never returns (its loop has no end on these bytes,
    and nothing is started or reported), or returns with the status code and
    the status message unchanged, every header name that was in the map
    still in it, and in the response buffer a suffix of the bytes it found
    there. *)
Theorem header_step_keeps_response (f : Callback) (r : HTTPRequest) (ec : error_code) :
  ready f r -> value ec = 0%Z ->
  on_headers_received ec r = Stuck never_returns [] \/
  exists r' out,
    on_headers_received ec r = Returns tt r' out /\
    m_status_code (m_response r') = m_status_code (m_response r) /\
    m_status_message (m_response r') = m_status_message (m_response r) /\
    keeps_names (m_headers (m_response r)) (m_headers (m_response r')) /\
    exists consumed,
      m_response_buf (m_response r) = (consumed ++ m_response_buf (m_response r'))%string.
Proof.
  intros Hready Hec. rewrite (on_headers_received_unfold r ec Hec). cbv zeta.
  destruct (headers_loop _ _ _ _) as [[s resp]|] eqn:Hloop; [right|left; reflexivity].
  apply headers_loop_keeps in Hloop as (Hc & Hm & _ & Hn & consumed & Hs).
  rewrite (start_unless_cancelled_ready f); [|exact Hready].
  cbn [m_was_cancelled with_response].
  destruct (m_was_cancelled r); eexists; eexists; (split; [reflexivity|]);
    cbn [m_response with_response set_response_buf m_status_code m_status_message
         m_headers m_response_buf];
    (repeat split; [exact Hc|exact Hm|exact Hn|exists consumed; exact Hs]).
Qed.

Lemma header_step_keeps_response_witness :
  on_headers_received no_error
    (received ("A: 1" ++ CRLF ++ "B" ++ CRLF ++ CRLF ++ "rest") example_request)
  = Stuck never_returns [] \/
  exists r' out,
    on_headers_received no_error
      (received ("A: 1" ++ CRLF ++ "B" ++ CRLF ++ CRLF ++ "rest") example_request)
    = Returns tt r' out /\
    m_status_code (m_response r') = 0%N /\
    m_status_message (m_response r') = "" /\
    keeps_names (StringMap.empty string) (m_headers (m_response r')) /\
    exists consumed,
      ("A: 1" ++ CRLF ++ "B" ++ CRLF ++ CRLF ++ "rest")%string
      = (consumed ++ m_response_buf (m_response r'))%string.
Proof.
  exact (header_step_keeps_response 7
           (received ("A: 1" ++ CRLF ++ "B" ++ CRLF ++ CRLF ++ "rest") example_request)
           no_error (conj eq_refl eq_refl) eq_refl).
Defined.

(** ** A carriage return without its line feed *)

Lemma bytes_needed_found (d buf incoming : string) :
  contains d buf = true -> bytes_needed d buf incoming = Some 0.
Proof. intros H. destruct incoming; cbn [bytes_needed]; rewrite H; reflexivity. Qed.

Lemma bytes_needed_next (d buf : string) (c : ascii) (rest : string) :
  contains d buf = false ->
  bytes_needed d buf (String c rest) =
    match bytes_needed d (buf ++ String c "") rest with
    | Some n => Some (S n)
    | None => None
    end.
Proof. intros H. cbn [bytes_needed]. rewrite H. reflexivity. Qed.

(** The read stops at the first prefix of what comes that completes the
    delimiter. *)
Lemma bytes_needed_exact (d x y buf : string) :
  (forall k, k < String.length x -> contains d (buf ++ take k x) = false) ->
  contains d (buf ++ x) = true ->
  bytes_needed d buf (x ++ y) = Some (String.length x).
Proof.
  revert buf. induction x as [|c x IH]; intros buf Hbefore Hat.
  - rewrite append_empty_r in Hat. apply bytes_needed_found, Hat.
  - change ((String c x ++ y)%string) with (String c (x ++ y)).
    rewrite bytes_needed_next.
    + rewrite (IH (buf ++ String c "")%string); [reflexivity| |].
      * intros k Hk. rewrite append_assoc. apply (Hbefore (S k)). simpl. lia.
      * rewrite append_assoc. exact Hat.
    + specialize (Hbefore 0 ltac:(simpl; lia)). rewrite take_0, append_empty_r in Hbefore.
      exact Hbefore.
Qed.

Lemma contains_after_no_CR (s x : string) :
  find CR s = None -> contains CRLFCRLF (s ++ x) = contains CRLFCRLF x.
Proof.
  induction s as [|c s IH]; [reflexivity|].
  simpl find. destruct (Ascii.eqb c CR) eqn:Hc; [discriminate|].
  destruct (find CR s); [discriminate|]. intros _.
  change ((String c s ++ x)%string) with (String c (s ++ x)).
  rewrite (contains_cons_other c _ Hc). apply IH. reflexivity.
Qed.

Lemma bare_CR_block_needed (name body : string) :
  find CR name = None ->
  bytes_needed CRLFCRLF "" (bare_CR_block name ++ body)
  = Some (String.length (bare_CR_block name)).
Proof.
  intros Hname. apply bytes_needed_exact.
  - intros k Hk. cbn [append]. unfold bare_CR_block in *.
    destruct (Nat.le_gt_cases k (String.length name)) as [Hle|Hgt].
    + rewrite take_short by exact Hle. apply no_CR_no_CRLFCRLF, take_no_CR, Hname.
    + rewrite length_append in Hk. simpl in Hk.
      replace k with (String.length name + (k - String.length name)) by lia.
      rewrite take_append, contains_after_no_CR by exact Hname.
      assert (Hi : k - String.length name < 5) by lia.
      destruct (k - String.length name) as [|[|[|[|[|i]]]]]; try reflexivity. lia.
  - cbn [append]. unfold bare_CR_block.
    rewrite contains_after_no_CR by exact Hname. reflexivity.
Qed.

Lemma read_until_bare_CR (name body : string) (e : nat) (amounts : list nat)
    (sent : string) :
  find CR name = None ->
  read_until CRLFCRLF "" (mk_network (bare_CR_block name ++ body) (e :: amounts) sent) =
    (no_error, (bare_CR_block name ++ take e body)%string,
     mk_network (drop e body) amounts sent).
Proof.
  intros Hname. unfold read_until.
  cbn [incoming overread outgoing hd tl].
  rewrite (bare_CR_block_needed name body Hname).
  rewrite take_append, drop_append.
  destruct (String.length (bare_CR_block name)) eqn:Hlen; [|reflexivity].
  unfold bare_CR_block in Hlen. rewrite length_append in Hlen. simpl in Hlen. lia.
Qed.

Lemma cut_none (delim : ascii) (s : string) : find delim s = None -> cut delim s = None.
Proof. intros H. pose proof (find_cut delim s) as Hc. rewrite H in Hc. exact Hc. Qed.

(** The loop over such a block: the first turn takes [name] and drops the
    second carriage return, the second takes the line feed as a line and
    drops the line feed of the empty line, the third finds the end of the
    buffer, or bytes without end of line. *)
Lemma headers_loop_bare_CR (turns : nat) (name rest header : string) (resp : HTTPResponse) :
  name <> "" -> find CR name = None -> find CR rest = None ->
  headers_loop (S (S (S turns))) (istream.open (bare_CR_block name ++ rest)) header resp =
    if is_empty rest
    then Some (istream.mk "" true true, record_line resp name)
    else None.
Proof.
  intros Hne Hname Hrest.
  change (headers_loop (S (S (S turns))) ?s header resp)
    with (match headers_loop_body s header resp with
          | (s', None, resp') => Some (s', resp')
          | (s', Some h', resp') => headers_loop (S (S turns)) s' h' resp'
          end).
  rewrite (headers_loop_body_record _
             (istream.mk (String CR (String LF (String CR (String LF rest)))) false false)
             name header resp); [| |exact Hne].
  2:{ unfold istream.getline, bare_CR_block. cbn [istream.sentry istream.open istream.good
        istream.eofbit istream.failbit istream.rdbuf negb andb].
      rewrite append_assoc. cbn [append].
      rewrite (cut_line CR name _ Hname). reflexivity. }
  change (istream.get (istream.mk (String CR (String LF (String CR (String LF rest)))) false false))
    with (istream.mk (String LF (String CR (String LF rest))) false false).
  change (headers_loop (S (S turns)) ?s name ?resp')
    with (match headers_loop_body s name resp' with
          | (s', None, resp'') => Some (s', resp'')
          | (s', Some h', resp'') => headers_loop (S turns) s' h' resp''
          end).
  rewrite (headers_loop_body_record _ (istream.mk (String LF rest) false false)
             (String LF "") name (record_line resp name));
    [|reflexivity|discriminate].
  change (istream.get (istream.mk (String LF rest) false false))
    with (istream.mk rest false false).
  change (record_line (record_line resp name) (String LF ""))
    with (record_line resp name).
  destruct rest as [|c rest]; [reflexivity|].
  change (headers_loop (S turns) ?s ?h ?resp')
    with (match headers_loop_body s h resp' with
          | (s', None, resp'') => Some (s', resp'')
          | (s', Some h', resp'') => headers_loop turns s' h' resp''
          end).
  rewrite (headers_loop_body_record _ (istream.mk "" true false)
             (String c rest) (String LF "") (record_line resp name));
    [| |discriminate].
  2:{ unfold istream.getline. cbn [istream.sentry istream.good istream.eofbit
        istream.failbit istream.rdbuf negb andb].
      rewrite (cut_none CR _ Hrest). reflexivity. }
  cbn [is_empty]. apply headers_loop_failed; [reflexivity|discriminate].
Qed.

Lemma enough_turns_bare_CR (name rest : string) :
  enough_turns (bare_CR_block name ++ rest) =
    S (S (S (String.length (bare_CR_block name ++ rest) - 1))).
Proof.
  unfold enough_turns. rewrite length_append. unfold bare_CR_block.
  rewrite length_append. simpl. lia.
Qed.

Lemma on_headers_received_bare_CR (r : HTTPRequest) (ec : error_code) (name rest : string) :
  value ec = 0%Z ->
  m_response_buf (m_response r) = (bare_CR_block name ++ rest)%string ->
  name <> "" -> find CR name = None -> find CR rest = None ->
  on_headers_received ec r =
    if is_empty rest
    then start_unless_cancelled (async_read response_body_received)
           (with_response (set_response_buf "" (record_line (m_response r) name)) r)
    else Stuck never_returns [].
Proof.
  intros Hec Hbuf Hne Hname Hrest. rewrite (on_headers_received_unfold r ec Hec). cbv zeta.
  rewrite Hbuf, enough_turns_bare_CR, (headers_loop_bare_CR _ name rest "" _ Hne Hname Hrest).
  destruct (is_empty rest); reflexivity.
Qed.

(** X9. A header line ended by a carriage return without line feed. The
    loop drops the byte after every carriage return, so it runs past the
    empty line; whether the request ever finishes then depends on how many
    bytes the read of the header block took past the blank line. When it
    took none, the loop ends at the end of the buffer and the callback gets
    the response with no error; when it took one byte or more of a body
    without carriage return, the loop never ends and the callback is never
    called. *)
Theorem bare_CR_outcome_depends_on_read_size (id indeterminate : N) (host : string) (port : N)
    (uri : string) (f : Callback) (code tail name body : string) (e : nat) :
  host <> "" -> uri <> "" -> (0 < port)%N ->
  all_digits code = true -> ends_word tail = true -> no_CR tail = true ->
  (stoul.digits code 0 <=? stoul.ULONG_MAX)%N = true ->
  name <> "" -> no_CR name = true -> no_CR body = true ->
  let o := snd (round_trip (configured id indeterminate host port uri f)
                  (status_line code tail ++ bare_CR_block name ++ body) [0; e]) in
  if is_empty (take e body)
  then returned o = true /\
       callback_calls (events o) =
         [(mk_view (to_unsigned_int (stoul.digits code 0)) tail
             (StringMap.elements (header_map [name] (StringMap.empty string))) body,
           no_error)]
  else returned o = false /\ callback_calls (events o) = [].
Proof.
  intros Hhost Huri Hport Hcode Htail Hcr Hfit Hne Hname Hbody. cbv zeta. unfold round_trip.
  assert (Hname' : find CR name = None).
  { unfold no_CR in Hname. destruct (find CR name); [discriminate|reflexivity]. }
  assert (Hbody' : find CR (take e body) = None).
  { apply take_no_CR. unfold no_CR in Hbody.
    destruct (find CR body); [discriminate|reflexivity]. }
  rewrite (first_three_steps_then 3 id indeterminate host port uri f _ Hhost Huri Hport).
  rewrite run_step_after_shutdown.
  cbn [complete incoming overread outgoing].
  set (r3 := with_sock_is_open true
               (with_request_buf (request_message host uri)
                  (configured id indeterminate host port uri f))).
  change (m_response_buf (m_response r3)) with "".
  set (R := (bare_CR_block name ++ body)%string).
  rewrite status_line_then.
  rewrite (read_until_line _ R [0; e] _ (status_line_no_CR code tail Hcode Hcr)).
  cbn [invoke hd tl]. rewrite take_0, drop_0.
  pose proof (on_status_line_received_line f
                (received (("HTTP/1.1 " ++ code ++ tail) ++ CRLF ++ "") r3)
                no_error code tail ""
                (conj eq_refl eq_refl) eq_refl Hcode Htail Hcr
                (eq_sym (status_line_then code tail ""))) as Hline.
  rewrite Hfit in Hline. rewrite Hline. clear Hline.
  rewrite (start_unless_cancelled_ready f); [|split; reflexivity].
  cbn [m_was_cancelled with_response received r3 with_sock_is_open with_request_buf
       configured set_callback set_port set_uri set_host HTTPClient.create_request
       HTTPRequest_new].
  rewrite run_step.
  cbn [complete m_response_buf m_response with_response].
  unfold R. rewrite (read_until_bare_CR name body e [] _ Hname').
  cbn [invoke].
  erewrite (on_headers_received_bare_CR _ no_error name (take e body) eq_refl);
    [|reflexivity|exact Hne|exact Hname'|exact Hbody'].
  destruct (is_empty (take e body)) eqn:Hempty.
  - rewrite (start_unless_cancelled_ready f); [|split; reflexivity].
    cbn [m_was_cancelled with_response received r3 with_sock_is_open with_request_buf
         configured set_callback set_port set_uri set_host HTTPClient.create_request
         HTTPRequest_new].
    rewrite run_step.
    cbn [complete read_all m_response_buf m_response with_response set_response_buf
         incoming overread outgoing invoke].
    rewrite on_response_body_received_eof.
    rewrite (on_finish_ready f); [|reflexivity].
    rewrite run_finished by reflexivity.
    assert (Hdrop : drop e body = body).
    { rewrite <- (take_drop e body) at 2. destruct (take e body); [reflexivity|discriminate]. }
    rewrite Hdrop.
    match goal with |- context [record_line ?resp name] =>
      change (record_line resp name) with (record_lines [name] resp)
    end.
    rewrite record_lines_fields.
    split; reflexivity.
  - rewrite run_stuck. split; reflexivity.
Qed.

Lemma bare_CR_outcome_depends_on_read_size_witness :
  (let o := snd (round_trip example_request
                   (status_line "200" " OK" ++ bare_CR_block "A: 1" ++ "hello") [0; 0]) in
   returned o = true /\
   callback_calls (events o) = [(mk_view 200 " OK" [("A", " 1")] "hello", no_error)]) /\
  (let o := snd (round_trip example_request
                   (status_line "200" " OK" ++ bare_CR_block "A: 1" ++ "hello") [0; 1]) in
   returned o = false /\ callback_calls (events o) = []).
Proof.
  split.
  - apply (bare_CR_outcome_depends_on_read_size 1 0 "example.test" 80 "/" 7
             "200" " OK" "A: 1" "hello" 0); try discriminate; reflexivity.
  - apply (bare_CR_outcome_depends_on_read_size 1 0 "example.test" 80 "/" 7
             "200" " OK" "A: 1" "hello" 1); try discriminate; reflexivity.
Defined.

(** ** What the demonstration prints *)

Lemma console_app (library : error_code -> string) (a b : list event) (cout : ostream.t) :
  console library (a ++ b) cout = console library b (console library a cout).
Proof.
  revert cout. induction a as [|e a IH]; intros cout; [reflexivity|].
  destruct e; simpl; apply IH.
Qed.

Lemma console_quiet (library : error_code -> string) (log : list event) (cout : ostream.t) :
  quiet log = true -> console library log cout = cout.
Proof.
  induction log as [|e log IH]; [reflexivity|].
  destruct e; simpl; try discriminate; exact IH.
Qed.

Lemma insert_failed (text : string) (cout : ostream.t) :
  ostream.failbit cout = true -> ostream.insert text cout = cout.
Proof. intros H. unfold ostream.insert, ostream.good. rewrite H. reflexivity. Qed.

Lemma insert_good (text : string) (cout : ostream.t) :
  ostream.failbit cout = false ->
  ostream.insert text cout = ostream.mk (ostream.written cout ++ text) false.
Proof. intros H. unfold ostream.insert, ostream.good. rewrite H. reflexivity. Qed.

Lemma on_finish_report_failed (library : error_code -> string) (ec : error_code)
    (cout : ostream.t) :
  ostream.failbit cout = true -> on_finish_report library ec cout = cout.
Proof.
  intros H. unfold on_finish_report, ostream.endl. cbv zeta.
  rewrite !(insert_failed _ cout H). reflexivity.
Qed.

Lemma handler_failed (library : error_code -> string) (request : HTTPRequest)
    (response : HTTPResponse) (ec : error_code) (cout : ostream.t) :
  ostream.failbit cout = true ->
  fst (Demo.handler library request response ec cout) = cout.
Proof.
  intros H. unfold Demo.handler, ostream.endl, ostream.insert_streambuf. cbv zeta.
  rewrite !(insert_failed _ cout H). unfold ostream.good. rewrite H.
  destruct (value ec =? 0)%Z; [reflexivity|].
  destruct (error_code_eqb ec asio_error.operation_aborted); reflexivity.
Qed.

(** Once [failbit] is set on [std::cout], nothing more is written. *)
Lemma console_failed (library : error_code -> string) (out : list event) (cout : ostream.t) :
  ostream.failbit cout = true -> console library out cout = cout.
Proof.
  intros H. induction out as [|e out IH]; [reflexivity|].
  destruct e; simpl; try exact IH.
  - rewrite on_finish_report_failed by exact H. exact IH.
  - rewrite handler_failed by exact H. exact IH.
Qed.

(** X10. What the demonstration prints for a well-formed reply. With
    [handler] as the callback and nothing written before, the request prints
    its number and the body. When the body is empty the insertion of the
    response buffer sets [failbit] on [std::cout], and whatever completes
    afterwards, successfully or not, nothing of it is written any more. *)
Theorem empty_body_silences_console (library : error_code -> string)
    (id indeterminate : N) (host : string) (port : N)
    (uri : string) (f : Callback) (code tail : string) (lines : list string)
    (body : string) (amounts : list nat) (later : list event) :
  host <> "" -> uri <> "" -> (0 < port)%N ->
  all_digits code = true -> ends_word tail = true -> no_CR tail = true ->
  (stoul.digits code 0 <=? stoul.ULONG_MAX)%N = true ->
  lines <> [] -> forallb is_header_line lines = true ->
  let o := snd (round_trip (configured id indeterminate host port uri f)
                  (status_line code tail ++ header_block lines ++ body) amounts) in
  let line := ("Request #" ++ to_string id ++ " has completed. Response: ")%string in
  console library (events o) (ostream.mk "" false) =
    ostream.mk (line ++ body) (is_empty body) /\
  (body = "" ->
   console library (events o ++ later) (ostream.mk "" false) = ostream.mk line true).
Proof.
  intros Hhost Huri Hport Hcode Htail Hcr Hfit Hne Hlines. cbv zeta.
  destruct (well_formed_reply_outcome id indeterminate host port uri f code tail lines body
              amounts Hhost Huri Hport Hcode Htail Hcr Hfit Hne Hlines)
    as (r' & log & -> & Hquiet & Hid & Hresp).
  cbn [events].
  assert (Hfirst : console library (log ++ [callback f r' (m_response r') no_error])
                     (ostream.mk "" false)
                   = ostream.mk (("Request #" ++ to_string id ++ " has completed. Response: ")
                                 ++ body) (is_empty body)).
  { rewrite console_app, (console_quiet library log _ Hquiet).
    cbn [console]. unfold Demo.handler. rewrite Hresp, Hid.
    cbn [value no_error Z.eqb m_response_buf]. cbv zeta.
    rewrite !insert_good by reflexivity. cbn [ostream.written append].
    unfold ostream.insert_streambuf. cbn [ostream.good ostream.failbit negb ostream.written].
    destruct body as [|c body].
    - cbn [is_empty fst]. rewrite append_empty_r. reflexivity.
    - cbn [is_empty fst]. reflexivity. }
  split; [exact Hfirst|].
  intros ->. rewrite console_app, Hfirst, console_failed by reflexivity.
  rewrite append_empty_r. reflexivity.
Qed.

Lemma empty_body_silences_console_witness :
  console (fun _ => "") 
    (events (snd (round_trip example_request
                    (status_line "204" " No Content" ++ header_block ["A: 1"] ++ "") [3; 2]))
     ++ [cout_error asio_error.eof;
         callback 7 example_request (m_response example_request) asio_error.eof])
    (ostream.mk "" false)
  = ostream.mk "Request #1 has completed. Response: " true.
Proof.
  apply (empty_body_silences_console (fun _ => "") 1 0 "example.test" 80 "/" 7
           "204" " No Content" ["A: 1"] "" [3; 2]);
    try discriminate; reflexivity.
Defined.

(** X11. A failure is written twice on a good stream, and not at all on a
    failed one. When a request finishes with a non-zero error code, a
    cancellation included, and [std::cout] is good, the text is added to
    what was written before: first the report of [on_finish], an error with
    the value and the message of the code, then the line of [handler], as
    cancelled when the code is [operation_aborted], otherwise as failed,
    with value and message again; for [invalid_response] the message is the
    one of [http_errors_category]. When [failbit] is set on [std::cout], as
    it is after a response with an empty body, nothing is written. *)
Theorem failure_is_written_twice (library : error_code -> string) (f : Callback)
    (r : HTTPRequest) (ec : error_code) (cout : ostream.t) :
  ready f r -> value ec <> 0%Z ->
  console library (events (on_finish ec r)) cout =
    if ostream.failbit cout then cout
    else ostream.mk (ostream.written cout ++ failure_text library (get_id r) ec) false.
Proof.
  intros [Hf _] Hec.
  destruct (ostream.failbit cout) eqn:Hfail; [apply console_failed, Hfail|].
  rewrite (on_finish_ready f r ec Hf).
  unfold finish_events. rewrite (nonzero_test ec Hec).
  cbn [events app console]. unfold on_finish_report, Demo.handler, ostream.endl. cbv zeta.
  apply Z.eqb_neq in Hec. rewrite Hec.
  rewrite (insert_good _ cout Hfail).
  rewrite !insert_good by reflexivity. cbn [ostream.written].
  unfold failure_text.
  destruct (error_code_eqb ec asio_error.operation_aborted);
    cbn [ostream.written fst]; rewrite !append_assoc; reflexivity.
Qed.

Lemma failure_is_written_twice_witness :
  console (fun _ => "Operation canceled")
    (events (on_finish invalid_response_error example_request))
    (ostream.mk "Request #2 has completed. Response: hello" false)
  = ostream.mk ("Request #2 has completed. Response: hello" ++
                "Error occured." ++ String LF "Error code: 1" ++
                String LF "Message: Server response cannot be parsed." ++
                String LF "Request #1failed. Error code = 1. " ++
                "Error message = Server response cannot be parsed." ++ String LF "") false.
Proof.
  apply (failure_is_written_twice (fun _ => "Operation canceled") 7 example_request
           invalid_response_error
           (ostream.mk "Request #2 has completed. Response: hello" false));
    [split; reflexivity|discriminate].
Defined.

(** ** A request as [create_request] makes it *)

Lemma nonempty_positive (s : string) : s <> "" -> (0 <? size s)%N = true.
Proof.
  intros H. destruct s as [|c s]; [congruence|].
  unfold size. apply N.ltb_lt. simpl. lia.
Qed.

(** X12. A request as [create_request] makes it has the number it was
    created with, port 80, no host, no path and no callback, is not
    cancelled, and fails the assertions of [execute]; it still fails them
    with host and path set, for want of a callback. With host, path and
    callback set, in any order, and the port left alone, [execute] asks the
    resolver for the host and the service 80. *)
Theorem fresh_request_uses_port_80 (id indeterminate : N) (host uri : string) (f : Callback) :
  host <> "" -> uri <> "" ->
  let fresh := HTTPClient.create_request id indeterminate in
  get_id fresh = id /\ get_port fresh = 80%N /\ m_was_cancelled fresh = false /\
  execute fresh = Stuck assertion_failed [] /\
  execute (set_uri uri (set_host host fresh)) = Stuck assertion_failed [] /\
  let set := set_callback (Some f) (set_uri uri (set_host host fresh)) in
  set_uri uri (set_callback (Some f) (set_host host fresh)) = set /\
  set_host host (set_uri uri (set_callback (Some f) fresh)) = set /\
  execute set = Returns tt set [start (async_resolve host "80" host_name_resolved)].
Proof.
  intros Hhost Huri. cbv zeta. repeat split.
  - apply execute_assert_fails. right. right. right. reflexivity.
  - rewrite execute_asserts.
    + rewrite (start_unless_cancelled_ready f); [reflexivity|split; reflexivity].
    + reflexivity.
    + apply nonempty_positive, Hhost.
    + apply nonempty_positive, Huri.
    + discriminate.
Qed.

Lemma fresh_request_uses_port_80_witness :
  execute (set_callback (Some 7) (set_uri "/" (set_host "example.test"
             (HTTPClient.create_request 1 0))))
  = Returns tt
      (set_callback (Some 7) (set_uri "/" (set_host "example.test"
         (HTTPClient.create_request 1 0))))
      [start (async_resolve "example.test" "80" host_name_resolved)].
Proof.
  apply (fresh_request_uses_port_80 1 0 "example.test" "/" 7); discriminate.
Defined.

(** ** A request executed again *)

Lemma request_message_appended (buf host uri : string) :
  (((buf ++ ("GET " ++ uri ++ " HTTP/1.1" ++ CRLF)) ++ ("Host: " ++ host ++ CRLF)) ++ CRLF)%string
  = (buf ++ request_message host uri)%string.
Proof.
  rewrite <- request_message_composed. rewrite !append_assoc. reflexivity.
Qed.

(** X13. [m_request_buf] is appended to and never cleared. From [execute] on
    any request that meets the preconditions and is not cancelled, the first
    three steps write what the request buffer already held followed by the
    new request message: a request that is executed a second time sends the
    message of its first execution again, before the new one. *)
Theorem request_buffer_is_never_cleared (f : Callback) (r : HTTPRequest) (net : network) :
  ready f r -> preconditions r -> m_was_cancelled r = false ->
  let message := (m_request_buf r ++ request_message (m_host r) (m_uri r))%string in
  run 3 net [] (execute r) =
    (mk_network (incoming net) (overread net) (outgoing net ++ message),
     Returns tt
       (with_request_buf message (with_sock_is_open true r))
       [start (async_resolve (m_host r) (to_string (m_port r)) host_name_resolved);
        start (async_connect connection_established);
        start (async_write message request_sent);
        sock_shutdown_send;
        start (async_read_until CRLF status_line_received)]).
Proof.
  intros Hready Hpre Hflag. cbv zeta.
  apply preconditions_asserts in Hpre as (Hp & Hh & Hu & Hc).
  rewrite (execute_asserts r Hp Hh Hu Hc).
  rewrite (start_unless_cancelled_ready f r _ Hready), Hflag.
  rewrite run_step.
  cbn [complete invoke app].
  rewrite (on_host_name_resolved_ready f r _ Hready) by reflexivity. rewrite Hflag.
  rewrite run_step.
  cbn [complete invoke app].
  change (with_sock_is_open true (with_sock_is_open true r)) with (with_sock_is_open true r).
  rewrite on_connection_established_unfold by reflexivity. cbv zeta.
  change (m_request_buf (with_sock_is_open true r)) with (m_request_buf r).
  change (m_uri (with_sock_is_open true r)) with (m_uri r).
  change (m_host (with_sock_is_open true r)) with (m_host r).
  rewrite request_message_appended.
  assert (Hready' : ready f (with_request_buf
                               (m_request_buf r ++ request_message (m_host r) (m_uri r))
                               (with_sock_is_open true r))).
  { destruct Hready as [H1 H2]. split; assumption. }
  rewrite (start_unless_cancelled_ready f _ _ Hready').
  change (m_was_cancelled (with_request_buf _ (with_sock_is_open true r)))
    with (m_was_cancelled r).
  rewrite Hflag, run_step.
  cbn [complete invoke app].
  rewrite on_request_sent_unfold by reflexivity.
  rewrite (start_unless_cancelled_ready f _ _ Hready').
  change (m_was_cancelled (with_request_buf _ (with_sock_is_open true r)))
    with (m_was_cancelled r).
  rewrite Hflag, run_stop. reflexivity.
Qed.

Lemma request_buffer_is_never_cleared_witness :
  let sent_once := with_request_buf (request_message "example.test" "/")
                     (with_sock_is_open true example_request) in
  outgoing (fst (run 3 (mk_network "" [] "") [] (execute sent_once)))
  = (request_message "example.test" "/" ++ request_message "example.test" "/")%string.
Proof.
  cbv zeta.
  rewrite (request_buffer_is_never_cleared 7
             (with_request_buf (request_message "example.test" "/")
                (with_sock_is_open true example_request))
             (mk_network "" [] ""));
    [reflexivity|split; reflexivity| |reflexivity].
  repeat split; try discriminate; try reflexivity.
Defined.
